(** * Commodity deal scorer: the response Normalizer and the Prompt Builder

    A shallow embedding of [src/services/ai_scorer.py] (class [AIScorer]):
    [_parse_score_response], [_build_scoring_prompt] and [score_deal],
    together with the parts of the Python runtime they call ([str.strip],
    [re.search] on the two patterns of the source, [json.loads], [int]),
    and [json.dumps] for the re-encoding of the round trip. At the end of
    the definitions come [fix_ai_reasoning] of [src/fix_database.py] and
    the statements that [Deal] of [src/models/deal.py] hands to SQLite.

    Conventions.
    - A Python [str] is the list of its code points ([pystr]).
    - A Python value is a [pyval]; a [dict] is an association list in
      insertion order whose keys are unique.
    - A call either returns or raises: [outcome].
    - The runtime is CPython 3.11: [str.isspace] and the decimal digits are
      those of its Unicode tables, [int] of a text of more than 4300 digits
      raises [ValueError] (sys.int_info.default_max_str_digits).
    - The wording of the messages the interpreter gives its own exceptions,
      and the [repr] of a float, are left to an [Interpreter] record.
    - Console output ([print]) and resource limits (recursion depth, memory)
      are not modelled. *)

From Stdlib Require Import List ZArith NArith Bool String Ascii Lia.
From Stdlib Require Import SpecFloat DecimalFacts DecimalPos DecimalN.
Import ListNotations.
Local Open Scope list_scope.

(* ================================================================== *)
(** * Text *)

Definition char := N.
Definition pystr := list char.

(** A literal of the source. *)
Definition py (s : string) : pystr := map N_of_ascii (list_ascii_of_string s).

(** A literal in which an apostrophe stands for the double quote. *)
Definition js (s : string) : pystr :=
  map (fun c => if N.eqb c 39 then 34%N else c) (py s).

Definition newline : pystr := [10%N].

Fixpoint pystr_eqb (a b : pystr) : bool :=
  match a, b with
  | [], [] => true
  | x :: a', y :: b' => N.eqb x y && pystr_eqb a' b'
  | _, _ => false
  end.

(** [s.startswith(p)] *)
Fixpoint startswith (p s : pystr) : bool :=
  match p, s with
  | [], _ => true
  | x :: p', y :: s' => N.eqb x y && startswith p' s'
  | _ :: _, [] => false
  end.

(** [s.endswith(p)] *)
Definition endswith (p s : pystr) : bool :=
  Nat.leb (List.length p) (List.length s)
  && pystr_eqb (skipn (List.length s - List.length p) s) p.

(** [p in s] for two texts. *)
Fixpoint contains (p s : pystr) : bool :=
  startswith p s || match s with [] => false | _ :: s' => contains p s' end.

(** [s[:-n]] for [n <= len(s)]. *)
Definition drop_last (n : nat) (s : pystr) : pystr := firstn (List.length s - n) s.

Fixpoint drop_while (f : char -> bool) (s : pystr) : pystr :=
  match s with
  | c :: r => if f c then drop_while f r else s
  | [] => []
  end.

Fixpoint take_while (f : char -> bool) (s : pystr) : pystr :=
  match s with
  | c :: r => if f c then c :: take_while f r else []
  | [] => []
  end.

Definition in_range (lo hi c : N) : bool := N.leb lo c && N.leb c hi.

(** [str.isspace] of one character, which is also the class [\s] of [re]. *)
Definition is_space (c : char) : bool :=
  in_range 9 13 c || in_range 28 32 c || N.eqb c 133 || N.eqb c 160
  || N.eqb c 5760 || in_range 8192 8202 c || N.eqb c 8232 || N.eqb c 8233
  || N.eqb c 8239 || N.eqb c 8287 || N.eqb c 12288.

(** [s.rstrip()]: the text without the blanks at its end. *)
Definition rstrip (s : pystr) : pystr :=
  fold_right
    (fun c kept =>
       match kept with
       | [] => if is_space c then [] else [c]
       | _ :: _ => c :: kept
       end)
    [] s.

(** The text without the zeros at its end. *)
Definition rstrip_zeros (s : pystr) : pystr :=
  fold_right
    (fun c kept =>
       match kept with
       | [] => if N.eqb c 48 then [] else [c]
       | _ :: _ => c :: kept
       end)
    [] s.

(** [s.strip()] *)
Definition strip (s : pystr) : pystr := rstrip (drop_while is_space s).

(** The first code point of each run of ten decimal digits (category Nd). *)
Definition decimal_zeros : list N :=
  [48; 1632; 1776; 1984; 2406; 2534; 2662; 2790; 2918; 3046; 3174; 3302;
   3430; 3558; 3664; 3792; 3872; 4160; 4240; 6112; 6160; 6470; 6608; 6784;
   6800; 6992; 7088; 7232; 7248; 42528; 43216; 43264; 43472; 43504; 43600;
   44016; 65296; 66720; 68912; 69734; 69872; 69942; 70096; 70384; 70736;
   70864; 71248; 71360; 71472; 71904; 72016; 72784; 73040; 73120; 92768;
   92864; 93008; 120782; 120792; 120802; 120812; 120822; 123200; 123632;
   125264; 130032]%N.

(** The value of a decimal digit, [None] for any other character. *)
Definition decimal_value (c : char) : option Z :=
  match find (fun z => in_range z (z + 9) c) decimal_zeros with
  | Some z => Some (Z.of_N (c - z))
  | None => None
  end.

(** The class [\d] of [re]. *)
Definition is_decimal (c : char) : bool :=
  match decimal_value c with Some _ => true | None => false end.

Definition is_ascii_digit (c : char) : bool := in_range 48 57 c.

(** The number a run of decimal digits writes, most significant first. *)
Fixpoint digits_value (acc : Z) (ds : pystr) : Z :=
  match ds with
  | [] => acc
  | c :: r =>
      digits_value (10 * acc + match decimal_value c with Some d => d | None => 0 end)%Z r
  end.

(** The characters of a decimal numeral. *)
Fixpoint chars_of_uint (d : Decimal.uint) : pystr :=
  match d with
  | Decimal.Nil => []
  | Decimal.D0 u => 48%N :: chars_of_uint u
  | Decimal.D1 u => 49%N :: chars_of_uint u
  | Decimal.D2 u => 50%N :: chars_of_uint u
  | Decimal.D3 u => 51%N :: chars_of_uint u
  | Decimal.D4 u => 52%N :: chars_of_uint u
  | Decimal.D5 u => 53%N :: chars_of_uint u
  | Decimal.D6 u => 54%N :: chars_of_uint u
  | Decimal.D7 u => 55%N :: chars_of_uint u
  | Decimal.D8 u => 56%N :: chars_of_uint u
  | Decimal.D9 u => 57%N :: chars_of_uint u
  end.

(** [str(n)] for a natural number. *)
Definition digits_of_N (n : N) : pystr := chars_of_uint (N.to_uint n).

(** The decimal text of an integer. *)
Definition digits_of_Z (z : Z) : pystr :=
  match z with
  | Zneg p => 45%N :: digits_of_N (Npos p)
  | _ => digits_of_N (Z.to_N z)
  end.

(* ================================================================== *)
(** * Values, exceptions, outcomes *)

(** The values [json.loads] builds, which are also the values the scorer
    handles: [None], [bool], [int], [float], [str], [list], and [dict] with
    text keys. *)
Unset Elimination Schemes.
Inductive pyval : Type :=
  | PNone
  | PBool (b : bool)
  | PInt (z : Z)
  | PFloat (f : spec_float)
  | PStr (s : pystr)
  | PList (l : list pyval)
  | PDict (d : list (pystr * pyval)).
Set Elimination Schemes.

Definition dict := list (pystr * pyval).

(** [d.get(k)], [None] of the option for an absent key. *)
Fixpoint dict_get (k : pystr) (d : dict) : option pyval :=
  match d with
  | [] => None
  | (k', v) :: r => if pystr_eqb k' k then Some v else dict_get k r
  end.

(** [k in d] *)
Definition dict_has (k : pystr) (d : dict) : bool :=
  match dict_get k d with Some _ => true | None => false end.

(** [d[k] = v]: a present key keeps its place, a new key goes last. *)
Fixpoint dict_set (d : dict) (k : pystr) (v : pyval) : dict :=
  match d with
  | [] => [(k, v)]
  | (k', v') :: r =>
      if pystr_eqb k' k then (k', v) :: r else (k', v') :: dict_set r k v
  end.

Definition keys (d : dict) : list pystr := map fst d.

(** The builtin operation that failed. *)
Inductive builtin_op : Type :=
  | op_slice      (* x[:n] *)
  | op_strip      (* x.strip() *)
  | op_contains   (* 'score' in x *)
  | op_getitem    (* x['score'] *)
  | op_int        (* int(x) *)
  | op_str        (* str(x), the conversion of an f-string *)
  | op_search.    (* re.search(pattern, x) *)

(** The exceptions of the model. [BuiltinError op x] is the [TypeError],
    [AttributeError], [KeyError], [ValueError] or [OverflowError] that the
    builtin [op] raises on the operand [x]; [Collaborator] is whatever the
    model invocation raised. None of them but [JSONDecodeError] is an
    instance of [json.JSONDecodeError]. *)
Inductive exn : Type :=
  | JSONDecodeError (doc : pystr)
  | ValueError (msg : pystr)
  | BuiltinError (op : builtin_op) (operand : pyval)
  | Collaborator (msg : pystr).

Inductive outcome (A : Type) : Type :=
  | Returns (a : A)
  | Raises (e : exn).
Arguments Returns {A} a.
Arguments Raises {A} e.

Definition bind {A B : Type} (m : outcome A) (k : A -> outcome B) : outcome B :=
  match m with
  | Returns a => k a
  | Raises e => Raises e
  end.

Notation "x <- m ;; k" := (bind m (fun x => k))
  (at level 61, m at next level, right associativity).

(** What the interpreter decides and the program only passes on. *)
Class Interpreter : Type := {
  (** [str(e)] for the exceptions the interpreter or [json] raise *)
  error_text : exn -> pystr;
  (** [repr(f)] of a float that is neither NaN nor infinite *)
  float_repr : spec_float -> pystr;
  (** [repr(s)] of a text *)
  str_repr : pystr -> pystr
}.

(** [str(e)] *)
Definition str_exn {interp : Interpreter} (e : exn) : pystr :=
  match e with
  | ValueError msg => msg
  | Collaborator msg => msg
  | _ => error_text e
  end.

(* ================================================================== *)
(** * Numbers *)

(** The double nearest to [(-1)^neg * m * 10^e] (ties to even), which is
    what [float] makes of a decimal literal. *)
Definition float_of_decimal (neg : bool) (m : N) (e : Z) : spec_float :=
  match m with
  | N0 => S754_zero neg
  | Npos p =>
      if (0 <=? e)%Z
      then binary_round 53 1024 neg (p * Z.to_pos (10 ^ e)) 0
      else SFdiv 53 1024 (S754_finite neg p 0)
                         (S754_finite false (Z.to_pos (10 ^ (- e))) 0)
  end.

(** [int(f)]: truncation toward zero, [None] for NaN and the infinities. *)
Definition float_trunc (f : spec_float) : option Z :=
  match f with
  | S754_zero _ => Some 0%Z
  | S754_finite s m e => Some (cond_Zopp s (Z.shiftl (Zpos m) e))
  | _ => None
  end.

(** [bool(f)] *)
Definition float_truthy (f : spec_float) : bool :=
  match f with S754_zero _ => false | _ => true end.

(** sys.int_info.default_max_str_digits *)
Definition int_max_str_digits : nat := 4300.

(** The blanks [int] skips around a literal. *)
Definition is_int_space (c : char) : bool :=
  in_range 9 13 c || N.eqb c 32 || (N.ltb 127 c && is_space c).

(** Digits with single underscores between them; the digits and the rest. *)
Fixpoint int_digits (s : pystr) : pystr * pystr :=
  match s with
  | c :: r =>
      if is_decimal c then let (ds, rest) := int_digits r in (c :: ds, rest)
      else if N.eqb c 95 then
        match r with
        | c' :: _ =>
            if is_decimal c' then int_digits r else ([], s)
        | [] => ([], s)
        end
      else ([], s)
  | [] => ([], [])
  end.

(** [int(s)] for a text, [None] when it raises [ValueError]. *)
Definition int_of_str (s : pystr) : option Z :=
  let t := drop_while is_int_space s in
  let '(neg, t) :=
    match t with
    | 45%N :: r => (true, r)
    | 43%N :: r => (false, r)
    | _ => (false, t)
    end in
  match t with
  | [] => None
  | c :: _ =>
      if is_decimal c then
        let (ds, rest) := int_digits t in
        match drop_while is_int_space rest with
        | [] =>
            if Nat.leb (List.length ds) int_max_str_digits
            then Some (cond_Zopp neg (digits_value 0 ds))
            else None
        | _ :: _ => None
        end
      else None
  end.

(** [int(x)] *)
Definition py_int (x : pyval) : outcome Z :=
  match x with
  | PInt z => Returns z
  | PBool b => Returns (if b then 1 else 0)%Z
  | PFloat f =>
      match float_trunc f with
      | Some z => Returns z
      | None => Raises (BuiltinError op_int x)
      end
  | PStr s =>
      match int_of_str s with
      | Some z => Returns z
      | None => Raises (BuiltinError op_int x)
      end
  | _ => Raises (BuiltinError op_int x)
  end.

(* ================================================================== *)
(** * [json.loads]

    The scanner of CPython's [json] module (strict mode, no hooks): what it
    accepts, the value it builds, and which exception it ends in. *)

Inductive scanned (A : Type) : Type :=
  | Scanned (v : A) (rest : pystr)
  | Malformed                  (* json.JSONDecodeError *)
  | Overlong (numstr : pystr)  (* ValueError: an integer literal of more than 4300 digits *)
  | Exhausted.                 (* out of fuel; never with the fuel of [json_loads] *)
Arguments Scanned {A} v rest.
Arguments Malformed {A}.
Arguments Overlong {A} numstr.
Arguments Exhausted {A}.

Definition scanned_map {A B : Type} (f : A -> B) (r : scanned A) : scanned B :=
  match r with
  | Scanned v rest => Scanned (f v) rest
  | Malformed => Malformed
  | Overlong n => Overlong n
  | Exhausted => Exhausted
  end.

Definition is_json_space (c : char) : bool :=
  N.eqb c 32 || N.eqb c 9 || N.eqb c 10 || N.eqb c 13.

Definition skip_ws (s : pystr) : pystr := drop_while is_json_space s.

Definition hex_value (c : char) : option N :=
  if in_range 48 57 c then Some (c - 48)%N
  else if in_range 97 102 c then Some (c - 87)%N
  else if in_range 65 70 c then Some (c - 55)%N
  else None.

Definition hex4 (a b c d : char) : option N :=
  match hex_value a, hex_value b, hex_value c, hex_value d with
  | Some x, Some y, Some z, Some w => Some (((x * 16 + y) * 16 + z) * 16 + w)%N
  | _, _, _, _ => None
  end.

Definition is_high_surrogate (c : char) : bool := in_range 55296 56319 c.
Definition is_low_surrogate (c : char) : bool := in_range 56320 57343 c.
Definition join_surrogates (hi lo : char) : char :=
  (65536 + ((hi - 55296) * 1024 + (lo - 56320)))%N.

(** The character a two-character escape stands for. *)
Definition simple_escape (c : char) : option char :=
  if N.eqb c 34 then Some 34%N          (* quote *)
  else if N.eqb c 92 then Some 92%N     (* backslash *)
  else if N.eqb c 47 then Some 47%N     (* slash *)
  else if N.eqb c 98 then Some 8%N      (* b: backspace *)
  else if N.eqb c 102 then Some 12%N    (* f: form feed *)
  else if N.eqb c 110 then Some 10%N    (* n: line feed *)
  else if N.eqb c 114 then Some 13%N    (* r: carriage return *)
  else if N.eqb c 116 then Some 9%N     (* t: tab *)
  else None.

Definition scanned_cons (c : char) (r : scanned pystr) : scanned pystr :=
  scanned_map (cons c) r.

(** The text of a string literal, from the character after its opening
    quote; the rest starts after the closing quote. *)
Fixpoint scanstring (s : pystr) : scanned pystr :=
  match s with
  | [] => Malformed
  | c :: r =>
      if N.eqb c 34 then Scanned [] r
      else if N.eqb c 92 then
        match r with
        | [] => Malformed
        | e :: r1 =>
            if N.eqb e 117 then
              match r1 with
              | h1 :: h2 :: h3 :: h4 :: r2 =>
                  match hex4 h1 h2 h3 h4 with
                  | None => Malformed
                  | Some u =>
                      if is_high_surrogate u then
                        match r2 with
                        | b :: u' :: g1 :: g2 :: g3 :: g4 :: r3 =>
                            if N.eqb b 92 && N.eqb u' 117 then
                              match hex4 g1 g2 g3 g4 with
                              | None => Malformed
                              | Some u2 =>
                                  if is_low_surrogate u2
                                  then scanned_cons (join_surrogates u u2) (scanstring r3)
                                  else scanned_cons u (scanstring r2)
                              end
                            else scanned_cons u (scanstring r2)
                        | _ => scanned_cons u (scanstring r2)
                        end
                      else scanned_cons u (scanstring r2)
                  end
              | _ => Malformed
              end
            else
              match simple_escape e with
              | Some x => scanned_cons x (scanstring r1)
              | None => Malformed
              end
        end
      else if N.leb c 31 then Malformed
      else scanned_cons c (scanstring r)
  end.

(** The value of a float literal: sign, integer digits, fraction digits,
    and the exponent. *)
Definition float_of_literal (neg : bool) (ipart frac : pystr) (e : Z) : spec_float :=
  float_of_decimal neg (Z.to_N (digits_value 0 (ipart ++ frac)))
                   (e - Z.of_nat (List.length frac)).

(** The fraction of a number literal: its digits and the rest. *)
Definition scan_fraction (s : pystr) : pystr * pystr :=
  match s with
  | dot :: d :: r =>
      if N.eqb dot 46 && is_ascii_digit d
      then (d :: take_while is_ascii_digit r, drop_while is_ascii_digit r)
      else ([], s)
  | _ => ([], s)
  end.

(** The exponent of a number literal, [None] when there is none. *)
Definition scan_exponent (s : pystr) : option Z * pystr :=
  match s with
  | e :: r =>
      if N.eqb e 101 || N.eqb e 69 then
        let '(neg, r') :=
          match r with
          | sg :: r1 =>
              if N.eqb sg 45 then (true, r1)
              else if N.eqb sg 43 then (false, r1)
              else (false, r)
          | [] => (false, r)
          end in
        match take_while is_ascii_digit r' with
        | [] => (None, s)
        | ds => (Some (cond_Zopp neg (digits_value 0 ds)), drop_while is_ascii_digit r')
        end
      else (None, s)
  | [] => (None, s)
  end.

(** A number literal at the head of [s]. *)
Definition match_number (s : pystr) : scanned pyval :=
  let '(neg, s1) :=
    match s with
    | c :: r => if N.eqb c 45 then (true, r) else (false, s)
    | [] => (false, s)
    end in
  match s1 with
  | [] => Malformed
  | c :: r =>
      if in_range 48 57 c then
        let '(ipart, rest) :=
          if N.eqb c 48 then ([c], r)
          else (c :: take_while is_ascii_digit r, drop_while is_ascii_digit r) in
        let '(frac, rest1) := scan_fraction rest in
        let '(ex, rest2) := scan_exponent rest1 in
        match frac, ex with
        | [], None =>
            if Nat.leb (List.length ipart) int_max_str_digits
            then Scanned (PInt (cond_Zopp neg (digits_value 0 ipart))) rest2
            else Overlong (if neg then 45%N :: ipart else ipart)
        | _, _ =>
            Scanned (PFloat (float_of_literal neg ipart frac
                               (match ex with Some e => e | None => 0%Z end))) rest2
        end
      else Malformed
  end.

(** One JSON value at the head of [s]. *)
Fixpoint scan_once (fuel : nat) (s : pystr) {struct fuel} : scanned pyval :=
  match fuel with
  | O => Exhausted
  | S n =>
      match s with
      | [] => Malformed
      | c :: r =>
          if N.eqb c 34 then scanned_map PStr (scanstring r)
          else if N.eqb c 123 then
            match skip_ws r with
            | [] => Malformed
            | c' :: r' =>
                if N.eqb c' 125 then Scanned (PDict []) r'
                else scanned_map PDict (scan_members n (c' :: r') [])
            end
          else if N.eqb c 91 then
            match skip_ws r with
            | [] => Malformed
            | c' :: r' =>
                if N.eqb c' 93 then Scanned (PList []) r'
                else scanned_map PList (scan_elements n (c' :: r'))
            end
          else if startswith (py "null") s then Scanned PNone (skipn 4 s)
          else if startswith (py "true") s then Scanned (PBool true) (skipn 4 s)
          else if startswith (py "false") s then Scanned (PBool false) (skipn 5 s)
          else if startswith (py "NaN") s then Scanned (PFloat S754_nan) (skipn 3 s)
          else if startswith (py "Infinity") s
               then Scanned (PFloat (S754_infinity false)) (skipn 8 s)
          else if startswith (py "-Infinity") s
               then Scanned (PFloat (S754_infinity true)) (skipn 9 s)
          else match_number s
      end
  end

with scan_members (fuel : nat) (s : pystr) (acc : dict) {struct fuel} : scanned dict :=
  match fuel with
  | O => Exhausted
  | S n =>
      match s with
      | [] => Malformed
      | q :: r =>
          if N.eqb q 34 then
            match scanstring r with
            | Scanned key r1 =>
                match skip_ws r1 with
                | [] => Malformed
                | colon :: r2 =>
                    if N.eqb colon 58 then
                      match scan_once n (skip_ws r2) with
                      | Scanned v r3 =>
                          match skip_ws r3 with
                          | [] => Malformed
                          | d :: r4 =>
                              if N.eqb d 125 then Scanned (dict_set acc key v) r4
                              else if N.eqb d 44
                              then scan_members n (skip_ws r4) (dict_set acc key v)
                              else Malformed
                          end
                      | Malformed => Malformed
                      | Overlong x => Overlong x
                      | Exhausted => Exhausted
                      end
                    else Malformed
                end
            | Malformed => Malformed
            | Overlong x => Overlong x
            | Exhausted => Exhausted
            end
          else Malformed
      end
  end

with scan_elements (fuel : nat) (s : pystr) {struct fuel} : scanned (list pyval) :=
  match fuel with
  | O => Exhausted
  | S n =>
      match scan_once n s with
      | Scanned v r1 =>
          match skip_ws r1 with
          | [] => Malformed
          | d :: r2 =>
              if N.eqb d 93 then Scanned [v] r2
              else if N.eqb d 44
              then scanned_map (cons v) (scan_elements n (skip_ws r2))
              else Malformed
          end
      | Malformed => Malformed
      | Overlong x => Overlong x
      | Exhausted => Exhausted
      end
  end.

(** [json.loads(s)]: the value, or the exception it raises. *)
Definition json_loads (s : pystr) : outcome pyval :=
  if startswith [65279%N] s then Raises (JSONDecodeError s)
  else
    match scan_once (2 * List.length s + 1) (skip_ws s) with
    | Scanned v rest =>
        match skip_ws rest with
        | [] => Returns v
        | _ :: _ => Raises (JSONDecodeError s)
        end
    | Overlong n => Raises (BuiltinError op_int (PStr n))
    | Malformed | Exhausted => Raises (JSONDecodeError s)
    end.

(* ================================================================== *)
(** * The two patterns of the source *)

(** The longest prefix of [s] that ends in a closing brace. *)
Fixpoint upto_last_brace (s : pystr) : option pystr :=
  match s with
  | [] => None
  | c :: r =>
      match upto_last_brace r with
      | Some m => Some (c :: m)
      | None => if N.eqb c 125 then Some [c] else None
      end
  end.

(** [re.search(r'\{[\s\S]*\}', s)]: group 0 of the match, if any. The
    match starts at the first opening brace; the star is greedy, so it
    ends at the last closing brace after it. *)
Definition search_braces (s : pystr) : option pystr :=
  match drop_while (fun c => negb (N.eqb c 123)) s with
  | [] => None
  | c :: r => option_map (cons c) (upto_last_brace r)
  end.

Definition score_quoted : pystr := js "'score'".

(** The pattern ["score"\s*:\s*(\d+)] matched at the head of [s]: group 1. *)
Definition match_score_at (s : pystr) : option pystr :=
  if startswith score_quoted s then
    match drop_while is_space (skipn 7 s) with
    | c :: r =>
        if N.eqb c 58 then
          match take_while is_decimal (drop_while is_space r) with
          | [] => None
          | ds => Some ds
          end
        else None
    | [] => None
    end
  else None.

(** [re.search(r'"score"\s*:\s*(\d+)', s)]: group 1 of the leftmost match. *)
Fixpoint search_score (s : pystr) : option pystr :=
  match match_score_at s with
  | Some ds => Some ds
  | None => match s with [] => None | _ :: r => search_score r end
  end.

(* ================================================================== *)
(** * The scorer *)

Definition k_score := py "score".
Definition k_executive_summary := py "executive_summary".
Definition k_market_analysis := py "market_analysis".
Definition k_origin_analysis := py "origin_analysis".
Definition k_buyer_profile := py "buyer_profile".
Definition k_price_analysis := py "price_analysis".
Definition k_payment_logistics := py "payment_logistics".
Definition k_red_flags := py "red_flags".
Definition k_unusual_patterns := py "unusual_patterns".
Definition k_strengths := py "strengths".
Definition k_next_steps := py "next_steps".
Definition k_reasoning := py "reasoning".
Definition k_recommendation := py "recommendation".
Definition k_risk_level := py "risk_level".
Definition k_success := py "success".
Definition k_error := py "error".

(** The fourteen fields of an analysis result. *)
Definition fourteen : list pystr :=
  [k_score; k_executive_summary; k_market_analysis; k_origin_analysis;
   k_buyer_profile; k_price_analysis; k_payment_logistics; k_red_flags;
   k_unusual_patterns; k_strengths; k_next_steps; k_recommendation;
   k_risk_level; k_reasoning].

(** [defaults] of [_parse_score_response], in the order of the source. *)
Definition defaults : dict :=
  [ (k_executive_summary, PStr (py "Analysis in progress..."));
    (k_market_analysis, PStr (py "Market data being analyzed..."));
    (k_origin_analysis, PStr (py "Origin analysis pending..."));
    (k_buyer_profile, PStr (py "Buyer analysis pending..."));
    (k_price_analysis, PStr (py "Price analysis pending..."));
    (k_payment_logistics, PStr (py "Payment analysis pending..."));
    (k_red_flags, PList []);
    (k_unusual_patterns, PList []);
    (k_strengths, PList []);
    (k_next_steps, PList []);
    (k_reasoning, PList []);
    (k_recommendation, PStr (py "Review detailed analysis"));
    (k_risk_level, PStr (py "medium")) ].

(** [for key, default_value in table.items():
       if key not in result: result[key] = default_value] *)
Definition fill_from (table result : dict) : dict :=
  fold_left
    (fun r kv => if dict_has (fst kv) r then r else dict_set r (fst kv) (snd kv))
    table result.

(** Lines 305-307: the loop over [defaults]. *)
Definition fill_defaults (result : dict) : dict := fill_from defaults result.

(** Lines 266-272: the opening fence, then the closing one. *)
Definition unfence (cleaned : pystr) : pystr :=
  let cleaned :=
    if startswith (py "```json") cleaned then skipn 7 cleaned
    else if startswith (py "```") cleaned then skipn 3 cleaned
    else cleaned in
  if endswith (py "```") cleaned then drop_last 3 cleaned else cleaned.

(** Lines 278-280: the matched span when the pattern matches. *)
Definition extract_object (cleaned : pystr) : pystr :=
  match search_braces cleaned with
  | Some m => m
  | None => cleaned
  end.

(** The text handed to [json.loads] for the raw text [raw]. *)
Definition clean_response (raw : pystr) : pystr :=
  extract_object (strip (unfence (strip raw))).

(** [x[:n]] *)
Definition py_slice (n : nat) (x : pyval) : outcome pyval :=
  match x with
  | PStr s => Returns (PStr (firstn n s))
  | PList l => Returns (PList (firstn n l))
  | _ => Raises (BuiltinError op_slice x)
  end.

(** [x.strip()] *)
Definition py_strip (x : pyval) : outcome pystr :=
  match x with
  | PStr s => Returns (strip s)
  | _ => Raises (BuiltinError op_strip x)
  end.

Definition is_text (k : pystr) (x : pyval) : bool :=
  match x with PStr s => pystr_eqb s k | _ => false end.

(** ['score' in x] *)
Definition contains_score (x : pyval) : outcome bool :=
  match x with
  | PDict d => Returns (dict_has k_score d)
  | PList l => Returns (existsb (is_text k_score) l)
  | PStr s => Returns (contains k_score s)
  | _ => Raises (BuiltinError op_contains x)
  end.

(** [x['score']] *)
Definition getitem_score (x : pyval) : outcome pyval :=
  match x with
  | PDict d =>
      match dict_get k_score d with
      | Some v => Returns v
      | None => Raises (BuiltinError op_getitem x)
      end
  | _ => Raises (BuiltinError op_getitem x)
  end.

Definition clamp (z : Z) : Z := Z.max 0 (Z.min 100 z).

Definition missing_score : pystr := py "Response missing 'score' field".

(** Lines 282-313 of the source: parse, check, clamp, fill. *)
Definition parse_cleaned (cleaned : pystr) : outcome dict :=
  result <- json_loads cleaned ;;
  present <- contains_score result ;;
  if negb present then Raises (ValueError missing_score)
  else
    item <- getitem_score result ;;
    z <- py_int item ;;
    match result with
    | PDict d => Returns (fill_defaults (dict_set d k_score (PInt (clamp z))))
    | _ => Raises (BuiltinError op_getitem result)
    end.

(** The body of the outer [try]. *)
Definition try_parse (response_text : pyval) : outcome dict :=
  _ <- py_slice 500 response_text ;;
  cleaned <- py_strip response_text ;;
  parse_cleaned (extract_object (strip (unfence cleaned))).

Section Scorer.
Context {interp : Interpreter}.

Definition see_summary : pyval := PStr (py "See Executive Summary for raw AI response").

(** The handler of [json.JSONDecodeError], lines 315-343. *)
Definition degraded_result (response_text : pyval) (e : exn) : outcome dict :=
  match response_text with
  | PStr raw =>
      score <- match search_score raw with
               | Some ds => py_int (PStr ds)
               | None => Returns 50%Z
               end ;;
      Returns
        [ (k_score, PInt score);
          (k_executive_summary,
           PStr (py "Warning: JSON Parsing Error. Raw response:"
                 ++ newline ++ newline ++ firstn 1000 raw));
          (k_market_analysis, see_summary);
          (k_origin_analysis, see_summary);
          (k_buyer_profile, see_summary);
          (k_price_analysis, see_summary);
          (k_payment_logistics, see_summary);
          (k_red_flags, PList [PStr (py "JSON parsing failed: " ++ str_exn e)]);
          (k_unusual_patterns, PList []);
          (k_strengths, PList []);
          (k_next_steps, PList [PStr (py "Check server console for full response");
                                PStr (py "Try re-running analysis")]);
          (k_reasoning, PList [PStr (py "Warning: AI returned invalid JSON format")]);
          (k_recommendation, PStr (py "Check console output or try again"));
          (k_risk_level, PStr (py "medium")) ]
  | _ => Raises (BuiltinError op_search response_text)
  end.

Definition error_occurred : pyval := PStr (py "Error occurred").

(** The handler of every other [Exception], lines 344-364. *)
Definition error_result (e : exn) : dict :=
  [ (k_score, PInt 50);
    (k_executive_summary, PStr (py "Warning: Error: " ++ str_exn e));
    (k_market_analysis, error_occurred);
    (k_origin_analysis, error_occurred);
    (k_buyer_profile, error_occurred);
    (k_price_analysis, error_occurred);
    (k_payment_logistics, error_occurred);
    (k_red_flags, PList [PStr (str_exn e)]);
    (k_unusual_patterns, PList []);
    (k_strengths, PList []);
    (k_next_steps, PList [PStr (py "Check error message"); PStr (py "Try again")]);
    (k_reasoning, PList [PStr (py "Warning: Unexpected error occurred")]);
    (k_recommendation, PStr (py "Try running analysis again"));
    (k_risk_level, PStr (py "medium")) ].

(** [AIScorer._parse_score_response] *)
Definition _parse_score_response (response_text : pyval) : outcome dict :=
  match try_parse response_text with
  | Returns result => Returns result
  | Raises (JSONDecodeError doc) => degraded_result response_text (JSONDecodeError doc)
  | Raises e => Returns (error_result e)
  end.

End Scorer.

(* ================================================================== *)
(** * The Prompt Builder and [score_deal] *)

Section Builder.
Context {interp : Interpreter}.

(** [str(z)] of an integer, which raises past 4300 digits. *)
Definition int_text (z : Z) : outcome pystr :=
  if Nat.leb (List.length (digits_of_N (Z.abs_N z))) int_max_str_digits
  then Returns (digits_of_Z z)
  else Raises (BuiltinError op_str (PInt z)).

(** [str(f)] of a float. *)
Definition float_text (f : spec_float) : pystr :=
  match f with
  | S754_nan => py "nan"
  | S754_infinity false => py "inf"
  | S754_infinity true => py "-inf"
  | _ => float_repr f
  end.

(** [repr(x)] *)
Fixpoint py_repr (x : pyval) : outcome pystr :=
  match x with
  | PNone => Returns (py "None")
  | PBool true => Returns (py "True")
  | PBool false => Returns (py "False")
  | PInt z => int_text z
  | PFloat f => Returns (float_text f)
  | PStr s => Returns (str_repr s)
  | PList l =>
      body <- (fix items (l : list pyval) : outcome pystr :=
                 match l with
                 | [] => Returns []
                 | [v] => py_repr v
                 | v :: r =>
                     a <- py_repr v ;; b <- items r ;; Returns (a ++ py ", " ++ b)
                 end) l ;;
      Returns (py "[" ++ body ++ py "]")
  | PDict d =>
      body <- (fix items (d : list (pystr * pyval)) : outcome pystr :=
                 match d with
                 | [] => Returns []
                 | [(k, v)] => a <- py_repr v ;; Returns (str_repr k ++ py ": " ++ a)
                 | (k, v) :: r =>
                     a <- py_repr v ;; b <- items r ;;
                     Returns (str_repr k ++ py ": " ++ a ++ py ", " ++ b)
                 end) d ;;
      Returns (py "{" ++ body ++ py "}")
  end.

(** [str(x)], the conversion of a replacement field of an f-string. *)
Definition py_str (x : pyval) : outcome pystr :=
  match x with
  | PStr s => Returns s
  | _ => py_repr x
  end.

(** [bool(x)] *)
Definition truthy (x : pyval) : bool :=
  match x with
  | PNone => false
  | PBool b => b
  | PInt z => negb (Z.eqb z 0)
  | PFloat f => float_truthy f
  | PStr s => match s with [] => false | _ => true end
  | PList l => match l with [] => false | _ => true end
  | PDict d => match d with [] => false | _ => true end
  end.

(** [d.get(k)] *)
Definition get (d : dict) (k : pystr) : pyval :=
  match dict_get k d with Some v => v | None => PNone end.

(** [d.get(k, default)] with a text default. *)
Definition get_or (d : dict) (k : pystr) (default : pystr) : pyval :=
  match dict_get k d with Some v => v | None => PStr default end.

(** The local [price_info] of [_build_scoring_prompt], lines 214-220. *)
Definition price_info (deal_data : dict) : outcome pystr :=
  if is_text (py "lme_discount") (get deal_data (py "price_type")) then
    g <- py_str (get deal_data (py "gross_discount")) ;;
    c <- py_str (get deal_data (py "commission")) ;;
    n <- py_str (get deal_data (py "net_discount")) ;;
    Returns (py "LME Discount Pricing - Gross: " ++ g ++ py "%, Commission: " ++ c
             ++ py "%, Net: " ++ n ++ py "%")
  else if truthy (get deal_data (py "price")) then
    p <- py_str (get deal_data (py "price")) ;;
    c <- py_str (get_or deal_data (py "price_currency") (py "USD")) ;;
    Returns (p ++ py " " ++ c)
  else Returns (py "Not specified").

Definition prompt_head : pystr :=
  py "Analyze this commodity trading deal and provide COMPREHENSIVE, DETAILED analysis."
  ++ newline ++ newline ++ py "**DEAL DETAILS:**" ++ newline.

Definition prompt_tail : pystr :=
  newline ++ newline ++ py "Provide a professional analysis with:" ++ newline
  ++ py "- Focused 2-3 paragraph assessments for each section" ++ newline
  ++ py "- Specific numbers, facts, and market context" ++ newline
  ++ py "- Clear lists of risks, strengths, and action items (5-8 items each)" ++ newline
  ++ py "- Score from 0-100 based on the scoring criteria" ++ newline ++ newline
  ++ py "Return your analysis as a valid JSON object following the exact format specified in the system prompt. Keep responses concise to avoid truncation.".

(** [AIScorer._build_scoring_prompt] *)
Definition _build_scoring_prompt (deal_data : dict) : outcome pystr :=
  price <- price_info deal_data ;;
  commodity <- py_str (get_or deal_data (py "commodity_type") (py "Not specified")) ;;
  source <- py_str (get_or deal_data (py "source_name") (py "Unknown")) ;;
  reliability <- py_str (get_or deal_data (py "source_reliability") (py "N/A")) ;;
  quantity <- py_str (get_or deal_data (py "quantity") (py "Not specified")) ;;
  unit <- py_str (get_or deal_data (py "quantity_unit") []) ;;
  origin <- py_str (get_or deal_data (py "origin_country") (py "Not specified")) ;;
  payment <- py_str (get_or deal_data (py "payment_method") (py "Not specified")) ;;
  shipping <- py_str (get_or deal_data (py "shipping_terms") (py "Not specified")) ;;
  text <- py_str (get_or deal_data (py "deal_text") (py "No additional details provided")) ;;
  notes <- py_str (get_or deal_data (py "additional_notes") (py "None")) ;;
  Returns
    (prompt_head
     ++ py "Commodity: " ++ commodity ++ newline
     ++ py "Source: " ++ source ++ py " (Reliability: " ++ reliability ++ py "/10)" ++ newline
     ++ py "Price: " ++ price ++ newline
     ++ py "Quantity: " ++ quantity ++ py " " ++ unit ++ newline
     ++ py "Origin: " ++ origin ++ newline
     ++ py "Payment Method: " ++ payment ++ newline
     ++ py "Shipping Terms: " ++ shipping ++ newline ++ newline
     ++ py "**RAW DEAL TEXT:**" ++ newline ++ text ++ newline ++ newline
     ++ py "**ADDITIONAL NOTES:**" ++ newline ++ notes
     ++ prompt_tail).

(** [x[k]] on a dict. *)
Definition getitem (d : dict) (k : pystr) : outcome pyval :=
  match dict_get k d with
  | Some v => Returns v
  | None => Raises (BuiltinError op_getitem (PDict d))
  end.

(** The body of the [try] of [score_deal], lines 37-56. [invoke] is the
    collaborator: the call of the messages API with the fixed model, limits
    and system prompt, and the text of the first block of its answer. *)
Definition scored (invoke : pystr -> outcome pyval) (prompt : pystr) : outcome dict :=
  response_text <- invoke prompt ;;
  result <- _parse_score_response response_text ;;
  score <- getitem result k_score ;;
  reasoning <- getitem result k_reasoning ;;
  Returns
    [ (k_success, PBool true);
      (k_score, score);
      (k_reasoning, reasoning);
      (k_recommendation, get_or result k_recommendation []);
      (k_risk_level, get_or result k_risk_level (py "medium")) ].

(** [AIScorer.score_deal] *)
Definition score_deal (invoke : pystr -> outcome pyval) (deal_data : dict) : outcome dict :=
  prompt <- _build_scoring_prompt deal_data ;;
  match scored invoke prompt with
  | Returns d => Returns d
  | Raises e =>
      Returns
        [ (k_success, PBool false);
          (k_error, PStr (str_exn e));
          (k_score, PNone);
          (k_reasoning, PList []) ]
  end.

End Builder.


(* ================================================================== *)
(** * [json.dumps]

    The re-encoding of spec section 8: the text [json.dumps] makes of a
    value with its defaults (ASCII only, [", "] and [": "] between items). *)

Definition hex_digit (n : N) : char :=
  if N.ltb n 10 then (48 + n)%N else (87 + n)%N.

(** The four lower-case hex digits of a code unit. *)
Definition hex4_text (c : N) : pystr :=
  [ hex_digit (c / 4096); hex_digit ((c / 256) mod 16);
    hex_digit ((c / 16) mod 16); hex_digit (c mod 16) ].

Definition unicode_escape (c : N) : pystr := 92%N :: 117%N :: hex4_text c.

(** The escape of one character inside a string literal. *)
Definition escape_char (c : char) : pystr :=
  if N.eqb c 34 then [92; 34]%N
  else if N.eqb c 92 then [92; 92]%N
  else if N.eqb c 10 then [92; 110]%N
  else if N.eqb c 13 then [92; 114]%N
  else if N.eqb c 9 then [92; 116]%N
  else if N.eqb c 8 then [92; 98]%N
  else if N.eqb c 12 then [92; 102]%N
  else if in_range 32 126 c then [c]
  else if N.ltb c 65536 then unicode_escape c
  else unicode_escape (55296 + (c - 65536) / 1024)
       ++ unicode_escape (56320 + (c - 65536) mod 1024).

(** The literal of a text. *)
Definition json_string (s : pystr) : pystr :=
  34%N :: flat_map escape_char s ++ [34%N].

Section Encoder.
Context {interp : Interpreter}.

(** The literal of a float. *)
Definition json_float (f : spec_float) : pystr :=
  match f with
  | S754_nan => py "NaN"
  | S754_infinity false => py "Infinity"
  | S754_infinity true => py "-Infinity"
  | _ => float_repr f
  end.

(** [json.dumps(x)], for a value whose integers have at most 4300 digits
    (on a longer one [str] raises); the values read by [json.loads] are
    such, see [sound]. *)
Fixpoint json_dumps (x : pyval) : pystr :=
  match x with
  | PNone => py "null"
  | PBool true => py "true"
  | PBool false => py "false"
  | PInt z => digits_of_Z z
  | PFloat f => json_float f
  | PStr s => json_string s
  | PList l =>
      91%N ::
      (fix items (l : list pyval) : pystr :=
         match l with
         | [] => [93%N]
         | [v] => json_dumps v ++ [93%N]
         | v :: r => json_dumps v ++ 44%N :: 32%N :: items r
         end) l
  | PDict d =>
      123%N ::
      (fix items (d : list (pystr * pyval)) : pystr :=
         match d with
         | [] => [125%N]
         | [(k, v)] => json_string k ++ 58%N :: 32%N :: json_dumps v ++ [125%N]
         | (k, v) :: r =>
             json_string k ++ 58%N :: 32%N :: json_dumps v ++ 44%N :: 32%N :: items r
         end) d
  end.

(** The literal of [f] is a number that reads back as [f]. *)
Definition float_eqb (f g : spec_float) : bool :=
  match f, g with
  | S754_zero a, S754_zero b => Bool.eqb a b
  | S754_infinity a, S754_infinity b => Bool.eqb a b
  | S754_nan, S754_nan => true
  | S754_finite a m e, S754_finite b n e' => Bool.eqb a b && Pos.eqb m n && Z.eqb e e'
  | _, _ => false
  end.

Definition float_reads_back (f : spec_float) : bool :=
  match f with
  | S754_nan | S754_infinity _ => true
  | _ =>
      match match_number (float_repr f) with
      | Scanned (PFloat g) [] => float_eqb f g
      | _ => false
      end
  end.

(** Every float inside [x] reads back from its literal. *)
Fixpoint floats_read_back (x : pyval) : bool :=
  match x with
  | PFloat f => float_reads_back f
  | PList l => forallb floats_read_back l
  | PDict d => forallb (fun kv => floats_read_back (snd kv)) d
  | _ => true
  end.

End Encoder.

(** A text of Unicode scalar values: what decoding UTF-8 yields. *)
Definition is_unicode_text (s : pystr) : bool :=
  forallb (fun c => N.ltb c 1114112 && negb (in_range 55296 57343 c)) s.

(** A text whose escapes read back: code points in range, and no high
    surrogate followed by a low one. *)
Fixpoint encodable (s : pystr) : bool :=
  match s with
  | [] => true
  | c :: r =>
      N.ltb c 1114112
      && negb (is_high_surrogate c
               && match r with d :: _ => is_low_surrogate d | [] => false end)
      && encodable r
  end.

Fixpoint unique (l : list pystr) : bool :=
  match l with
  | [] => true
  | k :: r => negb (existsb (pystr_eqb k) r) && unique r
  end.

(** What [json.loads] guarantees of a value read from a Unicode text. *)
Fixpoint sound (x : pyval) : bool :=
  match x with
  | PStr s => encodable s
  | PInt z => Nat.leb (List.length (digits_of_N (Z.abs_N z))) int_max_str_digits
  | PList l => forallb sound l
  | PDict d =>
      unique (map fst d)
      && forallb (fun kv => encodable (fst kv) && sound (snd kv)) d
  | _ => true
  end.

(* ================================================================== *)
(** * What the spec says of the result, as checks *)

(** The seven narrative fields and the five list fields of spec section 3. *)
Definition narrative_fields : list pystr :=
  [k_executive_summary; k_market_analysis; k_origin_analysis; k_buyer_profile;
   k_price_analysis; k_payment_logistics; k_recommendation].

Definition list_fields : list pystr :=
  [k_red_flags; k_unusual_patterns; k_strengths; k_next_steps; k_reasoning].

Definition is_member (k : pystr) (l : list pystr) : bool := existsb (pystr_eqb k) l.

Definition is_str (x : pyval) : bool :=
  match x with PStr _ => true | _ => false end.

Definition is_list (x : pyval) : bool :=
  match x with PList _ => true | _ => false end.

Definition is_risk_level (x : pyval) : bool :=
  is_text (py "low") x || is_text (py "medium") x || is_text (py "high") x.

Definition is_score (x : pyval) : bool :=
  match x with PInt z => (0 <=? z)%Z && (z <=? 100)%Z | _ => false end.

(** The type spec section 8 gives the field [k]: [v] has it. *)
Definition well_typed (k : pystr) (v : pyval) : bool :=
  if pystr_eqb k k_score then is_score v
  else if is_member k narrative_fields then is_str v
  else if is_member k list_fields then is_list v
  else if pystr_eqb k k_risk_level then is_risk_level v
  else true.

(** The integer a JSON number truncates to, when it is finite. *)
Definition finite_number (x : pyval) : option Z :=
  match x with
  | PInt z => Some z
  | PFloat f => float_trunc f
  | _ => None
  end.

(** Spec section 4.2 step 2 and section 9, in the spec's words: the first
    span that balances, found by a scanner that counts the depth of the
    braces. [balanced_tail depth s] is the text up to the brace that closes
    depth 0. This is not what the source does; see [search_braces]. *)
Fixpoint balanced_tail (depth : nat) (s : pystr) : option pystr :=
  match s with
  | [] => None
  | c :: r =>
      if N.eqb c 123 then option_map (cons c) (balanced_tail (S depth) r)
      else if N.eqb c 125 then
        match depth with
        | O => Some [c]
        | S d => option_map (cons c) (balanced_tail d r)
        end
      else option_map (cons c) (balanced_tail depth r)
  end.

Definition depth_scan (s : pystr) : option pystr :=
  match drop_while (fun c => negb (N.eqb c 123)) s with
  | [] => None
  | c :: r => option_map (cons c) (balanced_tail 0 r)
  end.

(** The exact decimal expansion of a finite float, with at least one digit
    after the point. *)
Definition exact_decimal (f : spec_float) : pystr :=
  match f with
  | S754_zero s => (if s then [45%N] else []) ++ py "0.0"
  | S754_finite s m e =>
      (if s then [45%N] else []) ++
      match e with
      | Zneg k =>
          let whole := (Npos m / 2 ^ Npos k)%N in
          let part := ((Npos m mod 2 ^ Npos k) * 5 ^ Npos k)%N in
          let digits := digits_of_N part in
          let padded := repeat 48%N (Pos.to_nat k - List.length digits) ++ digits in
          let frac := rstrip_zeros padded in
          digits_of_N whole ++ 46%N :: (match frac with [] => [48%N] | _ => frac end)
      | _ => digits_of_N (Npos m * 2 ^ Z.to_N e) ++ py ".0"
      end
  | _ => []
  end.

(** One interpreter, for the closed examples; the theorems hold for every
    interpreter. Its messages only name the failure, its [repr] of a float
    is the exact decimal expansion, and its [repr] of a text quotes it
    without escapes. *)
Definition sample_interpreter : Interpreter :=
  {| error_text := fun e =>
       match e with
       | JSONDecodeError _ => py "invalid JSON"
       | BuiltinError _ _ => py "invalid operand"
       | ValueError m => m
       | Collaborator m => m
       end;
     float_repr := exact_decimal;
     str_repr := fun s => 39%N :: s ++ [39%N] |}.

(* ================================================================== *)
(** * Inputs of the examples *)

(** Raw texts of the examples. *)
Definition raw_fenced : pystr :=
  py "```json" ++ newline ++ js "{'score': 82, 'risk_level': 'low'}" ++ newline ++ py "```".
Definition raw_prose_105 : pystr := js "Sure, here you go: {'score': 105}".
Definition raw_red_flags : pystr := js "{'score': 40, 'red_flags': ['pricing 22% below LME']}".
Definition raw_nested_score : pystr := js "{'x': {'score': 77}}".
Definition raw_two_objects : pystr := js "{'score': 10} see {note}".
Definition raw_infinite_score : pystr := js "{'score': 1e999}".
Definition raw_untyped : pystr := js "{'score': 1, 'risk_level': 'extreme', 'executive_summary': null}".
Definition raw_overlong : pystr := js "'score': " ++ repeat 57%N 4301.
Definition raw_with_float : pystr := js "Assessment: {'score': 72.5, 'confidence': 0.1}".
Definition raw_surrogates : pystr :=
  js "{'score': 1, 'x': '" ++ [55357; 56832]%N ++ js "'}".

Ltac eval_eqb :=
  repeat match goal with
  | |- context [pystr_eqb ?a ?b] =>
      let v := eval vm_compute in (pystr_eqb a b) in
      change (pystr_eqb a b) with v
  end.


Definition lme_deal : dict :=
  [ (py "price_type", PStr (py "lme_discount"));
    (py "gross_discount", PInt (-9));
    (py "commission", PInt 2);
    (py "net_discount", PInt (-11)) ].

Definition zero_price_deal : dict :=
  [ (py "price", PInt 0); (py "price_currency", PStr (py "USD")) ].

Definition em_dash : char := 8212%N.

(* ================================================================== *)
(** * Helpers of the proofs *)

(** The numeral a run of ASCII digits writes. *)
Definition digit_cons (c : char) : Decimal.uint -> Decimal.uint :=
  if N.eqb c 48 then Decimal.D0 else if N.eqb c 49 then Decimal.D1
  else if N.eqb c 50 then Decimal.D2 else if N.eqb c 51 then Decimal.D3
  else if N.eqb c 52 then Decimal.D4 else if N.eqb c 53 then Decimal.D5
  else if N.eqb c 54 then Decimal.D6 else if N.eqb c 55 then Decimal.D7
  else if N.eqb c 56 then Decimal.D8 else Decimal.D9.

Fixpoint uint_of_chars (ds : pystr) : Decimal.uint :=
  match ds with
  | [] => Decimal.Nil
  | c :: r => digit_cons c (uint_of_chars r)
  end.

(** A run of ASCII digits with no leading zero, or the single digit 0. *)
Definition canonical_digits (ds : pystr) : bool :=
  match ds with
  | [] => false
  | c :: r =>
      if N.eqb c 48 then match r with [] => true | _ => false end
      else in_range 49 57 c && forallb is_ascii_digit r
  end.

(** A text that is empty or starts with a comma or a closing bracket. *)
Definition at_delimiter (s : pystr) : bool :=
  match s with
  | [] => true
  | c :: _ => N.eqb c 44 || N.eqb c 93 || N.eqb c 125
  end.

(** The result of a scan with [rest] appended to what it left. *)
Definition leaving {A : Type} (r : scanned A) (rest : pystr) : scanned A :=
  match r with
  | Scanned v unread => Scanned v (unread ++ rest)
  | Malformed => Malformed
  | Overlong n => Overlong n
  | Exhausted => Exhausted
  end.

(** The text starts with the escape of a low surrogate. *)
Definition low_escape_head (t : pystr) : bool :=
  match t with
  | b :: u :: g1 :: g2 :: g3 :: g4 :: _ =>
      N.eqb b 92 && N.eqb u 117
      && match hex4 g1 g2 g3 g4 with
         | Some x => is_low_surrogate x
         | None => false
         end
  | _ => false
  end.

(** The text starts like a number literal. *)
Definition number_head (t : pystr) : bool :=
  match t with
  | c :: r =>
      is_ascii_digit c
      || (N.eqb c 45 && match r with d :: _ => is_ascii_digit d | [] => false end)
  | [] => false
  end.

(** A text that is empty or starts outside the class [f]. *)
Definition stops_at (f : char -> bool) (s : pystr) : bool :=
  match s with [] => true | c :: _ => negb (f c) end.

(** Where a written value starts: not with a blank, not with a bracket
    that closes. *)
Definition value_head (s : pystr) : bool :=
  match s with
  | c :: _ => negb (is_json_space c) && negb (N.eqb c 93)
  | [] => false
  end.

(** [rest] is what remains of [s] after a prefix of it. *)
Definition tail_of (rest s : pystr) : Prop := exists p, s = p ++ rest.

(** A scan that used no fuel up, and left a tail of [s] if it read a value. *)
Definition leaves_tail {A : Type} (x : scanned A) (s : pystr) : Prop :=
  x <> Exhausted /\ forall v rest, x = Scanned v rest -> tail_of rest s.

(** An output that starts with a low surrogate was written as an escape. *)
Definition low_head_escaped (s out : pystr) : Prop :=
  match out with
  | d :: _ => is_low_surrogate d = true -> low_escape_head s = true
  | [] => True
  end.

(** What is known of the text of a string literal read from [s]. *)
Definition text_read (s out rest : pystr) : Prop :=
  encodable out = true /\ tail_of rest s /\ low_head_escaped s out.

(** [m] is a run of consecutive characters of [s]. *)
Definition part_of (m s : pystr) : Prop := exists a b, s = a ++ m ++ b.

Section EncoderHelpers.
Context {interp : Interpreter}.

(** The items of a list literal and its closing bracket. *)
Fixpoint list_text (l : list pyval) : pystr :=
  match l with
  | [] => [93%N]
  | [v] => json_dumps v ++ [93%N]
  | v :: r => json_dumps v ++ 44%N :: 32%N :: list_text r
  end.

(** The members of an object literal and its closing brace. *)
Fixpoint dict_text (d : dict) : pystr :=
  match d with
  | [] => [125%N]
  | [(k, v)] => json_string k ++ 58%N :: 32%N :: json_dumps v ++ [125%N]
  | (k, v) :: r =>
      json_string k ++ 58%N :: 32%N :: json_dumps v ++ 44%N :: 32%N :: dict_text r
  end.

(** What the induction gives for a value: with enough fuel and a delimiter
    after it, its text is scanned back to it. *)
Definition reads_back (x : pyval) : Prop :=
  sound x = true -> floats_read_back x = true ->
  forall fuel rest,
    at_delimiter rest = true ->
    2 * List.length (json_dumps x ++ rest) < fuel ->
    scan_once fuel (json_dumps x ++ rest) = Scanned x rest.

End EncoderHelpers.

(* ================================================================== *)
(** * Helpers of the further properties *)

(** No brace occurs in the text. *)
Definition brace_free (s : pystr) : bool :=
  forallb (fun c => negb (N.eqb c 123) && negb (N.eqb c 125)) s.

(** The summary of the handler of [JSONDecodeError] for the raw text. *)
Definition raw_summary (raw : pystr) : pyval :=
  PStr (py "Warning: JSON Parsing Error. Raw response:"
        ++ newline ++ newline ++ firstn 1000 raw).

(** A value [repr] accepts: no integer of more than 4300 digits in it. *)
Fixpoint printable (x : pyval) : bool :=
  match x with
  | PInt z => Nat.leb (List.length (digits_of_N (Z.abs_N z))) int_max_str_digits
  | PList l => forallb printable l
  | PDict d => forallb (fun kv => printable (snd kv)) d
  | _ => true
  end.

(** The keys whose values [_build_scoring_prompt] prints: ten in every
    case, then those of the price line. *)
Definition keys_printed (deal_data : dict) : list pystr :=
  [ py "commodity_type"; py "source_name"; py "source_reliability";
    py "quantity"; py "quantity_unit"; py "origin_country"; py "payment_method";
    py "shipping_terms"; py "deal_text"; py "additional_notes" ]
  ++ (if is_text (py "lme_discount") (get deal_data (py "price_type"))
      then [py "gross_discount"; py "commission"; py "net_discount"]
      else py "price"
           :: (if truthy (get deal_data (py "price"))
               then [py "price_currency"] else [])).

(** The keys it reads: those, and price_type, which it only compares. *)
Definition keys_read (deal_data : dict) : list pystr :=
  py "price_type" :: keys_printed deal_data.

(** The exception of [str] or [repr]: the refusal of an over-long integer. *)
Definition overlong_int (e : exn) : Prop :=
  exists z, e = BuiltinError op_str (PInt z)
            /\ int_max_str_digits < List.length (digits_of_N (Z.abs_N z)).

(* ================================================================== *)
(** * [src/fix_database.py]: [fix_ai_reasoning]

    The rows are those the SELECT fetched: the id, [ai_reasoning] and
    [ai_analysis] of each deal. The model gives the statements the loop
    issues, as the parameter tuples of its UPDATE, in order; what the loop
    prints is left out. *)

Section FixDatabase.
Context {interp : Interpreter}.

(** The parameters [(json.dumps([]), deal_id)] of the UPDATE. *)
Definition cleared (deal_id : pyval) : list pyval :=
  [PStr (json_dumps (PList [])); deal_id].

(** One turn of the loop of lines 20-50: the parameters of the UPDATE it
    issues, if it issues one. A truthy value that is no text has no
    [startswith]: the AttributeError is absorbed by the outer handler and
    nothing is issued. The check of [ai_analysis] only prints, and every
    [print] is taken to succeed. *)
Definition fix_row (row : pyval * pyval * pyval) : list (list pyval) :=
  let '(deal_id, ai_reasoning, ai_analysis) := row in
  if truthy ai_reasoning then
    match ai_reasoning with
    | PStr s =>
        if startswith (py "['") s || startswith (js "['") s
        then [cleared deal_id]
        else
          match json_loads s with
          | Returns _ => []
          | Raises _ => [cleared deal_id]
          end
    | _ => []
    end
  else [].

(** The statements of the whole loop, in the order of the rows. *)
Definition fix_ai_reasoning (deals : list (pyval * pyval * pyval)) : list (list pyval) :=
  flat_map fix_row deals.

(** The [ai_reasoning] of a row once its statement, if any, has run. *)
Definition reasoning_after (row : pyval * pyval * pyval) : pyval :=
  match fix_row row with
  | (new :: _) :: _ => new
  | _ => snd (fst row)
  end.

End FixDatabase.

(* ================================================================== *)
(** * [src/models/deal.py]: the statements of [Deal]

    The statement text and the parameters that [get_all], [update] and
    [create] hand to [cursor.execute]; the database itself is not
    modelled. Keys of [deal_data] are texts. *)

(** [sep.join(l)] *)
Fixpoint join (sep : pystr) (l : list pystr) : pystr :=
  match l with
  | [] => []
  | [a] => a
  | a :: r => a ++ sep ++ join sep r
  end.

(** The number of [?] in a statement. *)
Definition placeholders (query : pystr) : nat :=
  List.length (filter (N.eqb 63) query).

(** [Deal.get_all], lines 38-50: the query and its parameters. *)
Definition get_all_statement (status commodity_type limit : pyval)
  : pystr * list pyval :=
  let query := py "SELECT * FROM deals WHERE 1=1" in
  let params := [] in
  let '(query, params) :=
    if truthy status
    then (query ++ py " AND status = ?", params ++ [status])
    else (query, params) in
  let '(query, params) :=
    if truthy commodity_type
    then (query ++ py " AND commodity_type = ?", params ++ [commodity_type])
    else (query, params) in
  (query ++ py " ORDER BY date_received DESC LIMIT ?", params ++ [limit]).

(** The fields and values of lines 143-149 of [Deal.update]: every item of
    [deal_data] but the one of key id. *)
Definition update_fields (deal_data : dict) : list pystr * list pyval :=
  fold_left
    (fun acc kv =>
       if negb (pystr_eqb (fst kv) (py "id"))
       then (fst acc ++ [fst kv ++ py " = ?"], snd acc ++ [snd kv])
       else acc)
    deal_data ([], []).

(** [Deal.update], lines 151-158: the statement executed, [None] when the
    method returns False without executing one. *)
Definition update_statement (deal_id : pyval) (deal_data : dict)
  : option (pystr * list pyval) :=
  let '(fields, values) := update_fields deal_data in
  match fields with
  | [] => None
  | _ =>
      Some (py "UPDATE deals SET " ++ join (py ", ") fields ++ py " WHERE id = ?",
            values ++ [deal_id])
  end.

(** The statement of [Deal.create], lines 93-101, one line of the source
    after the other. *)
Definition create_sql : pystr :=
  newline
  ++ py "    INSERT INTO deals (" ++ newline
  ++ py "        commodity_type, source_name, source_reliability," ++ newline
  ++ py "        deal_text, price, price_currency, quantity, quantity_unit," ++ newline
  ++ py "        origin_country, payment_method, shipping_terms," ++ newline
  ++ py "        additional_notes, date_received, status," ++ newline
  ++ py "        price_type, gross_discount, commission, net_discount" ++ newline
  ++ py "    ) VALUES (?, ?, ?, ?, ?, ?, ?, ?, ?, ?, ?, ?, ?, ?, ?, ?, ?, ?)" ++ newline
  ++ py "        ".

(** The parameters of [Deal.create], lines 101-120. *)
Definition create_params (deal_data : dict) : list pyval :=
  [ get deal_data (py "commodity_type");
    get deal_data (py "source_name");
    get deal_data (py "source_reliability");
    get deal_data (py "deal_text");
    get deal_data (py "price");
    get_or deal_data (py "price_currency") (py "USD");
    get deal_data (py "quantity");
    get deal_data (py "quantity_unit");
    get deal_data (py "origin_country");
    get deal_data (py "payment_method");
    get deal_data (py "shipping_terms");
    get deal_data (py "additional_notes");
    get deal_data (py "date_received");
    get_or deal_data (py "status") (py "unassigned");
    get_or deal_data (py "price_type") (py "fixed_price");
    get deal_data (py "gross_discount");
    get deal_data (py "commission");
    get deal_data (py "net_discount") ].

(** The names between the first pair of parentheses of a statement, split
    at the commas and stripped. *)
Fixpoint split_commas (cur : pystr) (s : pystr) : list pystr :=
  match s with
  | [] => [strip (List.rev cur)]
  | c :: r =>
      if N.eqb c 44 then strip (List.rev cur) :: split_commas [] r
      else split_commas (c :: cur) r
  end.

Definition column_names (query : pystr) : list pystr :=
  match drop_while (fun c => negb (N.eqb c 40)) query with
  | [] => []
  | _ :: r => split_commas [] (take_while (fun c => negb (N.eqb c 41)) r)
  end.

(** The value [create] binds when [deal_data] lacks the key. *)
Definition create_default (column : pystr) : pyval :=
  if pystr_eqb column (py "price_currency") then PStr (py "USD")
  else if pystr_eqb column (py "status") then PStr (py "unassigned")
  else if pystr_eqb column (py "price_type") then PStr (py "fixed_price")
  else PNone.

(* ================================================================== *)
(** * [AIScorer.__init__]

    Lines 16-18: the key kept in [self.api_key], or the [ValueError].
    [env] is the value of the environment variable ANTHROPIC_API_KEY, when
    it is set; the client built from the key is the collaborator's. *)

Definition key_not_found : pystr := py "ANTHROPIC_API_KEY not found".

Definition init_api_key (api_key : pyval) (env : option pystr) : outcome pyval :=
  let key :=
    if truthy api_key then api_key
    else match env with Some s => PStr s | None => PNone end in
  if negb (truthy key) then Raises (ValueError key_not_found)
  else Returns key.

(* ================================================================== *)
(** * Inputs of the further examples *)

Definition raw_unclosed_500 : pystr := js "{'score': 500".
Definition raw_text_score : pystr := js "{'score': '85'}".

Definition deal_update : dict :=
  [ (py "id", PInt 99); (py "status", PStr (py "closed")); (py "price", PInt 12) ].
(* ================================================================== *)
(** * Facts about texts and dicts *)

Lemma pystr_eqb_eq (a b : pystr) : pystr_eqb a b = true <-> a = b.
Proof.
  revert b; induction a as [|x a IH]; intros [|y b]; simpl; split;
    try congruence; try reflexivity.
  - rewrite andb_true_iff, N.eqb_eq, IH. intros [-> ->]; reflexivity.
  - intros E; injection E as -> ->. now rewrite N.eqb_refl, (proj2 (IH b)).
Qed.

Lemma pystr_eqb_refl (a : pystr) : pystr_eqb a a = true.
Proof. now apply pystr_eqb_eq. Qed.

Lemma pystr_eqb_sym (a b : pystr) : pystr_eqb a b = pystr_eqb b a.
Proof.
  destruct (pystr_eqb a b) eqn:E, (pystr_eqb b a) eqn:F; try reflexivity.
  - apply pystr_eqb_eq in E; subst. now rewrite pystr_eqb_refl in F.
  - apply pystr_eqb_eq in F; subst. now rewrite pystr_eqb_refl in E.
Qed.

Lemma pystr_eqb_neq (a b : pystr) : pystr_eqb a b = false <-> a <> b.
Proof.
  split.
  - intros E ->. now rewrite pystr_eqb_refl in E.
  - intros N. destruct (pystr_eqb a b) eqn:E; [|reflexivity].
    now apply pystr_eqb_eq in E.
Qed.

Lemma dict_get_set (d : dict) (k k' : pystr) (v : pyval) :
  dict_get k (dict_set d k' v) = if pystr_eqb k' k then Some v else dict_get k d.
Proof.
  induction d as [|[k0 v0] d IH]; simpl.
  - reflexivity.
  - destruct (pystr_eqb k0 k') eqn:E0; simpl.
    + apply pystr_eqb_eq in E0; subst k0.
      destruct (pystr_eqb k' k); reflexivity.
    + destruct (pystr_eqb k0 k) eqn:E1.
      * apply pystr_eqb_eq in E1; subst k0.
        rewrite pystr_eqb_sym, E0. reflexivity.
      * exact IH.
Qed.

Lemma dict_has_set (d : dict) (k k' : pystr) (v : pyval) :
  dict_has k (dict_set d k' v) = pystr_eqb k' k || dict_has k d.
Proof.
  unfold dict_has. rewrite dict_get_set. now destruct (pystr_eqb k' k).
Qed.

(** Setting a present key to the value it has changes nothing. *)
Lemma dict_set_same (d : dict) (k : pystr) (v : pyval) :
  dict_get k d = Some v -> dict_set d k v = d.
Proof.
  induction d as [|[k0 v0] d IH]; simpl; [discriminate|].
  destruct (pystr_eqb k0 k) eqn:E.
  - intros [= ->]. reflexivity.
  - intros G. now rewrite IH.
Qed.

Lemma fill_from_get (l d : dict) (k : pystr) :
  dict_get k (fill_from l d) =
  match dict_get k d with
  | Some v => Some v
  | None => dict_get k l
  end.
Proof.
  revert d; induction l as [|[k0 v0] l IH]; intros d; simpl.
  - now destruct (dict_get k d).
  - unfold fill_from in *; cbn [fold_left fst snd].
    rewrite IH. unfold dict_has.
    destruct (dict_get k0 d) as [w|] eqn:G0.
    + destruct (dict_get k d) eqn:G; [reflexivity|].
      destruct (pystr_eqb k0 k) eqn:E; [|reflexivity].
      apply pystr_eqb_eq in E; subst. congruence.
    + rewrite dict_get_set.
      destruct (pystr_eqb k0 k) eqn:E.
      * apply pystr_eqb_eq in E; subst. now rewrite G0.
      * reflexivity.
Qed.

Lemma fill_defaults_get (d : dict) (k : pystr) :
  dict_get k (fill_defaults d) =
  match dict_get k d with
  | Some v => Some v
  | None => dict_get k defaults
  end.
Proof. apply fill_from_get. Qed.

(** Nothing is filled in a dict that has every default key. *)
Lemma fill_from_full (l d : dict) :
  (forall k v, In (k, v) l -> dict_has k d = true) -> fill_from l d = d.
Proof.
  induction l as [|[k0 v0] l IH]; intros F; simpl; [reflexivity|].
  rewrite (F k0 v0 (or_introl eq_refl)).
  apply IH. intros k v I. apply (F k v). now right.
Qed.

(* ================================================================== *)
(** * The three tiers of the Normalizer *)

Section Tiers.
Context {interp : Interpreter}.

Lemma parse_text (raw : pystr) :
  _parse_score_response (PStr raw) =
  match parse_cleaned (clean_response raw) with
  | Returns result => Returns result
  | Raises (JSONDecodeError doc) => degraded_result (PStr raw) (JSONDecodeError doc)
  | Raises e => Returns (error_result e)
  end.
Proof. reflexivity. Qed.

(** [json.loads] raises nothing but its own error and the [ValueError] of
    an over-long integer literal. *)
Lemma json_loads_raises (s : pystr) (e : exn) :
  json_loads s = Raises e ->
  e = JSONDecodeError s \/ exists n, e = BuiltinError op_int (PStr n).
Proof.
  unfold json_loads.
  destruct (startswith _ s); [intros [= <-]; now left|].
  destruct (scan_once _ _) as [v rest| |n|].
  - destruct (skip_ws rest); [discriminate|intros [= <-]; now left].
  - intros [= <-]; now left.
  - intros [= <-]; right; now exists n.
  - intros [= <-]; now left.
Qed.

(** Success: the object has a score that converts to an integer. *)
Lemma success_tier (raw : pystr) (d : dict) (x : pyval) (z : Z) :
  json_loads (clean_response raw) = Returns (PDict d) ->
  dict_get k_score d = Some x ->
  py_int x = Returns z ->
  _parse_score_response (PStr raw)
  = Returns (fill_defaults (dict_set d k_score (PInt (clamp z)))).
Proof.
  intros L G I. rewrite parse_text. unfold parse_cleaned.
  rewrite L. cbn [bind contains_score getitem_score].
  unfold dict_has. rewrite G. cbn [negb bind]. rewrite I. reflexivity.
Qed.

(** The outcomes of the steps after [json.loads], by cases. *)
Lemma parse_cleaned_cases (cleaned : pystr) :
  (exists d x z,
      json_loads cleaned = Returns (PDict d) /\ dict_get k_score d = Some x
      /\ py_int x = Returns z
      /\ parse_cleaned cleaned
         = Returns (fill_defaults (dict_set d k_score (PInt (clamp z)))))
  \/ (json_loads cleaned = Raises (JSONDecodeError cleaned)
      /\ parse_cleaned cleaned = Raises (JSONDecodeError cleaned))
  \/ (exists e, parse_cleaned cleaned = Raises e
                /\ forall doc, e <> JSONDecodeError doc).
Proof.
  unfold parse_cleaned.
  destruct (json_loads cleaned) as [v|e] eqn:L.
  - cbn [bind]. destruct v as [| | | | s | l | d]; cbn [contains_score bind];
      try (right; right; eexists; split; [reflexivity|discriminate]).
    + destruct (contains k_score s); cbn [negb getitem_score bind];
        right; right; eexists; (split; [reflexivity|discriminate]).
    + destruct (existsb _ l); cbn [negb getitem_score bind];
        right; right; eexists; (split; [reflexivity|discriminate]).
    + unfold dict_has. destruct (dict_get k_score d) as [x|] eqn:G.
      * cbn [negb getitem_score bind]. rewrite G. cbn [bind].
        destruct (py_int x) as [z|e] eqn:I.
        -- left. exists d, x, z. repeat split; auto.
        -- right; right. exists e. split; [reflexivity|].
           intros doc ->. destruct x as [| | |f|s| |]; cbn in I; try discriminate.
           ++ destruct (float_trunc f); discriminate.
           ++ destruct (int_of_str s); discriminate.
      * cbn [negb]. right; right; eexists; (split; [reflexivity|discriminate]).
  - cbn [bind]. destruct (json_loads_raises _ _ L) as [->|[n ->]].
    + right; left. split; reflexivity.
    + right; right. eexists; split; [reflexivity|discriminate].
Qed.

(** The over-long run of digits: what each step makes of it. *)
Lemma overlong_steps :
  parse_cleaned (clean_response raw_overlong) = Raises (JSONDecodeError raw_overlong)
  /\ json_loads (clean_response raw_overlong) = Raises (JSONDecodeError raw_overlong)
  /\ search_score raw_overlong = Some (repeat 57%N 4301)
  /\ int_of_str (repeat 57%N 4301) = None.
Proof. repeat split; vm_compute; reflexivity. Qed.

(** The over-long run of digits leaves the handler of [JSONDecodeError]. *)
Lemma overlong_raises :
  _parse_score_response (PStr raw_overlong)
  = Raises (BuiltinError op_int (PStr (repeat 57%N 4301))).
Proof.
  destruct overlong_steps as (P & _ & S & I).
  rewrite parse_text, P. unfold degraded_result. rewrite S.
  cbn [py_int]. rewrite I. reflexivity.
Qed.

End Tiers.

(* ================================================================== *)
(** * The Normalizer: claims *)

Section Normalizer.
Context {interp : Interpreter}.

(** C1. The call can raise: on a text whose first ["score": digits] run has
    4301 digits, [json.loads] fails, the handler of [JSONDecodeError] finds
    the run, and [int] of it raises a [ValueError] that leaves the handler. *)
Theorem overlong_score_escapes_handler :
  json_loads (clean_response raw_overlong) = Raises (JSONDecodeError raw_overlong)
  /\ search_score raw_overlong = Some (repeat 57%N 4301)
  /\ int_of_str (repeat 57%N 4301) = None
  /\ _parse_score_response (PStr raw_overlong)
     = Raises (BuiltinError op_int (PStr (repeat 57%N 4301))).
Proof.
  destruct overlong_steps as (_ & L & S & I).
  split; [exact L|]. split; [exact S|]. split; [exact I|].
  apply overlong_raises.
Qed.

(** C3 (amended). An object without a [score] field ends in the generic
    tier: the score is 50 whatever the raw text holds, the summary carries
    the message of the [ValueError] and not the raw text, and [red_flags]
    has that message as its single entry. *)
Theorem missing_score_takes_generic_tier (raw : pystr) (d : dict) :
  json_loads (clean_response raw) = Returns (PDict d) ->
  dict_has k_score d = false ->
  _parse_score_response (PStr raw)
  = Returns
      [ (k_score, PInt 50);
        (k_executive_summary, PStr (py "Warning: Error: Response missing 'score' field"));
        (k_market_analysis, PStr (py "Error occurred"));
        (k_origin_analysis, PStr (py "Error occurred"));
        (k_buyer_profile, PStr (py "Error occurred"));
        (k_price_analysis, PStr (py "Error occurred"));
        (k_payment_logistics, PStr (py "Error occurred"));
        (k_red_flags, PList [PStr (py "Response missing 'score' field")]);
        (k_unusual_patterns, PList []);
        (k_strengths, PList []);
        (k_next_steps, PList [PStr (py "Check error message"); PStr (py "Try again")]);
        (k_reasoning, PList [PStr (py "Warning: Unexpected error occurred")]);
        (k_recommendation, PStr (py "Try running analysis again"));
        (k_risk_level, PStr (py "medium")) ].
Proof.
  intros L A. rewrite parse_text. unfold parse_cleaned.
  rewrite L. cbn [bind contains_score]. rewrite A. reflexivity.
Qed.

(** C5 (amended). On a successful parse whose score is an integer or a
    finite float, the resulting score is the truncation of that number
    saturated into [0,100]. *)
Theorem score_is_truncated_then_clamped (raw : pystr) (d : dict) (x : pyval) (z : Z) :
  json_loads (clean_response raw) = Returns (PDict d) ->
  dict_get k_score d = Some x ->
  finite_number x = Some z ->
  exists result,
    _parse_score_response (PStr raw) = Returns result
    /\ dict_get k_score result = Some (PInt (clamp z))
    /\ (0 <= clamp z <= 100)%Z
    /\ ((100 <= z)%Z -> clamp z = 100%Z)
    /\ ((z <= 0)%Z -> clamp z = 0%Z)
    /\ ((0 <= z <= 100)%Z -> clamp z = z).
Proof.
  intros L G F.
  assert (I : py_int x = Returns z).
  { destruct x; cbn in F; try discriminate.
    - now injection F as ->.
    - cbn. now rewrite F. }
  exists (fill_defaults (dict_set d k_score (PInt (clamp z)))).
  split; [now apply success_tier with (x := x)|].
  split.
  { rewrite fill_defaults_get, dict_get_set, pystr_eqb_refl. reflexivity. }
  unfold clamp. repeat split; lia.
Qed.

(** C6 (amended). On the success tier the score is replaced by its clamped
    integer, every other supplied field is passed through unchanged, a
    missing field with a default gets that default, and no other key
    appears. *)
Theorem supplied_fields_pass_through (raw : pystr) (d : dict) (x : pyval) (z : Z) :
  json_loads (clean_response raw) = Returns (PDict d) ->
  dict_get k_score d = Some x ->
  py_int x = Returns z ->
  exists result,
    _parse_score_response (PStr raw) = Returns result
    /\ dict_get k_score result = Some (PInt (clamp z))
    /\ (forall k v, k <> k_score -> dict_get k d = Some v -> dict_get k result = Some v)
    /\ (forall k, dict_get k d = None -> dict_get k result = dict_get k defaults).
Proof.
  intros L G I.
  exists (fill_defaults (dict_set d k_score (PInt (clamp z)))).
  split; [now apply success_tier with (x := x)|].
  split; [|split].
  - rewrite fill_defaults_get, dict_get_set, pystr_eqb_refl. reflexivity.
  - intros k v N Gk. rewrite fill_defaults_get, dict_get_set.
    destruct (pystr_eqb k_score k) eqn:E.
    + apply pystr_eqb_eq in E. congruence.
    + now rewrite Gk.
  - intros k Gk. rewrite fill_defaults_get, dict_get_set.
    destruct (pystr_eqb k_score k) eqn:E.
    + apply pystr_eqb_eq in E. subst k. congruence.
    + now rewrite Gk.
Qed.

(** C7. The fenced example: both fences are stripped, the object is read,
    and the twelve missing fields get their defaults. *)
Theorem fenced_example :
  clean_response raw_fenced = js "{'score': 82, 'risk_level': 'low'}"
  /\ _parse_score_response (PStr raw_fenced)
     = Returns
         [ (k_score, PInt 82);
           (k_risk_level, PStr (py "low"));
           (k_executive_summary, PStr (py "Analysis in progress..."));
           (k_market_analysis, PStr (py "Market data being analyzed..."));
           (k_origin_analysis, PStr (py "Origin analysis pending..."));
           (k_buyer_profile, PStr (py "Buyer analysis pending..."));
           (k_price_analysis, PStr (py "Price analysis pending..."));
           (k_payment_logistics, PStr (py "Payment analysis pending..."));
           (k_red_flags, PList []);
           (k_unusual_patterns, PList []);
           (k_strengths, PList []);
           (k_next_steps, PList []);
           (k_reasoning, PList []);
           (k_recommendation, PStr (py "Review detailed analysis")) ].
Proof.
  split.
  - vm_compute. reflexivity.
  - rewrite (success_tier raw_fenced
               [(k_score, PInt 82); (k_risk_level, PStr (py "low"))] (PInt 82) 82);
      vm_compute; reflexivity.
Qed.

End Normalizer.

Section ResultShape.
Context {interp : Interpreter}.

Lemma is_score_clamp (z : Z) : is_score (PInt (clamp z)) = true.
Proof.
  unfold is_score, clamp. apply andb_true_iff. split; apply Z.leb_le; lia.
Qed.

(** The fields of a success-tier result. *)
Lemma success_fields (d : dict) (z : Z) (k : pystr) :
  In k fourteen ->
  exists v,
    dict_get k (fill_defaults (dict_set d k_score (PInt (clamp z)))) = Some v
    /\ (well_typed k v = true \/ (k <> k_score /\ dict_get k d = Some v)).
Proof.
  intros I. rewrite fill_defaults_get, dict_get_set.
  unfold fourteen in I; cbn [In] in I.
  destruct I as [<-|I].
  { rewrite pystr_eqb_refl. eexists; split; [reflexivity|left].
    unfold well_typed. rewrite pystr_eqb_refl. apply is_score_clamp. }
  repeat (destruct I as [<-|I];
    [ eval_eqb;
      match goal with
      | |- context [dict_get ?k d] =>
          destruct (dict_get k d) as [v|] eqn:G;
          [ exists v; split; [reflexivity|right; split; [discriminate|reflexivity]]
          | eexists; split; [reflexivity|left; reflexivity] ]
      end | ]).
  contradiction.
Qed.

(** The fields of the two failure results are well typed, the score of the
    generic result too. *)
Lemma error_result_fields (e : exn) (k : pystr) :
  In k fourteen ->
  exists v, dict_get k (error_result e) = Some v /\ well_typed k v = true.
Proof.
  intros I. unfold fourteen in I; cbn [In] in I.
  repeat (destruct I as [<-|I]; [eexists; split; reflexivity|]).
  contradiction.
Qed.

Lemma degraded_result_fields (raw : pystr) (e : exn) (result : dict) (k : pystr) :
  degraded_result (PStr raw) e = Returns result ->
  In k fourteen ->
  exists v, dict_get k result = Some v
            /\ (well_typed k v = true \/ (k = k_score /\ exists z, v = PInt z)).
Proof.
  unfold degraded_result.
  destruct (match search_score raw with
            | Some ds => py_int (PStr ds)
            | None => Returns 50%Z
            end) as [z|e']; cbn [bind]; [|discriminate].
  intros [= <-] I. unfold fourteen in I; cbn [In] in I.
  destruct I as [<-|I].
  { eexists; split; [reflexivity|right; split; [reflexivity|now exists z]]. }
  repeat (destruct I as [<-|I]; [eexists; split; [reflexivity|left; reflexivity]|]).
  contradiction.
Qed.

(** The handler of [JSONDecodeError] raises only when [int] refuses the
    digits it found. *)
Lemma degraded_result_raises (raw : pystr) (e e' : exn) :
  degraded_result (PStr raw) e = Raises e' ->
  exists digits,
    search_score raw = Some digits /\ int_of_str digits = None
    /\ e' = BuiltinError op_int (PStr digits).
Proof.
  unfold degraded_result. destruct (search_score raw) as [ds|]; cbn [bind py_int].
  - destruct (int_of_str ds) eqn:I; cbn [bind]; [discriminate|].
    intros [= <-]. now exists ds.
  - discriminate.
Qed.

(** C2 (amended). When the call returns, the result has all fourteen
    fields; each is typed as the spec says, or is a field other than the
    score that the model supplied (passed through as it came), or is the
    score that the handler of [JSONDecodeError] read from the raw text (an
    integer). The call raises only when that handler finds a run of digits
    that [int] refuses. *)
Theorem result_fields (raw : pystr) :
  match _parse_score_response (PStr raw) with
  | Returns result =>
      forall k, In k fourteen ->
        exists v,
          dict_get k result = Some v
          /\ (well_typed k v = true
              \/ (k <> k_score
                  /\ exists obj,
                       json_loads (clean_response raw) = Returns (PDict obj)
                       /\ dict_get k obj = Some v)
              \/ (k = k_score
                  /\ (exists z, v = PInt z)
                  /\ json_loads (clean_response raw)
                     = Raises (JSONDecodeError (clean_response raw))))
  | Raises e =>
      exists digits,
        search_score raw = Some digits /\ int_of_str digits = None
        /\ e = BuiltinError op_int (PStr digits)
  end.
Proof.
  rewrite parse_text.
  destruct (parse_cleaned_cases (clean_response raw))
    as [(d & x & z & L & G & I & P) | [[L P] | (e & P & N)]]; rewrite P.
  - intros k Ik. destruct (success_fields d z k Ik) as (v & Gv & [W|[Nk Gd]]).
    + exists v. split; [exact Gv|now left].
    + exists v. split; [exact Gv|]. right; left. split; [exact Nk|].
      exists d. split; [exact L|exact Gd].
  - destruct (degraded_result (PStr raw) _) as [result|e'] eqn:D.
    + intros k Ik.
      destruct (degraded_result_fields _ _ _ k D Ik) as (v & Gv & [W|[Ek Z]]).
      * exists v. split; [exact Gv|now left].
      * exists v. split; [exact Gv|]. right; right. now repeat split.
    + exact (degraded_result_raises _ _ _ D).
  - destruct e as [doc| | |]; try (intros k Ik;
      match goal with
      | |- context [error_result ?e] =>
          destruct (error_result_fields e k Ik) as (v & Gv & W)
      end; exists v; (split; [exact Gv|now left])).
    now destruct (N doc).
Qed.

(** Whatever the input, a returned result has the fourteen fields. *)
Lemma returned_fields (x : pyval) (result : dict) (k : pystr) :
  _parse_score_response x = Returns result ->
  In k fourteen -> dict_has k result = true.
Proof.
  intros R Ik. unfold dict_has.
  assert (E : forall e, dict_has k (error_result e) = true).
  { intros e. destruct (error_result_fields e k Ik) as (v & Gv & _).
    unfold dict_has. now rewrite Gv. }
  unfold dict_has in E.
  destruct x as [| | | |raw| |];
    try (cbn in R; injection R as <-; apply E).
  pose proof (result_fields_aux := parse_text raw). rewrite result_fields_aux in R.
  destruct (parse_cleaned_cases (clean_response raw))
    as [(d & x & z & L & G & I & P) | [[L P] | (e & P & N)]]; rewrite P in R.
  - injection R as <-. destruct (success_fields d z k Ik) as (v & Gv & _).
    now rewrite Gv.
  - destruct (degraded_result_fields _ _ _ k R Ik) as (v & Gv & _). now rewrite Gv.
  - destruct e as [doc| | |]; try (injection R as <-; apply E).
    now destruct (N doc).
Qed.

End ResultShape.

(* ================================================================== *)
(** * The span the source extracts *)

Lemma upto_last_brace_none (s : pystr) :
  upto_last_brace s = None <-> ~ In 125%N s.
Proof.
  induction s as [|c r IH]; simpl.
  - split; [intros _ []|reflexivity].
  - destruct (upto_last_brace r) as [m|].
    + split; [discriminate|]. intros N. exfalso.
      assert (A : ~ In 125%N r) by (intros I; apply N; now right).
      apply IH in A. discriminate.
    + destruct (N.eqb c 125) eqn:E.
      * apply N.eqb_eq in E. split; [discriminate|]. intros N. exfalso. apply N. now left.
      * apply N.eqb_neq in E. split; [|reflexivity].
        intros _ [I|I]; [congruence|]. now apply (proj1 IH).
Qed.

Lemma upto_last_brace_some (s m : pystr) :
  upto_last_brace s = Some m <->
  exists body post, s = body ++ 125%N :: post /\ m = body ++ [125%N] /\ ~ In 125%N post.
Proof.
  revert m; induction s as [|c r IH]; intros m; simpl.
  - split; [discriminate|]. intros (body & post & E & _). now destruct body.
  - destruct (upto_last_brace r) as [m'|] eqn:U.
    + split.
      * intros [= <-]. destruct (proj1 (IH m') eq_refl) as (body & post & -> & -> & N).
        now exists (c :: body), post.
      * intros (body & post & E & -> & N). destruct body as [|b body]; simpl in E.
        -- injection E as -> ->. apply upto_last_brace_none in N. congruence.
        -- injection E as -> ->.
           assert (A : Some m' = Some (body ++ [125%N])).
           { apply IH. now exists body, post. }
           now injection A as ->.
    + pose proof (proj1 (upto_last_brace_none r) U) as N.
      destruct (N.eqb c 125) eqn:E.
      * apply N.eqb_eq in E; subst c. split.
        -- intros [= <-]. now exists [], r.
        -- intros (body & post & E & -> & _). destruct body as [|b body]; simpl in E.
           ++ reflexivity.
           ++ injection E as Eb Er. subst b r. exfalso. apply N.
              apply in_or_app. right. now left.
      * apply N.eqb_neq in E. split; [discriminate|].
        intros (body & post & E' & _ & _). exfalso.
        destruct body as [|b body]; simpl in E'; injection E' as -> ->.
        -- congruence.
        -- apply N. apply in_or_app. right. now left.
Qed.

Lemma drop_to_brace (s : pystr) :
  exists pre, s = pre ++ drop_while (fun c => negb (N.eqb c 123)) s
              /\ ~ In 123%N pre
              /\ match drop_while (fun c => negb (N.eqb c 123)) s with
                 | [] => True
                 | c :: _ => c = 123%N
                 end.
Proof.
  induction s as [|c r (pre & E & N & Hd)]; simpl.
  - exists []. repeat split. intros [].
  - destruct (N.eqb c 123) eqn:C; simpl.
    + exists []. apply N.eqb_eq in C. repeat split; [intros []|exact C].
    + exists (c :: pre). apply N.eqb_neq in C. split; [simpl; now f_equal|].
      split; [|exact Hd]. intros [I|I]; [congruence|now apply N].
Qed.

Lemma drop_to_brace_app (pre t : pystr) :
  ~ In 123%N pre ->
  drop_while (fun c => negb (N.eqb c 123)) (pre ++ 123%N :: t) = 123%N :: t.
Proof.
  induction pre as [|c pre IH]; intros N; simpl.
  - reflexivity.
  - destruct (N.eqb c 123) eqn:C.
    + apply N.eqb_eq in C. exfalso. apply N. now left.
    + simpl. apply IH. intros I. apply N. now right.
Qed.

(** C4 (amended). The span handed to the parser runs from the first opening
    brace of the cleaned text to its last closing brace; the prose before
    the one and after the other is dropped, and when no closing brace
    follows the first opening brace the cleaned text is parsed whole. *)
Theorem extraction_is_first_to_last_brace (cleaned : pystr) :
  (forall m,
      search_braces cleaned = Some m <->
      exists pre body post,
        cleaned = pre ++ (123%N :: body ++ [125%N]) ++ post
        /\ m = 123%N :: body ++ [125%N]
        /\ ~ In 123%N pre /\ ~ In 125%N post)
  /\ extract_object cleaned
     = match search_braces cleaned with Some m => m | None => cleaned end.
Proof.
  split; [|reflexivity].
  intros m. unfold search_braces. split.
  - destruct (drop_to_brace cleaned) as (pre & E & N & Hd).
    destruct (drop_while _ cleaned) as [|c r]; [discriminate|]. subst c.
    destruct (upto_last_brace r) as [m'|] eqn:U; [|discriminate].
    intros [= <-]. apply upto_last_brace_some in U.
    destruct U as (body & post & -> & -> & Np).
    exists pre, body, post. repeat split; auto.
    rewrite E. simpl. now rewrite <- app_assoc.
  - intros (pre & body & post & -> & -> & N & Np).
    simpl. rewrite <- app_assoc. simpl.
    rewrite drop_to_brace_app by exact N.
    assert (U : upto_last_brace (body ++ 125%N :: post) = Some (body ++ [125%N])).
    { apply upto_last_brace_some. now exists body, post. }
    rewrite U. reflexivity.
Qed.

(* ================================================================== *)
(** * The Prompt Builder and [score_deal]: claims *)

Section BuilderFacts.
Context {interp : Interpreter}.

(** C9 (amended). The price line: for [lme_discount] the three discounts
    after "LME Discount Pricing - " (a hyphen); otherwise the price and the
    currency when the price is truthy; otherwise "Not specified". Whenever
    the prompt is built it holds the line after "Price: ". *)
Theorem price_line_rendering (deal_data : dict) :
  (forall g c n,
      is_text (py "lme_discount") (get deal_data (py "price_type")) = true ->
      py_str (get deal_data (py "gross_discount")) = Returns g ->
      py_str (get deal_data (py "commission")) = Returns c ->
      py_str (get deal_data (py "net_discount")) = Returns n ->
      price_info deal_data
      = Returns (py "LME Discount Pricing - Gross: " ++ g ++ py "%, Commission: " ++ c
                 ++ py "%, Net: " ++ n ++ py "%"))
  /\ (forall p c,
      is_text (py "lme_discount") (get deal_data (py "price_type")) = false ->
      truthy (get deal_data (py "price")) = true ->
      py_str (get deal_data (py "price")) = Returns p ->
      py_str (get_or deal_data (py "price_currency") (py "USD")) = Returns c ->
      price_info deal_data = Returns (p ++ py " " ++ c))
  /\ (is_text (py "lme_discount") (get deal_data (py "price_type")) = false ->
      truthy (get deal_data (py "price")) = false ->
      price_info deal_data = Returns (py "Not specified"))
  /\ (forall prompt,
      _build_scoring_prompt deal_data = Returns prompt ->
      exists line pre post,
        price_info deal_data = Returns line
        /\ prompt = pre ++ py "Price: " ++ line ++ newline ++ post).
Proof.
  repeat split.
  - intros g c n T G C N. unfold price_info. rewrite T, G, C, N. reflexivity.
  - intros p c T P Sp Sc. unfold price_info. rewrite T, P, Sp, Sc. reflexivity.
  - intros T P. unfold price_info. rewrite T, P. reflexivity.
  - intros prompt B. unfold _build_scoring_prompt in B.
    destruct (price_info deal_data) as [line|e]; cbn [bind] in B; [|discriminate].
    destruct (py_str (get_or deal_data (py "commodity_type") _)) as [commodity|];
      cbn [bind] in B; [|discriminate].
    destruct (py_str (get_or deal_data (py "source_name") _)) as [source|];
      cbn [bind] in B; [|discriminate].
    destruct (py_str (get_or deal_data (py "source_reliability") _)) as [reliability|];
      cbn [bind] in B; [|discriminate].
    repeat match type of B with
           | bind ?m _ = _ => destruct m; cbn [bind] in B; [|discriminate]
           end.
    injection B as <-.
    exists line,
      (prompt_head ++ py "Commodity: " ++ commodity ++ newline
       ++ py "Source: " ++ source ++ py " (Reliability: " ++ reliability
       ++ py "/10)" ++ newline).
    eexists. split; [reflexivity|].
    rewrite <- !app_assoc. reflexivity.
Qed.

(** When the Normalizer raises, the [except] clause of [score_deal] returns
    the failure dictionary. *)
Lemma score_deal_on_raise (invoke : pystr -> outcome pyval) (deal_data : dict)
      (prompt : pystr) (response_text : pyval) (e : exn) :
  _build_scoring_prompt deal_data = Returns prompt ->
  invoke prompt = Returns response_text ->
  _parse_score_response response_text = Raises e ->
  score_deal invoke deal_data
  = Returns
      [ (k_success, PBool false);
        (k_error, PStr (str_exn e));
        (k_score, PNone);
        (k_reasoning, PList []) ].
Proof.
  intros B V P. unfold score_deal. rewrite B. cbn [bind]. unfold scored.
  rewrite V. cbn [bind]. rewrite P. reflexivity.
Qed.

(** C10. When the collaborator answers with the over-long run of digits,
    the Normalizer raises inside the [try] of [score_deal], which then
    returns the failure dictionary: its keys are success, error, score and
    reasoning. *)
Theorem overlong_response_fails_scoring :
  score_deal (fun _ => Returns (PStr raw_overlong)) []
  = Returns
      [ (k_success, PBool false);
        (k_error, PStr (str_exn (BuiltinError op_int (PStr (repeat 57%N 4301)))));
        (k_score, PNone);
        (k_reasoning, PList []) ].
Proof.
  assert (B : exists prompt, _build_scoring_prompt [] = Returns prompt)
    by (eexists; reflexivity).
  destruct B as [prompt B].
  exact (score_deal_on_raise (fun _ => Returns (PStr raw_overlong)) [] prompt
           (PStr raw_overlong) _ B eq_refl overlong_raises).
Qed.

(** X1. When the prompt is built, the collaborator answers and the
    Normalizer returns, [score_deal] returns exactly five entries: the
    flag, and the score, reasoning, recommendation and risk level of the
    Normalizer's result. *)
Theorem score_deal_on_result (invoke : pystr -> outcome pyval) (deal_data : dict)
      (prompt : pystr) (response_text : pyval) (result : dict) :
  _build_scoring_prompt deal_data = Returns prompt ->
  invoke prompt = Returns response_text ->
  _parse_score_response response_text = Returns result ->
  exists score reasoning recommendation risk_level,
    score_deal invoke deal_data
    = Returns
        [ (k_success, PBool true);
          (k_score, score);
          (k_reasoning, reasoning);
          (k_recommendation, recommendation);
          (k_risk_level, risk_level) ]
    /\ dict_get k_score result = Some score
    /\ dict_get k_reasoning result = Some reasoning
    /\ dict_get k_recommendation result = Some recommendation
    /\ dict_get k_risk_level result = Some risk_level.
Proof.
  intros B V P.
  assert (F : forall k, In k fourteen -> exists v, dict_get k result = Some v).
  { intros k Ik. pose proof (returned_fields _ _ k P Ik) as Hk.
    unfold dict_has in Hk. destruct (dict_get k result) as [v|]; [now exists v|discriminate]. }
  destruct (F k_score) as [s Gs]; [unfold fourteen; cbn [In]; tauto|].
  destruct (F k_reasoning) as [r Gr]; [unfold fourteen; cbn [In]; tauto|].
  destruct (F k_recommendation) as [c Gc]; [unfold fourteen; cbn [In]; tauto|].
  destruct (F k_risk_level) as [l Gl]; [unfold fourteen; cbn [In]; tauto|].
  exists s, r, c, l. repeat split; auto.
  unfold score_deal. rewrite B. cbn [bind]. unfold scored.
  rewrite V. cbn [bind]. rewrite P. cbn [bind]. unfold getitem, get_or.
  rewrite Gs, Gr, Gc, Gl. reflexivity.
Qed.

End BuilderFacts.

(* ================================================================== *)
(** * Reading back what [json.dumps] writes *)

Lemma pyval_induction (P : pyval -> Prop) :
  P PNone ->
  (forall b, P (PBool b)) ->
  (forall z, P (PInt z)) ->
  (forall f, P (PFloat f)) ->
  (forall s, P (PStr s)) ->
  (forall l, Forall P l -> P (PList l)) ->
  (forall d, Forall (fun kv => P (snd kv)) d -> P (PDict d)) ->
  forall x, P x.
Proof.
  intros HN HB HI HF HS HL HD. fix IH 1.
  intros [| b | z | f | s | l | d];
    [exact HN|apply HB|apply HI|apply HF|apply HS| |].
  - apply HL. induction l as [|x l IHl]; constructor; [apply IH|exact IHl].
  - apply HD. induction d as [|[k x] d IHd]; constructor; [apply IH|exact IHd].
Qed.

(** ** Runs of characters *)


Lemma take_while_app (f : char -> bool) (a rest : pystr) :
  stops_at f rest = true -> take_while f (a ++ rest) = take_while f a.
Proof.
  intros S. induction a as [|c a IH]; simpl.
  - destruct rest as [|d rest]; [reflexivity|]. simpl in *.
    now destruct (f d).
  - destruct (f c); [now rewrite IH|reflexivity].
Qed.

Lemma drop_while_app (f : char -> bool) (a rest : pystr) :
  stops_at f rest = true -> drop_while f (a ++ rest) = drop_while f a ++ rest.
Proof.
  intros S. induction a as [|c a IH]; simpl.
  - destruct rest as [|d rest]; [reflexivity|]. simpl in *.
    now destruct (f d).
  - destruct (f c); [exact IH|reflexivity].
Qed.

Lemma take_while_all (f : char -> bool) (a : pystr) :
  forallb f a = true -> take_while f a = a.
Proof.
  induction a as [|c a IH]; simpl; [reflexivity|].
  destruct (f c); [|discriminate]. intros A. now rewrite IH.
Qed.

Lemma drop_while_all (f : char -> bool) (a : pystr) :
  forallb f a = true -> drop_while f a = [].
Proof.
  induction a as [|c a IH]; simpl; [reflexivity|].
  destruct (f c); [exact IH|discriminate].
Qed.

Lemma drop_while_stops (f : char -> bool) (s : pystr) :
  stops_at f s = true -> drop_while f s = s.
Proof. destruct s as [|c s]; simpl; [reflexivity|]. now destruct (f c). Qed.

Lemma take_while_forallb (f : char -> bool) (s : pystr) :
  forallb f (take_while f s) = true.
Proof.
  induction s as [|c s IH]; simpl; [reflexivity|].
  destruct (f c) eqn:E; simpl; [now rewrite E|reflexivity].
Qed.

Lemma take_drop_while (f : char -> bool) (s : pystr) :
  take_while f s ++ drop_while f s = s.
Proof.
  induction s as [|c s IH]; simpl; [reflexivity|].
  destruct (f c); simpl; [now rewrite IH|reflexivity].
Qed.

(** ** Decimal numerals *)

Lemma in_range_spec (lo hi c : N) :
  in_range lo hi c = true <-> (lo <= c <= hi)%N.
Proof. unfold in_range. rewrite andb_true_iff, !N.leb_le. tauto. Qed.

Lemma decimal_value_ascii (c : char) :
  is_ascii_digit c = true -> decimal_value c = Some (Z.of_N c - 48)%Z.
Proof.
  unfold is_ascii_digit. intros R. unfold decimal_value, decimal_zeros.
  cbn [find]. change (48 + 9)%N with 57%N. rewrite R.
  apply in_range_spec in R. f_equal. lia.
Qed.

Lemma chars_of_uint_digits (d : Decimal.uint) :
  forallb is_ascii_digit (chars_of_uint d) = true.
Proof. induction d; simpl; auto. Qed.

Lemma digits_value_app (acc : Z) (a b : pystr) :
  digits_value acc (a ++ b) = digits_value (digits_value acc a) b.
Proof. revert acc; induction a as [|c a IH]; intros acc; simpl; auto. Qed.

Lemma digits_value_acc (d : Decimal.uint) (acc : positive) (z : Z) :
  z = Zpos acc ->
  digits_value z (chars_of_uint d) = Zpos (Pos.of_uint_acc d acc).
Proof.
  revert acc z; induction d; intros acc z ->;
    cbn [chars_of_uint Pos.of_uint_acc]; [reflexivity|..];
    cbn [digits_value]; rewrite decimal_value_ascii by reflexivity;
    apply IHd; lia.
Qed.

Lemma digits_value_uint (d : Decimal.uint) :
  digits_value 0 (chars_of_uint d) = Z.of_N (Pos.of_uint d).
Proof.
  induction d; cbn [chars_of_uint Pos.of_uint]; [reflexivity|..];
    cbn [digits_value]; rewrite decimal_value_ascii by reflexivity;
    try exact IHd; cbn [Z.of_N]; apply digits_value_acc; reflexivity.
Qed.

(** Printing then reading a natural number. *)
Lemma digits_value_of_N (n : N) : digits_value 0 (digits_of_N n) = Z.of_N n.
Proof.
  unfold digits_of_N. rewrite digits_value_uint.
  change (Pos.of_uint (N.to_uint n)) with (N.of_uint (N.to_uint n)).
  now rewrite DecimalN.Unsigned.of_to.
Qed.

Lemma ascii_digit_cases (c : char) :
  is_ascii_digit c = true ->
  c = 48%N \/ c = 49%N \/ c = 50%N \/ c = 51%N \/ c = 52%N \/ c = 53%N
  \/ c = 54%N \/ c = 55%N \/ c = 56%N \/ c = 57%N.
Proof. intros R. apply in_range_spec in R. lia. Qed.

Lemma chars_of_uint_of_chars (ds : pystr) :
  forallb is_ascii_digit ds = true -> chars_of_uint (uint_of_chars ds) = ds.
Proof.
  induction ds as [|c ds IH]; simpl; [reflexivity|].
  intros A. apply andb_true_iff in A. destruct A as [C A].
  destruct (ascii_digit_cases c C) as [->|[->|[->|[->|[->|[->|[->|[->|[->| ->]]]]]]]]];
    cbn; now rewrite IH.
Qed.

Lemma digits_nonempty (n : N) : digits_of_N n <> [].
Proof.
  unfold digits_of_N. destruct n as [|p]; [discriminate|]. cbn [N.to_uint].
  pose proof (DecimalPos.Unsigned.to_uint_nonnil p) as NN.
  destruct (Pos.to_uint p); try discriminate. now destruct NN.
Qed.

Lemma unorm_to_uint (n : N) : Decimal.unorm (N.to_uint n) = N.to_uint n.
Proof.
  rewrite <- (DecimalN.Unsigned.of_to n) at 2.
  now rewrite DecimalN.Unsigned.to_of.
Qed.

Lemma canonical_unorm (u : Decimal.uint) :
  Decimal.unorm u = u -> canonical_digits (chars_of_uint u) = true.
Proof.
  intros U. destruct u; cbn [chars_of_uint canonical_digits];
    try (change (N.eqb _ 48) with false; cbn iota; rewrite chars_of_uint_digits;
         reflexivity).
  - discriminate.
  - change (N.eqb 48 48) with true. cbn iota.
    rewrite DecimalFacts.unorm_D0 in U. unfold Decimal.unorm in U.
    destruct (Decimal.nzhead u) eqn:Z;
      [ injection U as U'; subst u; reflexivity
      | exfalso; exact (DecimalFacts.nzhead_nonzero _ _ Z)
      | discriminate U .. ].
Qed.

Lemma digits_canonical (n : N) : canonical_digits (digits_of_N n) = true.
Proof. apply canonical_unorm, unorm_to_uint. Qed.

Lemma canonical_all_digits (ds : pystr) :
  canonical_digits ds = true -> forallb is_ascii_digit ds = true.
Proof.
  destruct ds as [|c r]; [discriminate|]. cbn [canonical_digits forallb].
  destruct (N.eqb c 48) eqn:E.
  - apply N.eqb_eq in E; subst. now destruct r.
  - intros A. apply andb_true_iff in A. destruct A as [C A]. rewrite A.
    apply in_range_spec in C. unfold is_ascii_digit.
    rewrite (proj2 (in_range_spec 48 57 c)); [reflexivity|lia].
Qed.

Lemma unorm_canonical (ds : pystr) :
  canonical_digits ds = true ->
  Decimal.unorm (uint_of_chars ds) = uint_of_chars ds.
Proof.
  destruct ds as [|c r]; [discriminate|]. cbn [canonical_digits uint_of_chars].
  destruct (N.eqb c 48) eqn:E.
  - apply N.eqb_eq in E; subst. destruct r; [reflexivity|discriminate].
  - intros A. apply andb_true_iff in A. destruct A as [C _].
    apply in_range_spec in C.
    assert (D : c = 49%N \/ c = 50%N \/ c = 51%N \/ c = 52%N \/ c = 53%N
                \/ c = 54%N \/ c = 55%N \/ c = 56%N \/ c = 57%N) by lia.
    destruct D as [->|[->|[->|[->|[->|[->|[->|[->| ->]]]]]]]]; reflexivity.
Qed.

(** Reading then printing a canonical numeral. *)
Lemma digits_of_value (ds : pystr) :
  canonical_digits ds = true ->
  digits_of_N (Z.to_N (digits_value 0 ds)) = ds.
Proof.
  intros C. pose proof (canonical_all_digits ds C) as A.
  rewrite <- (chars_of_uint_of_chars ds A) at 1.
  rewrite digits_value_uint, N2Z.id. unfold digits_of_N.
  change (Pos.of_uint (uint_of_chars ds)) with (N.of_uint (uint_of_chars ds)).
  rewrite DecimalN.Unsigned.to_of, unorm_canonical by exact C.
  now apply chars_of_uint_of_chars.
Qed.

(** ** Number literals *)

Lemma at_delimiter_cases (c : char) (r : pystr) :
  at_delimiter (c :: r) = true -> c = 44%N \/ c = 93%N \/ c = 125%N.
Proof.
  cbn. intros D. apply orb_true_iff in D. destruct D as [D|D].
  - apply orb_true_iff in D. destruct D as [D|D]; apply N.eqb_eq in D; auto.
  - apply N.eqb_eq in D; auto.
Qed.

Lemma at_delimiter_stops (rest : pystr) :
  at_delimiter rest = true -> stops_at is_ascii_digit rest = true.
Proof.
  destruct rest as [|c r]; [reflexivity|]. cbn. intros D.
  apply negb_true_iff. unfold is_ascii_digit.
  destruct (in_range 48 57 c) eqn:R; [|reflexivity].
  apply in_range_spec in R. apply (at_delimiter_cases c r) in D. lia.
Qed.

Lemma scan_fraction_app (a rest : pystr) :
  at_delimiter rest = true ->
  scan_fraction (a ++ rest)
  = (fst (scan_fraction a), snd (scan_fraction a) ++ rest).
Proof.
  intros D. pose proof (at_delimiter_stops rest D) as S.
  destruct a as [|dot [|d r]]; cbn [app scan_fraction fst snd].
  - destruct rest as [|x [|y rest]]; try reflexivity.
    assert (E : N.eqb x 46 = false).
    { apply at_delimiter_cases in D. apply N.eqb_neq; lia. }
    cbn [scan_fraction app]. rewrite E. reflexivity.
  - destruct rest as [|x rest]; [reflexivity|].
    cbn in S. apply negb_true_iff in S. rewrite S, andb_false_r. reflexivity.
  - destruct (N.eqb dot 46 && is_ascii_digit d); cbn [fst snd]; [|reflexivity].
    now rewrite take_while_app, drop_while_app.
Qed.

Lemma scan_exponent_app (a rest : pystr) :
  at_delimiter rest = true ->
  scan_exponent (a ++ rest)
  = (fst (scan_exponent a), snd (scan_exponent a) ++ rest).
Proof.
  intros D. pose proof (at_delimiter_stops rest D) as S.
  assert (T : take_while is_ascii_digit rest = []).
  { destruct rest as [|x rest]; [reflexivity|]. cbn in S |- *.
    apply negb_true_iff in S. now rewrite S. }
  destruct a as [|e r]; cbn [app].
  - destruct rest as [|x rest]; [reflexivity|]. cbn [scan_exponent].
    destruct (N.eqb x 101 || N.eqb x 69) eqn:E; [|reflexivity].
    apply at_delimiter_cases in D. apply orb_true_iff in E.
    destruct E as [E|E]; apply N.eqb_eq in E; exfalso; lia.
  - cbn [scan_exponent]. destruct (N.eqb e 101 || N.eqb e 69); [|reflexivity].
    destruct r as [|sg r1]; cbn [app].
    + destruct rest as [|x rest]; [reflexivity|].
      assert (X : N.eqb x 45 = false /\ N.eqb x 43 = false).
      { apply at_delimiter_cases in D. split; apply N.eqb_neq; lia. }
      destruct X as [-> ->]. rewrite T. reflexivity.
    + destruct (N.eqb sg 45); [|destruct (N.eqb sg 43)].
      * rewrite take_while_app, drop_while_app by exact S.
        now destruct (take_while is_ascii_digit r1).
      * rewrite take_while_app, drop_while_app by exact S.
        now destruct (take_while is_ascii_digit r1).
      * change (sg :: r1 ++ rest) with ((sg :: r1) ++ rest).
        rewrite take_while_app, drop_while_app by exact S.
        now destruct (take_while is_ascii_digit (sg :: r1)).
Qed.

(** A number literal is read the same with a delimiter after it. *)
Lemma match_number_app (t rest : pystr) :
  at_delimiter rest = true ->
  match_number (t ++ rest) = leaving (match_number t) rest.
Proof.
  intros D. pose proof (at_delimiter_stops rest D) as S.
  assert (M : forall s1 neg,
             match s1 ++ rest with
             | [] => Malformed
             | c :: r =>
                 if in_range 48 57 c then
                   let '(ipart, rest0) :=
                     if N.eqb c 48 then ([c], r)
                     else (c :: take_while is_ascii_digit r, drop_while is_ascii_digit r) in
                   let '(frac, rest1) := scan_fraction rest0 in
                   let '(ex, rest2) := scan_exponent rest1 in
                   match frac, ex with
                   | [], None =>
                       if Nat.leb (List.length ipart) int_max_str_digits
                       then Scanned (PInt (cond_Zopp neg (digits_value 0 ipart))) rest2
                       else Overlong (if neg then 45%N :: ipart else ipart)
                   | _, _ =>
                       Scanned (PFloat (float_of_literal neg ipart frac
                                          (match ex with Some e => e | None => 0%Z end))) rest2
                   end
                 else Malformed
             end
             = leaving
                 (match s1 with
                  | [] => Malformed
                  | c :: r =>
                      if in_range 48 57 c then
                        let '(ipart, rest0) :=
                          if N.eqb c 48 then ([c], r)
                          else (c :: take_while is_ascii_digit r, drop_while is_ascii_digit r) in
                        let '(frac, rest1) := scan_fraction rest0 in
                        let '(ex, rest2) := scan_exponent rest1 in
                        match frac, ex with
                        | [], None =>
                            if Nat.leb (List.length ipart) int_max_str_digits
                            then Scanned (PInt (cond_Zopp neg (digits_value 0 ipart))) rest2
                            else Overlong (if neg then 45%N :: ipart else ipart)
                        | _, _ =>
                            Scanned (PFloat (float_of_literal neg ipart frac
                                               (match ex with Some e => e | None => 0%Z end))) rest2
                        end
                      else Malformed
                  end) rest).
  { intros s1 neg. destruct s1 as [|c r]; cbn [app].
    - destruct rest as [|x rest]; [reflexivity|].
      cbn in S. apply negb_true_iff in S. unfold is_ascii_digit in S. now rewrite S.
    - destruct (in_range 48 57 c); [|reflexivity].
      assert (E : (if N.eqb c 48 then ([c], r ++ rest)
                   else (c :: take_while is_ascii_digit (r ++ rest),
                         drop_while is_ascii_digit (r ++ rest)))
                  = (fst (if N.eqb c 48 then ([c], r)
                          else (c :: take_while is_ascii_digit r,
                                drop_while is_ascii_digit r)),
                     snd (if N.eqb c 48 then ([c], r)
                          else (c :: take_while is_ascii_digit r,
                                drop_while is_ascii_digit r)) ++ rest)).
      { destruct (N.eqb c 48); cbn [fst snd]; [reflexivity|].
        now rewrite take_while_app, drop_while_app. }
      rewrite E. clear E.
      destruct (if N.eqb c 48 then ([c], r)
                else (c :: take_while is_ascii_digit r, drop_while is_ascii_digit r))
        as [ipart rest0]. cbn [fst snd].
      rewrite scan_fraction_app by exact D.
      destruct (scan_fraction rest0) as [frac rest1]. cbn [fst snd].
      rewrite scan_exponent_app by exact D.
      destruct (scan_exponent rest1) as [ex rest2]. cbn [fst snd].
      destruct frac, ex; try reflexivity.
      now destruct (Nat.leb (List.length ipart) int_max_str_digits). }
  unfold match_number. destruct t as [|c t]; cbn [app].
  - destruct rest as [|x rest]; [reflexivity|].
    assert (X : N.eqb x 45 = false).
    { apply at_delimiter_cases in D. apply N.eqb_neq; lia. }
    rewrite X. exact (M [] false).
  - destruct (N.eqb c 45).
    + exact (M t true).
    + exact (M (c :: t) false).
Qed.

(** ** String literals *)

Lemma scanstring_unicode (h1 h2 h3 h4 : char) (r2 : pystr) :
  scanstring (92%N :: 117%N :: h1 :: h2 :: h3 :: h4 :: r2)
  = match hex4 h1 h2 h3 h4 with
    | None => Malformed
    | Some u =>
        if is_high_surrogate u then
          match r2 with
          | b :: u' :: g1 :: g2 :: g3 :: g4 :: r3 =>
              if N.eqb b 92 && N.eqb u' 117 then
                match hex4 g1 g2 g3 g4 with
                | None => Malformed
                | Some u2 =>
                    if is_low_surrogate u2
                    then scanned_cons (join_surrogates u u2) (scanstring r3)
                    else scanned_cons u (scanstring r2)
                end
              else scanned_cons u (scanstring r2)
          | _ => scanned_cons u (scanstring r2)
          end
        else scanned_cons u (scanstring r2)
    end.
Proof. reflexivity. Qed.

Lemma scanstring_plain (c : char) (r : pystr) :
  N.eqb c 34 = false -> N.eqb c 92 = false -> N.leb c 31 = false ->
  scanstring (c :: r) = scanned_cons c (scanstring r).
Proof. intros A B C. cbn [scanstring]. now rewrite A, B, C. Qed.

Lemma hex_value_digit (n : N) :
  (n < 16)%N -> hex_value (hex_digit n) = Some n.
Proof.
  intros L. destruct n as [|p]; [reflexivity|].
  do 4 (try destruct p as [p|p|]); try reflexivity; exfalso; lia.
Qed.

Lemma hex4_text_reads (c : N) :
  (c < 65536)%N ->
  hex4 (hex_digit (c / 4096)) (hex_digit ((c / 256) mod 16))
       (hex_digit ((c / 16) mod 16)) (hex_digit (c mod 16)) = Some c.
Proof.
  intros L. unfold hex4.
  rewrite !hex_value_digit;
    try (apply N.mod_lt; discriminate);
    try (apply N.Div0.div_lt_upper_bound; lia).
  f_equal.
  pose proof (N.Div0.div_mod c 16) as E0.
  pose proof (N.Div0.div_mod (c / 16) 16) as E1.
  pose proof (N.Div0.div_mod (c / 256) 16) as E2.
  replace (c / 256)%N with (c / 16 / 16)%N in * by (rewrite N.Div0.div_div; reflexivity).
  replace (c / 4096)%N with (c / 16 / 16 / 16)%N by (rewrite !N.Div0.div_div; reflexivity).
  lia.
Qed.

Lemma unicode_escape_reads (u : N) (t : pystr) :
  (u < 65536)%N ->
  (is_high_surrogate u = true -> low_escape_head t = false) ->
  scanstring (unicode_escape u ++ t) = scanned_cons u (scanstring t).
Proof.
  intros L H. unfold unicode_escape, hex4_text. cbn [app].
  rewrite scanstring_unicode, hex4_text_reads by exact L.
  destruct (is_high_surrogate u); [|reflexivity].
  specialize (H eq_refl).
  destruct t as [|b [|u' [|g1 [|g2 [|g3 [|g4 r3]]]]]]; try reflexivity.
  cbn [low_escape_head] in H.
  destruct (N.eqb b 92) eqn:B; [|reflexivity].
  destruct (N.eqb u' 117) eqn:U; [|reflexivity].
  cbn [andb] in H |- *.
  apply N.eqb_eq in B. apply N.eqb_eq in U. subst b u'.
  rewrite scanstring_unicode.
  destruct (hex4 g1 g2 g3 g4) as [u2|]; [|reflexivity].
  now rewrite H.
Qed.

Lemma surrogates_of (c : N) :
  (65536 <= c < 1114112)%N ->
  let hi := (55296 + (c - 65536) / 1024)%N in
  let lo := (56320 + (c - 65536) mod 1024)%N in
  is_high_surrogate hi = true /\ is_low_surrogate lo = true
  /\ is_low_surrogate hi = false
  /\ (hi < 65536)%N /\ (lo < 65536)%N /\ join_surrogates hi lo = c.
Proof.
  intros R. cbv zeta.
  pose proof (N.Div0.div_mod (c - 65536) 1024) as E.
  assert (M : ((c - 65536) mod 1024 < 1024)%N) by (apply N.mod_lt; discriminate).
  assert (D : ((c - 65536) / 1024 < 1024)%N)
    by (apply N.Div0.div_lt_upper_bound; lia).
  unfold is_high_surrogate, is_low_surrogate, join_surrogates.
  set (q := ((c - 65536) / 1024)%N) in *. set (r := ((c - 65536) mod 1024)%N) in *.
  clearbody q r.
  split; [apply in_range_spec; lia|].
  split; [apply in_range_spec; lia|].
  split; [apply not_true_is_false; intros A; apply in_range_spec in A; lia|].
  split; [lia|]. split; lia.
Qed.

(** Each escape reads back as its character. *)
Lemma escape_reads (c : char) (t : pystr) :
  (c < 1114112)%N ->
  (is_high_surrogate c = true -> low_escape_head t = false) ->
  scanstring (escape_char c ++ t) = scanned_cons c (scanstring t).
Proof.
  intros L H. unfold escape_char.
  destruct (N.eqb c 34) eqn:E1; [apply N.eqb_eq in E1; subst; reflexivity|].
  destruct (N.eqb c 92) eqn:E2; [apply N.eqb_eq in E2; subst; reflexivity|].
  destruct (N.eqb c 10) eqn:E3; [apply N.eqb_eq in E3; subst; reflexivity|].
  destruct (N.eqb c 13) eqn:E4; [apply N.eqb_eq in E4; subst; reflexivity|].
  destruct (N.eqb c 9) eqn:E5; [apply N.eqb_eq in E5; subst; reflexivity|].
  destruct (N.eqb c 8) eqn:E6; [apply N.eqb_eq in E6; subst; reflexivity|].
  destruct (N.eqb c 12) eqn:E7; [apply N.eqb_eq in E7; subst; reflexivity|].
  destruct (in_range 32 126 c) eqn:R.
  { apply in_range_spec in R. apply scanstring_plain; auto.
    apply N.leb_gt. lia. }
  destruct (N.ltb c 65536) eqn:S.
  { apply N.ltb_lt in S. now apply unicode_escape_reads. }
  apply N.ltb_ge in S.
  destruct (surrogates_of c (conj S L)) as (Hh & Hl & Hn & Lh & Ll & J).
  rewrite <- app_assoc.
  unfold unicode_escape at 1, hex4_text at 1. cbn [app].
  rewrite scanstring_unicode, hex4_text_reads, Hh by exact Lh.
  unfold unicode_escape, hex4_text. cbn [app].
  change (N.eqb 92 92 && N.eqb 117 117) with true. cbn iota.
  rewrite hex4_text_reads, Hl, J by exact Ll. reflexivity.
Qed.

Lemma low_escape_head_other (c : char) (t : pystr) :
  N.eqb c 92 = false -> low_escape_head (c :: t) = false.
Proof.
  intros E. destruct t as [|a [|b [|c' [|d [|e t]]]]]; try reflexivity.
  cbn [low_escape_head]. now rewrite E.
Qed.

(** No escape of a character that is not a low surrogate starts like the
    escape of one. *)
Lemma escape_not_low_head (c : char) (t : pystr) :
  (c < 1114112)%N -> is_low_surrogate c = false ->
  low_escape_head (escape_char c ++ t) = false.
Proof.
  intros L H. unfold escape_char.
  assert (Two : forall x, N.eqb x 117 = false ->
                          low_escape_head ([92%N; x] ++ t) = false).
  { intros x X. cbn [app]. destruct t as [|a [|b [|c' [|d t]]]]; try reflexivity.
    cbn [low_escape_head]. now rewrite X, andb_false_r. }
  destruct (N.eqb c 34); [now apply Two|].
  destruct (N.eqb c 92) eqn:E2; [now apply Two|].
  destruct (N.eqb c 10); [now apply Two|].
  destruct (N.eqb c 13); [now apply Two|].
  destruct (N.eqb c 9); [now apply Two|].
  destruct (N.eqb c 8); [now apply Two|].
  destruct (N.eqb c 12); [now apply Two|].
  destruct (in_range 32 126 c).
  { cbn [app]. now apply low_escape_head_other. }
  destruct (N.ltb c 65536) eqn:S.
  { apply N.ltb_lt in S. unfold unicode_escape, hex4_text. cbn [app low_escape_head].
    rewrite hex4_text_reads by exact S. now rewrite H. }
  apply N.ltb_ge in S.
  destruct (surrogates_of c (conj S L)) as (Hh & Hl & Hn & Lh & Ll & J).
  rewrite <- app_assoc. unfold unicode_escape at 1, hex4_text at 1.
  cbn [app low_escape_head]. rewrite hex4_text_reads by exact Lh. now rewrite Hn.
Qed.

(** The body of a literal reads back as the text. *)
Lemma scanstring_escaped (s rest : pystr) :
  encodable s = true ->
  scanstring (flat_map escape_char s ++ 34%N :: rest) = Scanned s rest.
Proof.
  induction s as [|c s IH]; intros E.
  - reflexivity.
  - cbn [encodable] in E. apply andb_true_iff in E. destruct E as [E Es].
    apply andb_true_iff in E. destruct E as [Lc Pc].
    apply N.ltb_lt in Lc. apply negb_true_iff in Pc.
    cbn [flat_map]. rewrite <- app_assoc, escape_reads.
    + now rewrite IH.
    + exact Lc.
    + intros Hh. rewrite Hh in Pc. cbn [andb] in Pc.
      destruct s as [|d s]; [now apply low_escape_head_other|].
      cbn [flat_map]. rewrite <- app_assoc. apply escape_not_low_head; [|exact Pc].
      cbn [encodable] in Es. apply andb_true_iff in Es. destruct Es as [Es _].
      apply andb_true_iff in Es. destruct Es as [Ld _]. now apply N.ltb_lt.
Qed.

(** ** Values *)

Lemma float_eqb_eq (f g : spec_float) : float_eqb f g = true -> f = g.
Proof.
  destruct f as [a|a| |a m e], g as [b|b| |b n e']; cbn; try discriminate;
    try reflexivity.
  - intros E. apply Bool.eqb_prop in E. now subst.
  - intros E. apply Bool.eqb_prop in E. now subst.
  - intros E. apply andb_true_iff in E. destruct E as [E Ee].
    apply andb_true_iff in E. destruct E as [Ea Em].
    apply Bool.eqb_prop in Ea. apply Pos.eqb_eq in Em. apply Z.eqb_eq in Ee.
    now subst.
Qed.

Lemma match_number_head (t : pystr) (v : pyval) (r : pystr) :
  match_number t = Scanned v r -> number_head t = true.
Proof.
  unfold match_number, number_head. destruct t as [|c t]; [discriminate|].
  destruct (N.eqb c 45) eqn:E.
  - apply N.eqb_eq in E; subst c. cbn [andb orb].
    destruct t as [|d t]; [discriminate|].
    unfold is_ascii_digit. destruct (in_range 48 57 d); [|discriminate].
    intros _. apply orb_true_r.
  - unfold is_ascii_digit. destruct (in_range 48 57 c); [|discriminate].
    reflexivity.
Qed.

(** A text that starts like a number is scanned as a number. *)
Lemma scan_once_number (n : nat) (t : pystr) :
  number_head t = true -> scan_once (S n) t = match_number t.
Proof.
  destruct t as [|c t]; [discriminate|]. cbn [number_head].
  intros H. apply orb_true_iff in H.
  assert (C : (48 <= c <= 57)%N
              \/ (c = 45%N /\ exists d t', t = d :: t' /\ (48 <= d <= 57)%N)).
  { destruct H as [H|H].
    - left. now apply in_range_spec.
    - right. apply andb_true_iff in H. destruct H as [E D].
      apply N.eqb_eq in E. split; [exact E|].
      destruct t as [|d t']; [discriminate|]. exists d, t'. split; [reflexivity|].
      now apply in_range_spec. }
  cbn [scan_once].
  assert (N1 : N.eqb c 34 = false) by (apply N.eqb_neq; lia).
  assert (N2 : N.eqb c 123 = false) by (apply N.eqb_neq; lia).
  assert (N3 : N.eqb c 91 = false) by (apply N.eqb_neq; lia).
  rewrite N1, N2, N3.
  assert (S1 : forall k p, (k <> c) -> startswith (k :: p) (c :: t) = false).
  { intros k p K. cbn [startswith]. apply N.eqb_neq in K. now rewrite K. }
  change (py "null") with (110%N :: py "ull").
  change (py "true") with (116%N :: py "rue").
  change (py "false") with (102%N :: py "alse").
  change (py "NaN") with (78%N :: py "aN").
  change (py "Infinity") with (73%N :: py "nfinity").
  change (py "-Infinity") with (45%N :: 73%N :: py "nfinity").
  rewrite !S1 by lia.
  destruct C as [C|(-> & d & t' & -> & D)].
  - rewrite S1 by lia. reflexivity.
  - cbn [startswith]. change (N.eqb 45 45) with true.
    assert (X : N.eqb 73 d = false) by (apply N.eqb_neq; lia).
    rewrite X. reflexivity.
Qed.

(** A canonical numeral, with or without a sign, is an integer literal. *)
Lemma match_number_canonical (neg : bool) (ds : pystr) :
  canonical_digits ds = true ->
  Nat.leb (List.length ds) int_max_str_digits = true ->
  match_number ((if neg then [45%N] else []) ++ ds)
  = Scanned (PInt (cond_Zopp neg (digits_value 0 ds))) [].
Proof.
  intros C L. pose proof (canonical_all_digits ds C) as A.
  destruct ds as [|c r]; [discriminate|].
  assert (R : in_range 48 57 c = true).
  { cbn [forallb] in A. apply andb_true_iff in A. exact (proj1 A). }
  assert (N45 : N.eqb c 45 = false).
  { apply in_range_spec in R. apply N.eqb_neq. lia. }
  assert (Body : match c :: r with
                 | [] => Malformed
                 | c0 :: r0 =>
                     if in_range 48 57 c0 then
                       let '(ipart, rest) :=
                         if N.eqb c0 48 then ([c0], r0)
                         else (c0 :: take_while is_ascii_digit r0,
                               drop_while is_ascii_digit r0) in
                       let '(frac, rest1) := scan_fraction rest in
                       let '(ex, rest2) := scan_exponent rest1 in
                       match frac, ex with
                       | [], None =>
                           if Nat.leb (List.length ipart) int_max_str_digits
                           then Scanned (PInt (cond_Zopp neg (digits_value 0 ipart))) rest2
                           else Overlong (if neg then 45%N :: ipart else ipart)
                       | _, _ =>
                           Scanned (PFloat (float_of_literal neg ipart frac
                                              (match ex with Some e => e | None => 0%Z end)))
                                   rest2
                       end
                     else Malformed
                 end
                 = Scanned (PInt (cond_Zopp neg (digits_value 0 (c :: r)))) []).
  { rewrite R. cbn [canonical_digits] in C.
    destruct (N.eqb c 48) eqn:Z.
    - destruct r; [|discriminate]. cbn [scan_fraction scan_exponent].
      now rewrite L.
    - apply andb_true_iff in C. destruct C as [_ Dr].
      rewrite (take_while_all _ _ Dr), (drop_while_all _ _ Dr).
      cbn [scan_fraction scan_exponent]. now rewrite L. }
  unfold match_number. destruct neg; cbn [app].
  - change (N.eqb 45 45) with true. exact Body.
  - rewrite N45. exact Body.
Qed.

Lemma digits_of_Z_split (z : Z) :
  digits_of_Z z
  = (if (z <? 0)%Z then [45%N] else []) ++ digits_of_N (Z.abs_N z).
Proof. destruct z; reflexivity. Qed.

Lemma cond_Zopp_abs (z : Z) :
  cond_Zopp (z <? 0)%Z (Z.of_N (Z.abs_N z)) = z.
Proof. destruct z; cbn; try reflexivity. Qed.

Lemma match_number_int (z : Z) :
  Nat.leb (List.length (digits_of_N (Z.abs_N z))) int_max_str_digits = true ->
  match_number (digits_of_Z z) = Scanned (PInt z) [].
Proof.
  intros L. rewrite digits_of_Z_split, match_number_canonical.
  - now rewrite digits_value_of_N, cond_Zopp_abs.
  - apply digits_canonical.
  - exact L.
Qed.

Section ReadBack.
Context {interp : Interpreter}.

Lemma json_dumps_list (l : list pyval) : json_dumps (PList l) = 91%N :: list_text l.
Proof. reflexivity. Qed.

Lemma json_dumps_dict (d : dict) : json_dumps (PDict d) = 123%N :: dict_text d.
Proof. reflexivity. Qed.

(** The literal of a float that reads back is a number literal of it. *)
Lemma json_float_number (f : spec_float) :
  float_reads_back f = true ->
  (f = S754_nan \/ exists s, f = S754_infinity s)
  \/ (json_float f = float_repr f
      /\ match_number (float_repr f) = Scanned (PFloat f) []).
Proof.
  unfold float_reads_back. destruct f as [s|s| |s m e].
  - intros R. right. split; [reflexivity|].
    destruct (match_number _) as [[| | |g| | |] [|? ?]| | |]; try discriminate.
    apply float_eqb_eq in R. now subst.
  - intros _. left. right. now exists s.
  - intros _. left. now left.
  - intros R. right. split; [reflexivity|].
    destruct (match_number _) as [[| | |g| | |] [|? ?]| | |]; try discriminate.
    apply float_eqb_eq in R. now subst.
Qed.


Lemma number_value_head (t : pystr) : number_head t = true -> value_head t = true.
Proof.
  destruct t as [|c t]; [discriminate|]. cbn [number_head value_head].
  intros H. apply orb_true_iff in H.
  assert (C : (48 <= c <= 57)%N \/ c = 45%N).
  { destruct H as [H|H]; [left; now apply in_range_spec|right].
    apply andb_true_iff in H. now apply N.eqb_eq. }
  unfold is_json_space.
  assert (E : forall k, k <> c -> N.eqb c k = false)
    by (intros k K; apply N.eqb_neq; congruence).
  rewrite !E by lia. reflexivity.
Qed.

Lemma dumps_value_head (x : pyval) :
  sound x = true -> floats_read_back x = true -> value_head (json_dumps x) = true.
Proof.
  intros S F. destruct x as [| [|] | z | f | s | l | d]; try reflexivity.
  - cbn [json_dumps]. apply number_value_head.
    apply match_number_head with (v := PInt z) (r := []).
    now apply match_number_int.
  - cbn [json_dumps floats_read_back] in *.
    destruct (json_float_number f F) as [[->|[[|] ->]]|[E M]]; try reflexivity.
    rewrite E. apply number_value_head. now apply match_number_head in M.
Qed.

Lemma skip_ws_value (s rest : pystr) :
  value_head s = true -> skip_ws (s ++ rest) = s ++ rest.
Proof.
  destruct s as [|c s]; [discriminate|]. cbn [value_head app]. intros H.
  apply andb_true_iff in H. destruct H as [H _]. apply negb_true_iff in H.
  unfold skip_ws. cbn [drop_while]. now rewrite H.
Qed.

Lemma skip_ws_delimiter (s : pystr) : at_delimiter s = true -> skip_ws s = s.
Proof.
  destruct s as [|c s]; [reflexivity|]. intros D.
  apply at_delimiter_cases in D. unfold skip_ws. cbn [drop_while].
  assert (E : is_json_space c = false).
  { unfold is_json_space.
    assert (X : forall k, k <> c -> N.eqb c k = false)
      by (intros k K; apply N.eqb_neq; congruence).
    rewrite !X by lia. reflexivity. }
  now rewrite E.
Qed.

End ReadBack.

(** ** Lists and objects *)

Lemma unique_fresh (a b : list pystr) (k : pystr) :
  unique (a ++ k :: b) = true -> existsb (pystr_eqb k) a = false.
Proof.
  induction a as [|x a IH]; cbn [app unique existsb]; [reflexivity|].
  intros U. apply andb_true_iff in U. destruct U as [F U].
  apply negb_true_iff in F. rewrite (IH U), orb_false_r.
  rewrite pystr_eqb_sym. rewrite existsb_app in F. apply orb_false_iff in F.
  destruct F as [_ F]. cbn [existsb] in F. apply orb_false_iff in F. exact (proj1 F).
Qed.

Lemma dict_set_fresh (acc : dict) (k : pystr) (v : pyval) :
  existsb (pystr_eqb k) (map fst acc) = false -> dict_set acc k v = acc ++ [(k, v)].
Proof.
  induction acc as [|[k' v'] acc IH]; cbn [map fst existsb dict_set app];
    [reflexivity|].
  intros F. apply orb_false_iff in F. destruct F as [E F].
  rewrite pystr_eqb_sym, E. now rewrite IH.
Qed.

(** Setting the members of an object with unique keys, in order, builds it. *)
Lemma fold_set_unique (d acc : dict) :
  unique (map fst (acc ++ d)) = true ->
  fold_left (fun a kv => dict_set a (fst kv) (snd kv)) d acc = acc ++ d.
Proof.
  revert acc; induction d as [|[k v] d IH]; intros acc U; cbn [fold_left fst snd].
  - now rewrite List.app_nil_r.
  - rewrite dict_set_fresh.
    + rewrite IH; rewrite <- List.app_assoc; [reflexivity|exact U].
    + rewrite map_app in U. cbn [map fst] in U. exact (unique_fresh _ _ _ U).
Qed.

Lemma scan_members_key (m : nat) (t : pystr) (acc : dict) :
  scan_members (S m) (34%N :: t) acc
  = match scanstring t with
    | Scanned key r1 =>
        match skip_ws r1 with
        | [] => Malformed
        | colon :: r2 =>
            if N.eqb colon 58 then
              match scan_once m (skip_ws r2) with
              | Scanned v r3 =>
                  match skip_ws r3 with
                  | [] => Malformed
                  | d :: r4 =>
                      if N.eqb d 125 then Scanned (dict_set acc key v) r4
                      else if N.eqb d 44
                      then scan_members m (skip_ws r4) (dict_set acc key v)
                      else Malformed
                  end
              | Malformed => Malformed
              | Overlong x => Overlong x
              | Exhausted => Exhausted
              end
            else Malformed
        end
    | Malformed => Malformed
    | Overlong x => Overlong x
    | Exhausted => Exhausted
    end.
Proof. reflexivity. Qed.

Lemma scan_elements_step (m : nat) (s : pystr) :
  scan_elements (S m) s
  = match scan_once m s with
    | Scanned v r1 =>
        match skip_ws r1 with
        | [] => Malformed
        | d :: r2 =>
            if N.eqb d 93 then Scanned [v] r2
            else if N.eqb d 44
            then scanned_map (cons v) (scan_elements m (skip_ws r2))
            else Malformed
        end
    | Malformed => Malformed
    | Overlong x => Overlong x
    | Exhausted => Exhausted
    end.
Proof. reflexivity. Qed.

Lemma skip_ws_space (s : pystr) : skip_ws (32%N :: s) = skip_ws s.
Proof. reflexivity. Qed.

Section ReadValues.
Context {interp : Interpreter}.


Lemma list_text_head (l : list pyval) :
  l <> [] -> forallb sound l = true -> forallb floats_read_back l = true ->
  value_head (list_text l) = true.
Proof.
  destruct l as [|v l]; [congruence|]. intros _ S F.
  cbn [forallb] in S, F. apply andb_true_iff in S. apply andb_true_iff in F.
  pose proof (dumps_value_head v (proj1 S) (proj1 F)) as H.
  cbn [list_text]. destruct (json_dumps v) as [|c t]; [discriminate|].
  now destruct l.
Qed.

Lemma scan_elements_dumps (l : list pyval) :
  Forall reads_back l -> l <> [] ->
  forallb sound l = true -> forallb floats_read_back l = true ->
  forall fuel rest,
    2 * List.length (list_text l ++ rest) + 1 < fuel ->
    scan_elements fuel (list_text l ++ rest) = Scanned l rest.
Proof.
  induction l as [|v l IH]; intros A NE S F fuel rest L; [congruence|].
  inversion A as [|? ? Av Al]; subst.
  cbn [forallb] in S, F. apply andb_true_iff in S. apply andb_true_iff in F.
  destruct S as [Sv Sl], F as [Fv Fl].
  destruct fuel as [|m]; [lia|]. rewrite scan_elements_step.
  destruct l as [|w l].
  - assert (T : list_text [v] ++ rest = json_dumps v ++ 93%N :: rest).
    { cbn [list_text]. now rewrite <- List.app_assoc. }
    rewrite T in *.
    rewrite (Av Sv Fv m (93%N :: rest)); [|reflexivity|lia].
    rewrite skip_ws_delimiter by reflexivity. reflexivity.
  - assert (T : list_text (v :: w :: l) ++ rest
                = json_dumps v ++ 44%N :: 32%N :: (list_text (w :: l) ++ rest)).
    { cbn [list_text]. now rewrite <- List.app_assoc. }
    rewrite T in *. rewrite !List.length_app in L. cbn [List.length] in L.
    rewrite (Av Sv Fv m); [|reflexivity|rewrite List.length_app; cbn [List.length]; lia].
    rewrite skip_ws_delimiter by reflexivity.
    change (N.eqb 44 93) with false. change (N.eqb 44 44) with true. cbn iota.
    rewrite skip_ws_space, skip_ws_value
      by (apply list_text_head; [discriminate|exact Sl|exact Fl]).
    rewrite IH; [reflexivity|exact Al|discriminate|exact Sl|exact Fl|lia].
Qed.

Lemma dict_text_head (d : dict) (rest : pystr) :
  d <> [] -> exists t, dict_text d ++ rest = 34%N :: t.
Proof.
  destruct d as [|[k v] d]; [congruence|]. intros _.
  destruct d as [|[k' w] d]; cbn [dict_text]; unfold json_string;
    cbn [app]; eexists; reflexivity.
Qed.

Lemma scan_members_dumps (d : dict) :
  Forall (fun kv => reads_back (snd kv)) d -> d <> [] ->
  forallb (fun kv => encodable (fst kv) && sound (snd kv)) d = true ->
  forallb (fun kv => floats_read_back (snd kv)) d = true ->
  forall fuel rest acc,
    2 * List.length (dict_text d ++ rest) + 1 < fuel ->
    scan_members fuel (dict_text d ++ rest) acc
    = Scanned (fold_left (fun a kv => dict_set a (fst kv) (snd kv)) d acc) rest.
Proof.
  induction d as [|[k v] d IH]; intros A NE S F fuel rest acc L; [congruence|].
  inversion A as [|? ? Av Al]; subst. cbn [snd] in Av.
  cbn [forallb fst snd] in S, F. apply andb_true_iff in S. apply andb_true_iff in F.
  destruct S as [Skv Sd], F as [Fv Fd]. apply andb_true_iff in Skv.
  destruct Skv as [Ek Sv].
  destruct fuel as [|m]; [lia|].
  assert (T : exists tail,
             dict_text ((k, v) :: d) ++ rest
             = 34%N :: flat_map escape_char k
               ++ 34%N :: 58%N :: 32%N :: json_dumps v ++ tail
             /\ at_delimiter tail = true
             /\ match tail with
                | c :: r4 =>
                    (c = 125%N /\ r4 = rest /\ d = [])
                    \/ (c = 44%N /\ r4 = 32%N :: dict_text d ++ rest /\ d <> [])
                | [] => False
                end).
  { destruct d as [|[k' w] d].
    - exists (125%N :: rest). split; [|split; [reflexivity|now left]].
      cbn [dict_text]. unfold json_string. cbn [app].
      rewrite <- !List.app_assoc. cbn [app]. rewrite <- !List.app_assoc. reflexivity.
    - exists (44%N :: 32%N :: dict_text ((k', w) :: d) ++ rest).
      split; [|split; [reflexivity|right; repeat split; discriminate]].
      cbn [dict_text]. unfold json_string. cbn [app].
      rewrite <- !List.app_assoc. cbn [app]. rewrite <- !List.app_assoc. reflexivity. }
  destruct T as (tail & T & D & Shape). rewrite T in *.
  cbn [List.length] in L. rewrite List.length_app in L. cbn [List.length] in L.
  rewrite scan_members_key, scanstring_escaped by exact Ek.
  change (skip_ws (58%N :: 32%N :: json_dumps v ++ tail))
    with (58%N :: 32%N :: json_dumps v ++ tail).
  change (N.eqb 58 58) with true. cbn iota.
  rewrite skip_ws_space, skip_ws_value by (now apply dumps_value_head).
  rewrite (Av Sv Fv m tail D) by lia.
  rewrite skip_ws_delimiter by exact D.
  destruct tail as [|c r4]; [contradiction|].
  destruct Shape as [(-> & -> & ->)|(-> & -> & NEd)].
  - reflexivity.
  - change (N.eqb 44 125) with false. change (N.eqb 44 44) with true. cbn iota.
    rewrite skip_ws_space.
    destruct (dict_text_head d rest NEd) as [t Ht].
    assert (W : skip_ws (dict_text d ++ rest) = dict_text d ++ rest)
      by (rewrite Ht; reflexivity).
    rewrite W. cbn [fold_left fst snd].
    apply IH; auto.
    rewrite List.length_app in L. cbn [List.length] in L. lia.
Qed.

End ReadValues.

Lemma number_head_app (t rest : pystr) :
  number_head t = true -> number_head (t ++ rest) = true.
Proof.
  destruct t as [|c [|d t]]; [discriminate| |]; cbn [number_head app]; intros H.
  - rewrite andb_false_r, orb_false_r in H. now rewrite H.
  - exact H.
Qed.

Lemma value_head_app (t rest : pystr) :
  value_head t = true -> value_head (t ++ rest) = true.
Proof. destruct t; [discriminate|]. intros H; exact H. Qed.

Section ReadDumps.
Context {interp : Interpreter}.

Lemma scan_once_object (m : nat) (t : pystr) :
  scan_once (S m) (123%N :: 34%N :: t)
  = scanned_map PDict (scan_members m (34%N :: t) []).
Proof. reflexivity. Qed.

Lemma scan_once_array (m : nat) (t : pystr) :
  value_head t = true ->
  scan_once (S m) (91%N :: t) = scanned_map PList (scan_elements m t).
Proof.
  destruct t as [|c t]; [discriminate|]. cbn [value_head]. intros H.
  apply andb_true_iff in H. destruct H as [W B].
  apply negb_true_iff in W. apply negb_true_iff in B.
  cbn [scan_once]. change (N.eqb 91 34) with false. change (N.eqb 91 123) with false.
  change (N.eqb 91 91) with true. cbn iota.
  unfold skip_ws. cbn [drop_while]. now rewrite W, B.
Qed.

(** A sound value whose floats read back is scanned back from its text. *)
Lemma scan_once_dumps (x : pyval) : reads_back x.
Proof.
  induction x as [| b | z | f | s | l IH | d IH] using pyval_induction;
    intros S F fuel rest D L; (destruct fuel as [|m]; [lia|]).
  - destruct rest; reflexivity.
  - destruct b, rest; reflexivity.
  - cbn [sound] in S. cbn [json_dumps].
    pose proof (match_number_int z S) as M.
    rewrite scan_once_number.
    + now rewrite match_number_app, M.
    + apply number_head_app. now apply match_number_head in M.
  - cbn [floats_read_back] in F. cbn [json_dumps].
    destruct (json_float_number f F) as [[->|[[|] ->]]|[E M]].
    + destruct rest; reflexivity.
    + destruct rest; reflexivity.
    + destruct rest; reflexivity.
    + rewrite E, scan_once_number.
      * now rewrite match_number_app, M.
      * apply number_head_app. now apply match_number_head in M.
  - cbn [sound] in S. cbn [json_dumps]. unfold json_string. cbn [app].
    rewrite <- List.app_assoc. cbn [app scan_once].
    change (N.eqb 34 34) with true. cbn iota.
    now rewrite scanstring_escaped.
  - cbn [sound floats_read_back] in S, F. rewrite json_dumps_list in *.
    cbn [app] in *. cbn [List.length] in L.
    destruct l as [|v l].
    + reflexivity.
    + rewrite scan_once_array
        by (apply value_head_app, list_text_head;
            [discriminate|exact S|exact F]).
      rewrite scan_elements_dumps;
        [reflexivity|exact IH|discriminate|exact S|exact F|lia].
  - cbn [sound floats_read_back] in S, F. apply andb_true_iff in S.
    destruct S as [U S]. rewrite json_dumps_dict in *.
    cbn [app] in *. cbn [List.length] in L.
    destruct d as [|kv d].
    + reflexivity.
    + destruct (dict_text_head (kv :: d) rest) as [t Ht]; [discriminate|].
      assert (M : scan_members m (dict_text (kv :: d) ++ rest) []
                  = Scanned (fold_left (fun a e => dict_set a (fst e) (snd e))
                                       (kv :: d) []) rest)
        by (apply scan_members_dumps;
            [exact IH|discriminate|exact S|exact F|lia]).
      rewrite Ht in *. rewrite scan_once_object, M.
      cbn [scanned_map]. now rewrite fold_set_unique.
Qed.

End ReadDumps.

(* ================================================================== *)
(** * What [json.loads] reads from a Unicode text *)



Lemma tail_of_refl (s : pystr) : tail_of s s.
Proof. now exists []. Qed.

Lemma tail_of_cons (rest r : pystr) (c : char) : tail_of rest r -> tail_of rest (c :: r).
Proof. intros [p ->]. now exists (c :: p). Qed.

Lemma tail_of_trans (a b c : pystr) : tail_of a b -> tail_of b c -> tail_of a c.
Proof. intros [p ->] [q ->]. exists (q ++ p). now rewrite List.app_assoc. Qed.

Lemma tail_of_drop_while (f : char -> bool) (s : pystr) : tail_of (drop_while f s) s.
Proof. exists (take_while f s). symmetry. apply take_drop_while. Qed.

Lemma tail_of_skipn (n : nat) (s : pystr) : tail_of (skipn n s) s.
Proof. exists (firstn n s). symmetry. apply firstn_skipn. Qed.

Lemma tail_of_length (rest s : pystr) :
  tail_of rest s -> List.length rest <= List.length s.
Proof. intros [p ->]. rewrite List.length_app. lia. Qed.

Lemma unicode_tail (rest s : pystr) :
  tail_of rest s -> is_unicode_text s = true -> is_unicode_text rest = true.
Proof.
  intros [p ->]. unfold is_unicode_text. rewrite forallb_app.
  intros U. apply andb_true_iff in U. exact (proj2 U).
Qed.

Create HintDb tails.

#[local] Hint Resolve tail_of_refl tail_of_cons tail_of_drop_while tail_of_skipn : tails.

Lemma hex_value_bound (c : char) (x : N) : hex_value c = Some x -> (x < 16)%N.
Proof.
  unfold hex_value.
  destruct (in_range 48 57 c) eqn:A; [apply in_range_spec in A; intros [= <-]; lia|].
  destruct (in_range 97 102 c) eqn:B; [apply in_range_spec in B; intros [= <-]; lia|].
  destruct (in_range 65 70 c) eqn:C; [apply in_range_spec in C; intros [= <-]; lia|].
  discriminate.
Qed.

Lemma hex4_bound (a b c d : char) (u : N) : hex4 a b c d = Some u -> (u < 65536)%N.
Proof.
  unfold hex4.
  destruct (hex_value a) as [x|] eqn:A; [|discriminate].
  destruct (hex_value b) as [y|] eqn:B; [|discriminate].
  destruct (hex_value c) as [z|] eqn:C; [|discriminate].
  destruct (hex_value d) as [w|] eqn:D; [|discriminate].
  apply hex_value_bound in A, B, C, D. intros [= <-]. lia.
Qed.

Lemma simple_escape_bound (e x : char) : simple_escape e = Some x -> (x < 128)%N.
Proof.
  unfold simple_escape.
  repeat match goal with
         | |- context [if ?b then _ else _] => destruct b
         end; intros [= <-]; lia.
Qed.

Lemma scanned_cons_inv (c : char) (r : scanned pystr) (out rest : pystr) :
  scanned_cons c r = Scanned out rest ->
  exists out', r = Scanned out' rest /\ out = c :: out'.
Proof.
  destruct r as [o u| | |]; try discriminate. intros [= <- <-]. now exists o.
Qed.


(** One more character before a text that was read. *)
Lemma text_read_cons (u : char) (s s' out rest : pystr) :
  text_read s' out rest ->
  (u < 1114112)%N ->
  (is_high_surrogate u = true -> low_escape_head s' = false) ->
  tail_of s' s ->
  (is_low_surrogate u = true -> low_escape_head s = true) ->
  text_read s (u :: out) rest.
Proof.
  intros (E & T & H) B Hi T' Lo. split; [|split].
  - cbn [encodable]. rewrite E, andb_true_r.
    apply andb_true_iff. split; [now apply N.ltb_lt|].
    apply negb_true_iff. destruct (is_high_surrogate u) eqn:Hu; [|reflexivity].
    specialize (Hi eq_refl). cbn [andb]. destruct out as [|d out]; [reflexivity|].
    cbn in H. destruct (is_low_surrogate d); [|reflexivity].
    specialize (H eq_refl). congruence.
  - exact (tail_of_trans _ _ _ T T').
  - exact Lo.
Qed.

Lemma unicode_cons (c : char) (r : pystr) :
  is_unicode_text (c :: r) = true ->
  (c < 1114112)%N /\ ~ (55296 <= c <= 57343)%N /\ is_unicode_text r = true.
Proof.
  unfold is_unicode_text. cbn [forallb]. intros U.
  apply andb_true_iff in U. destruct U as [C U].
  apply andb_true_iff in C. destruct C as [B S].
  apply N.ltb_lt in B. apply negb_true_iff in S.
  repeat split; [exact B| |exact U].
  intros R. apply in_range_spec in R. congruence.
Qed.

(** Facts on surrogates as inequalities. *)
Ltac surrogate_bounds :=
  unfold is_high_surrogate, is_low_surrogate, join_surrogates in *;
  repeat match goal with
         | H : in_range _ _ _ = true |- _ => apply in_range_spec in H
         | H : in_range ?a ?b ?c = false |- _ =>
             assert (~ (a <= c <= b)%N)
               by (intros ?R; apply in_range_spec in R; congruence);
             clear H
         end.

(** The text read by [scanstring] from a Unicode text can be written back:
    a high surrogate in it is never followed by a low one. *)
Lemma scanstring_read (n : nat) (s : pystr) :
  List.length s <= n -> is_unicode_text s = true ->
  forall out rest, scanstring s = Scanned out rest -> text_read s out rest.
Proof.
  revert s; induction n as [|n IH]; intros s L U out rest.
  { destruct s; [discriminate|cbn in L; lia]. }
  destruct s as [|c r]; [discriminate|].
  destruct (unicode_cons c r U) as (Bc & Sc & Ur).
  assert (Step : forall u s' o,
             tail_of s' r ->
             scanned_cons u (scanstring s') = Scanned o rest ->
             (u < 1114112)%N ->
             (is_high_surrogate u = true -> low_escape_head s' = false) ->
             (is_low_surrogate u = true -> low_escape_head (c :: r) = true) ->
             text_read (c :: r) o rest).
  { intros u s' o T X B Hi Lo. apply scanned_cons_inv in X.
    destruct X as (o' & X & ->).
    apply IH in X.
    - eapply text_read_cons; [exact X|exact B|exact Hi|now apply tail_of_cons|exact Lo].
    - apply tail_of_length in T. cbn [List.length] in L. lia.
    - exact (unicode_tail _ _ T Ur). }
  cbn [scanstring].
  destruct (N.eqb c 34) eqn:Q.
  { intros [= <- <-]. split; [reflexivity|split; [auto with tails|exact I]]. }
  destruct (N.eqb c 92) eqn:B.
  - apply N.eqb_eq in B; subst c.
    destruct r as [|e r1]; [discriminate|].
    destruct (N.eqb e 117) eqn:E.
    + apply N.eqb_eq in E; subst e.
      destruct r1 as [|h1 [|h2 [|h3 [|h4 r2]]]]; try discriminate.
      destruct (hex4 h1 h2 h3 h4) as [u|] eqn:H4; [|discriminate].
      pose proof (hex4_bound _ _ _ _ _ H4) as Bu.
      assert (T2 : tail_of r2 (117%N :: h1 :: h2 :: h3 :: h4 :: r2))
        by (now exists [117%N; h1; h2; h3; h4]).
      destruct (is_high_surrogate u) eqn:Hu.
      * assert (Lo : is_low_surrogate u = true
                     -> low_escape_head
                          (92%N :: 117%N :: h1 :: h2 :: h3 :: h4 :: r2) = true)
          by (intros Lu; exfalso; surrogate_bounds; lia).
        destruct r2 as [|b [|u' [|g1 [|g2 [|g3 [|g4 r3]]]]]];
          try (intros X; apply (Step u _ _ T2 X); [lia|reflexivity|exact Lo]).
        destruct (N.eqb b 92 && N.eqb u' 117) eqn:BU.
        -- destruct (hex4 g1 g2 g3 g4) as [u2|] eqn:G4; [|discriminate].
           destruct (is_low_surrogate u2) eqn:Lu2.
           ++ intros X.
              assert (T3 : tail_of r3
                             (117%N :: h1 :: h2 :: h3 :: h4
                              :: b :: u' :: g1 :: g2 :: g3 :: g4 :: r3))
                by (now exists [117%N; h1; h2; h3; h4; b; u'; g1; g2; g3; g4]).
              apply (Step _ _ _ T3 X).
              ** surrogate_bounds; lia.
              ** intros Hj; exfalso; surrogate_bounds; lia.
              ** intros Lj; exfalso; surrogate_bounds; lia.
           ++ intros X. apply (Step u _ _ T2 X); [lia| |exact Lo].
              intros _. cbn [low_escape_head]. now rewrite BU, G4, Lu2.
        -- intros X. apply (Step u _ _ T2 X); [lia| |exact Lo].
           intros _. cbn [low_escape_head]. now rewrite BU.
      * intros X. apply (Step u _ _ T2 X); [lia|congruence|].
        intros Lu. cbn [low_escape_head]. rewrite H4. exact Lu.
    + destruct (simple_escape e) as [x|] eqn:SE; [|discriminate].
      apply simple_escape_bound in SE.
      intros X. apply (Step x r1 _ (tail_of_cons _ _ _ (tail_of_refl r1)) X);
        [lia| |]; intros S; exfalso; surrogate_bounds; lia.
  - destruct (N.leb c 31); [discriminate|].
    intros X. apply (Step c r _ (tail_of_refl r) X);
      [exact Bc| |]; intros S; exfalso; surrogate_bounds; lia.
Qed.

(** ** Numbers *)

Lemma digits_value_nonneg (ds : pystr) (acc : Z) :
  (0 <= acc)%Z -> (0 <= digits_value acc ds)%Z.
Proof.
  revert acc; induction ds as [|c ds IH]; intros acc A; cbn [digits_value]; [exact A|].
  apply IH. unfold decimal_value.
  destruct (find _ decimal_zeros); lia.
Qed.

Lemma scan_fraction_tail (s : pystr) : tail_of (snd (scan_fraction s)) s.
Proof.
  unfold scan_fraction. destruct s as [|dot [|d r]]; auto with tails.
  destruct (N.eqb dot 46 && is_ascii_digit d); cbn [snd]; auto with tails.
Qed.

Lemma scan_exponent_tail (s : pystr) : tail_of (snd (scan_exponent s)) s.
Proof.
  unfold scan_exponent. destruct s as [|e r]; auto with tails.
  destruct (N.eqb e 101 || N.eqb e 69); auto with tails.
  destruct r as [|sg r1].
  - cbn. auto with tails.
  - destruct (N.eqb sg 45).
    + destruct (take_while is_ascii_digit r1); cbn [snd]; auto with tails.
    + destruct (N.eqb sg 43).
      * destruct (take_while is_ascii_digit r1); cbn [snd]; auto with tails.
      * destruct (take_while is_ascii_digit (sg :: r1)); cbn [snd]; auto with tails.
Qed.

(** The integer part of a number literal is a canonical numeral. *)
Lemma integer_part_canonical (c : char) (r : pystr) :
  in_range 48 57 c = true ->
  canonical_digits
    (fst (if N.eqb c 48 then ([c], r)
          else (c :: take_while is_ascii_digit r, drop_while is_ascii_digit r)))
  = true.
Proof.
  intros R. destruct (N.eqb c 48) eqn:Z; cbn [fst canonical_digits]; rewrite Z.
  - reflexivity.
  - rewrite take_while_forallb, andb_true_r.
    apply N.eqb_neq in Z. apply in_range_spec in R. apply in_range_spec. lia.
Qed.

Lemma canonical_sound (neg : bool) (ds : pystr) :
  canonical_digits ds = true ->
  Nat.leb (List.length ds) int_max_str_digits = true ->
  sound (PInt (cond_Zopp neg (digits_value 0 ds))) = true.
Proof.
  intros C L. cbn [sound].
  pose proof (digits_value_nonneg ds 0 (Z.le_refl 0)) as P.
  assert (A : Z.abs_N (cond_Zopp neg (digits_value 0 ds))
              = Z.to_N (digits_value 0 ds)).
  { destruct neg; cbn [cond_Zopp].
    - rewrite Zabs2N.inj_opp. now apply Zabs2N.abs_N_nonneg.
    - now apply Zabs2N.abs_N_nonneg. }
  now rewrite A, digits_of_value.
Qed.

(** A number read by [match_number] is sound and leaves a tail. *)
Lemma match_number_sound (s : pystr) (v : pyval) (rest : pystr) :
  match_number s = Scanned v rest -> sound v = true /\ tail_of rest s.
Proof.
  assert (M : forall neg s1,
             match s1 with
             | [] => Malformed
             | c :: r =>
                 if in_range 48 57 c then
                   let '(ipart, rest) :=
                     if N.eqb c 48 then ([c], r)
                     else (c :: take_while is_ascii_digit r,
                           drop_while is_ascii_digit r) in
                   let '(frac, rest1) := scan_fraction rest in
                   let '(ex, rest2) := scan_exponent rest1 in
                   match frac, ex with
                   | [], None =>
                       if Nat.leb (List.length ipart) int_max_str_digits
                       then Scanned (PInt (cond_Zopp neg (digits_value 0 ipart))) rest2
                       else Overlong (if neg then 45%N :: ipart else ipart)
                   | _, _ =>
                       Scanned (PFloat (float_of_literal neg ipart frac
                                          (match ex with Some e => e | None => 0%Z end)))
                               rest2
                   end
                 else Malformed
             end = Scanned v rest ->
             sound v = true /\ tail_of rest s1).
  { intros neg [|c r]; [discriminate|].
    destruct (in_range 48 57 c) eqn:R; [|discriminate].
    pose proof (integer_part_canonical c r R) as C.
    assert (T : tail_of (snd (if N.eqb c 48 then ([c], r)
                              else (c :: take_while is_ascii_digit r,
                                    drop_while is_ascii_digit r))) (c :: r))
      by (destruct (N.eqb c 48); cbn [snd]; auto with tails).
    destruct (if N.eqb c 48 then _ else _) as [ipart rest0]. cbn [fst snd] in C, T.
    pose proof (scan_fraction_tail rest0) as T1.
    destruct (scan_fraction rest0) as [frac rest1]. cbn [snd] in T1.
    pose proof (scan_exponent_tail rest1) as T2.
    destruct (scan_exponent rest1) as [ex rest2]. cbn [snd] in T2.
    assert (T3 : tail_of rest2 (c :: r))
      by (eapply tail_of_trans; [exact T2|]; eapply tail_of_trans; [exact T1|exact T]).
    destruct frac as [|? ?], ex as [e|]; cbv beta iota;
      try (intros [= <- <-]; now split).
    match goal with
    | |- context [Nat.leb ?a ?b] => destruct (Nat.leb a b) eqn:L; [|discriminate]
    end.
    intros [= <- <-]. split; [now apply canonical_sound|exact T3]. }
  unfold match_number. destruct s as [|c r]; [discriminate|].
  destruct (N.eqb c 45).
  - intros X. destruct (M true r X) as [S T].
    split; [exact S|now apply tail_of_cons].
  - intros X. exact (M false (c :: r) X).
Qed.

(** ** Objects *)

Lemma dict_set_keys (d : dict) (k x : pystr) (v : pyval) :
  existsb (pystr_eqb x) (map fst (dict_set d k v))
  = existsb (pystr_eqb x) (map fst d) || pystr_eqb x k.
Proof.
  induction d as [|[k' v'] d IH]; cbn [dict_set map fst existsb].
  - now rewrite orb_false_r.
  - destruct (pystr_eqb k' k) eqn:E; cbn [map fst existsb].
    + apply pystr_eqb_eq in E; subst k'.
      destruct (pystr_eqb x k), (existsb (pystr_eqb x) (map fst d)); reflexivity.
    + rewrite IH. now rewrite orb_assoc.
Qed.

Lemma dict_set_unique (d : dict) (k : pystr) (v : pyval) :
  unique (map fst d) = true -> unique (map fst (dict_set d k v)) = true.
Proof.
  induction d as [|[k' v'] d IH]; cbn [dict_set map fst unique]; [reflexivity|].
  intros U. apply andb_true_iff in U. destruct U as [F U].
  destruct (pystr_eqb k' k) eqn:E; cbn [map fst unique].
  - now rewrite F, U.
  - rewrite (IH U), andb_true_r, dict_set_keys, E, orb_false_r. exact F.
Qed.

Lemma dict_set_forallb (P : pystr * pyval -> bool) (d : dict) (k : pystr) (v : pyval) :
  (forall k', pystr_eqb k' k = true -> P (k', v) = true) ->
  forallb P d = true -> forallb P (dict_set d k v) = true.
Proof.
  intros Pk. induction d as [|[k' v'] d IH]; cbn [dict_set forallb].
  - intros _. rewrite Pk; [reflexivity|apply pystr_eqb_refl].
  - intros A. apply andb_true_iff in A. destruct A as [A0 A].
    destruct (pystr_eqb k' k) eqn:E; cbn [forallb].
    + now rewrite (Pk k' E), A.
    + now rewrite A0, IH.
Qed.

(** Setting a sound value at an encodable key keeps an object sound. *)
Lemma dict_set_sound (d : dict) (k : pystr) (v : pyval) :
  sound (PDict d) = true -> encodable k = true -> sound v = true ->
  sound (PDict (dict_set d k v)) = true.
Proof.
  cbn [sound]. intros S Ek Sv. apply andb_true_iff in S. destruct S as [U A].
  apply andb_true_iff. split; [now apply dict_set_unique|].
  apply dict_set_forallb; [|exact A].
  intros k' E. apply pystr_eqb_eq in E; subst k'. cbn [fst snd]. now rewrite Ek, Sv.
Qed.

Lemma dict_set_floats (P : pyval -> bool) (d : dict) (k : pystr) (v : pyval) :
  forallb (fun kv => P (snd kv)) d = true -> P v = true ->
  forallb (fun kv => P (snd kv)) (dict_set d k v) = true.
Proof. intros A Pv. apply dict_set_forallb; [intros k' _; exact Pv|exact A]. Qed.

(** ** Values *)

Lemma unicode_skip_ws (s : pystr) :
  is_unicode_text s = true -> is_unicode_text (skip_ws s) = true.
Proof. apply unicode_tail. unfold skip_ws. auto with tails. Qed.

(** What [scan_once] and its two loops read from a Unicode text is sound. *)
Lemma scan_sound (fuel : nat) :
  (forall s v rest,
      is_unicode_text s = true -> scan_once fuel s = Scanned v rest ->
      sound v = true /\ tail_of rest s)
  /\ (forall s acc d rest,
         is_unicode_text s = true -> sound (PDict acc) = true ->
         scan_members fuel s acc = Scanned d rest ->
         sound (PDict d) = true /\ tail_of rest s)
  /\ (forall s l rest,
         is_unicode_text s = true -> scan_elements fuel s = Scanned l rest ->
         forallb sound l = true /\ tail_of rest s).
Proof.
  induction fuel as [|n (IHo & IHm & IHe)]; [repeat split; discriminate|].
  split; [|split].
  - intros s v rest U. cbn [scan_once].
    destruct s as [|c r]; [discriminate|].
    destruct (unicode_cons c r U) as (_ & _ & Ur).
    destruct (N.eqb c 34).
    { destruct (scanstring r) as [o u| | |] eqn:X; try discriminate.
      intros [= <- <-].
      destruct (scanstring_read _ r (le_n _) Ur _ _ X) as (E & T & _).
      split; [exact E|now apply tail_of_cons]. }
    destruct (N.eqb c 123).
    { pose proof (tail_of_drop_while is_json_space r) as T.
      fold (skip_ws r) in T. pose proof (unicode_skip_ws r Ur) as Uw.
      destruct (skip_ws r) as [|c' r']; [discriminate|].
      destruct (N.eqb c' 125).
      - intros [= <- <-]. split; [reflexivity|].
        apply tail_of_cons. eapply tail_of_trans; [|exact T]. auto with tails.
      - destruct (scan_members n (c' :: r') []) as [d u| | |] eqn:X; try discriminate.
        intros [= <- <-]. destruct (IHm _ [] _ _ Uw eq_refl X) as [S T'].
        split; [exact S|]. apply tail_of_cons. exact (tail_of_trans _ _ _ T' T). }
    destruct (N.eqb c 91).
    { pose proof (tail_of_drop_while is_json_space r) as T.
      fold (skip_ws r) in T. pose proof (unicode_skip_ws r Ur) as Uw.
      destruct (skip_ws r) as [|c' r']; [discriminate|].
      destruct (N.eqb c' 93).
      - intros [= <- <-]. split; [reflexivity|].
        apply tail_of_cons. eapply tail_of_trans; [|exact T]. auto with tails.
      - destruct (scan_elements n (c' :: r')) as [l u| | |] eqn:X; try discriminate.
        intros [= <- <-]. destruct (IHe _ _ _ Uw X) as [S T'].
        split; [exact S|]. apply tail_of_cons. exact (tail_of_trans _ _ _ T' T). }
    destruct (startswith (py "null") (c :: r));
      [intros [= <- <-]; split; [reflexivity|exact (tail_of_skipn 4 (c :: r))]|].
    destruct (startswith (py "true") (c :: r));
      [intros [= <- <-]; split; [reflexivity|exact (tail_of_skipn 4 (c :: r))]|].
    destruct (startswith (py "false") (c :: r));
      [intros [= <- <-]; split; [reflexivity|exact (tail_of_skipn 5 (c :: r))]|].
    destruct (startswith (py "NaN") (c :: r));
      [intros [= <- <-]; split; [reflexivity|exact (tail_of_skipn 3 (c :: r))]|].
    destruct (startswith (py "Infinity") (c :: r));
      [intros [= <- <-]; split; [reflexivity|exact (tail_of_skipn 8 (c :: r))]|].
    destruct (startswith (py "-Infinity") (c :: r));
      [intros [= <- <-]; split; [reflexivity|exact (tail_of_skipn 9 (c :: r))]|].
    apply match_number_sound.
  - intros s acc d rest U A. cbn [scan_members].
    destruct s as [|q r]; [discriminate|].
    destruct (unicode_cons q r U) as (_ & _ & Ur).
    destruct (N.eqb q 34); [|discriminate].
    destruct (scanstring r) as [key r1| | |] eqn:X; try discriminate.
    destruct (scanstring_read _ r (le_n _) Ur _ _ X) as (Ek & T1 & _).
    pose proof (unicode_tail _ _ T1 Ur) as U1.
    pose proof (tail_of_drop_while is_json_space r1) as T2. fold (skip_ws r1) in T2.
    pose proof (unicode_skip_ws r1 U1) as U2.
    destruct (skip_ws r1) as [|colon r2]; [discriminate|].
    destruct (N.eqb colon 58); [|discriminate].
    destruct (unicode_cons colon r2 U2) as (_ & _ & Ur2).
    pose proof (tail_of_drop_while is_json_space r2) as T3. fold (skip_ws r2) in T3.
    pose proof (unicode_skip_ws r2 Ur2) as U3.
    destruct (scan_once n (skip_ws r2)) as [v r3| | |] eqn:Y; try discriminate.
    destruct (IHo _ _ _ U3 Y) as [Sv T4].
    pose proof (unicode_tail _ _ T4 U3) as U4.
    pose proof (tail_of_drop_while is_json_space r3) as T5. fold (skip_ws r3) in T5.
    pose proof (unicode_skip_ws r3 U4) as U5.
    assert (T6 : tail_of (skip_ws r3) (q :: r)).
    { apply tail_of_cons. eapply tail_of_trans; [exact T5|].
      eapply tail_of_trans; [exact T4|]. eapply tail_of_trans; [exact T3|].
      eapply tail_of_trans; [|exact T1]. eapply tail_of_trans; [|exact T2].
      auto with tails. }
    destruct (skip_ws r3) as [|e r4]; [discriminate|].
    pose proof (dict_set_sound acc key v A Ek Sv) as A'.
    destruct (unicode_cons e r4 U5) as (_ & _ & Ur4).
    assert (T7 : tail_of r4 (q :: r))
      by (eapply tail_of_trans; [|exact T6]; auto with tails).
    destruct (N.eqb e 125).
    + intros [= <- <-]. split; [exact A'|exact T7].
    + destruct (N.eqb e 44); [|discriminate].
      intros Z. apply IHm in Z; [|now apply unicode_skip_ws|exact A'].
      destruct Z as [S T8]. split; [exact S|].
      eapply tail_of_trans; [exact T8|]. eapply tail_of_trans; [|exact T7].
      unfold skip_ws. auto with tails.
  - intros s l rest U. cbn [scan_elements].
    destruct (scan_once n s) as [v r1| | |] eqn:Y; try discriminate.
    destruct (IHo _ _ _ U Y) as [Sv T1].
    pose proof (unicode_tail _ _ T1 U) as U1.
    pose proof (tail_of_drop_while is_json_space r1) as T2. fold (skip_ws r1) in T2.
    pose proof (unicode_skip_ws r1 U1) as U2.
    destruct (skip_ws r1) as [|e r2]; [discriminate|].
    destruct (unicode_cons e r2 U2) as (_ & _ & Ur2).
    assert (T3 : tail_of r2 s).
    { eapply tail_of_trans; [|exact T1]. eapply tail_of_trans; [|exact T2].
      auto with tails. }
    destruct (N.eqb e 93).
    + intros [= <- <-]. cbn [forallb]. rewrite Sv. split; [reflexivity|exact T3].
    + destruct (N.eqb e 44); [|discriminate].
      destruct (scan_elements n (skip_ws r2)) as [l' u| | |] eqn:Z; try discriminate.
      intros [= <- <-]. apply IHe in Z; [|now apply unicode_skip_ws].
      destruct Z as [S T4]. cbn [forallb]. rewrite Sv, S. split; [reflexivity|].
      eapply tail_of_trans; [exact T4|]. eapply tail_of_trans; [|exact T3].
      unfold skip_ws. auto with tails.
Qed.

(* ================================================================== *)
(** * The fuel of [json_loads] is never used up *)

Lemma leaves_tail_stop {A : Type} (s : pystr) : leaves_tail (@Malformed A) s.
Proof. split; [discriminate|intros v rest; discriminate]. Qed.

Lemma leaves_tail_scanned {A : Type} (v : A) (rest s : pystr) :
  tail_of rest s -> leaves_tail (Scanned v rest) s.
Proof. intros T. split; [discriminate|]. now intros v' rest' [= <- <-]. Qed.

Lemma leaves_tail_cons (u : char) (s' s : pystr) :
  leaves_tail (scanstring s') s' -> tail_of s' s ->
  leaves_tail (scanned_cons u (scanstring s')) s.
Proof.
  intros [N T] T'. destruct (scanstring s') as [o r| | |]; cbn; [| | |congruence].
  - apply leaves_tail_scanned. exact (tail_of_trans _ _ _ (T o r eq_refl) T').
  - apply leaves_tail_stop.
  - split; [discriminate|intros v rest; discriminate].
Qed.

(** [scanstring] uses no fuel, and leaves a tail of its text. *)
Lemma scanstring_leaves (n : nat) (s : pystr) :
  List.length s <= n -> leaves_tail (scanstring s) s.
Proof.
  revert s; induction n as [|n IH]; intros s L.
  { destruct s; [apply leaves_tail_stop|cbn in L; lia]. }
  destruct s as [|c r]; [apply leaves_tail_stop|].
  assert (Step : forall u s',
             tail_of s' r -> leaves_tail (scanned_cons u (scanstring s')) (c :: r)).
  { intros u s' T. apply leaves_tail_cons; [|now apply tail_of_cons].
    apply IH. apply tail_of_length in T. cbn [List.length] in L. lia. }
  cbn [scanstring].
  destruct (N.eqb c 34); [apply leaves_tail_scanned; auto with tails|].
  destruct (N.eqb c 92).
  - destruct r as [|e r1]; [apply leaves_tail_stop|].
    destruct (N.eqb e 117).
    + destruct r1 as [|h1 [|h2 [|h3 [|h4 r2]]]]; try apply leaves_tail_stop.
      destruct (hex4 h1 h2 h3 h4) as [u|]; [|apply leaves_tail_stop].
      assert (T2 : tail_of r2 (e :: h1 :: h2 :: h3 :: h4 :: r2))
        by (now exists [e; h1; h2; h3; h4]).
      destruct (is_high_surrogate u); [|exact (Step _ _ T2)].
      destruct r2 as [|b [|u' [|g1 [|g2 [|g3 [|g4 r3]]]]]];
        try exact (Step _ _ T2).
      destruct (N.eqb b 92 && N.eqb u' 117); [|exact (Step _ _ T2)].
      destruct (hex4 g1 g2 g3 g4) as [u2|]; [|apply leaves_tail_stop].
      destruct (is_low_surrogate u2); [|exact (Step _ _ T2)].
      apply (Step _ r3).
      now exists [e; h1; h2; h3; h4; b; u'; g1; g2; g3; g4].
    + destruct (simple_escape e); [|apply leaves_tail_stop].
      apply (Step _ r1). auto with tails.
  - destruct (N.leb c 31); [apply leaves_tail_stop|].
    apply (Step _ r). auto with tails.
Qed.

Lemma scanstring_tail (s out rest : pystr) :
  scanstring s = Scanned out rest -> tail_of rest s.
Proof. exact (proj2 (scanstring_leaves _ s (le_n _)) out rest). Qed.

Lemma match_number_fuel (s : pystr) : match_number s <> Exhausted.
Proof.
  assert (M : forall neg s1,
             match s1 with
             | [] => Malformed
             | c :: r =>
                 if in_range 48 57 c then
                   let '(ipart, rest) :=
                     if N.eqb c 48 then ([c], r)
                     else (c :: take_while is_ascii_digit r,
                           drop_while is_ascii_digit r) in
                   let '(frac, rest1) := scan_fraction rest in
                   let '(ex, rest2) := scan_exponent rest1 in
                   match frac, ex with
                   | [], None =>
                       if Nat.leb (List.length ipart) int_max_str_digits
                       then Scanned (PInt (cond_Zopp neg (digits_value 0 ipart))) rest2
                       else Overlong (if neg then 45%N :: ipart else ipart)
                   | _, _ =>
                       Scanned (PFloat (float_of_literal neg ipart frac
                                          (match ex with Some e => e | None => 0%Z end)))
                               rest2
                   end
                 else Malformed
             end <> Exhausted).
  { intros neg [|c r]; [discriminate|].
    destruct (in_range 48 57 c); [|discriminate].
    destruct (if N.eqb c 48 then _ else _) as [ipart rest0].
    destruct (scan_fraction rest0) as [frac rest1].
    destruct (scan_exponent rest1) as [ex rest2].
    destruct frac as [|? ?], ex as [e|]; cbv beta iota; try discriminate.
    match goal with
    | |- context [Nat.leb ?a ?b] => destruct (Nat.leb a b); discriminate
    end. }
  unfold match_number. destruct s as [|c r]; [discriminate|].
  destruct (N.eqb c 45); [exact (M true r)|exact (M false (c :: r))].
Qed.

(** What a scan leaves is a tail of what it was given. *)
Lemma scan_tail (fuel : nat) :
  (forall s v rest, scan_once fuel s = Scanned v rest -> tail_of rest s)
  /\ (forall s acc d rest, scan_members fuel s acc = Scanned d rest -> tail_of rest s)
  /\ (forall s l rest, scan_elements fuel s = Scanned l rest -> tail_of rest s).
Proof.
  induction fuel as [|n (IHo & IHm & IHe)]; [repeat split; discriminate|].
  split; [|split].
  - intros s v rest. cbn [scan_once].
    destruct s as [|c r]; [discriminate|].
    destruct (N.eqb c 34).
    { destruct (scanstring r) as [o u| | |] eqn:X; try discriminate.
      intros [= <- <-]. apply tail_of_cons.
      exact (scanstring_tail _ _ _ X). }
    destruct (N.eqb c 123).
    { pose proof (tail_of_drop_while is_json_space r) as T. fold (skip_ws r) in T.
      destruct (skip_ws r) as [|c' r']; [discriminate|].
      destruct (N.eqb c' 125).
      - intros [= <- <-]. apply tail_of_cons.
        eapply tail_of_trans; [|exact T]. auto with tails.
      - destruct (scan_members n (c' :: r') []) as [d u| | |] eqn:X; try discriminate.
        intros [= <- <-]. apply tail_of_cons.
        exact (tail_of_trans _ _ _ (IHm _ _ _ _ X) T). }
    destruct (N.eqb c 91).
    { pose proof (tail_of_drop_while is_json_space r) as T. fold (skip_ws r) in T.
      destruct (skip_ws r) as [|c' r']; [discriminate|].
      destruct (N.eqb c' 93).
      - intros [= <- <-]. apply tail_of_cons.
        eapply tail_of_trans; [|exact T]. auto with tails.
      - destruct (scan_elements n (c' :: r')) as [l u| | |] eqn:X; try discriminate.
        intros [= <- <-]. apply tail_of_cons.
        exact (tail_of_trans _ _ _ (IHe _ _ _ X) T). }
    destruct (startswith (py "null") (c :: r));
      [intros [= <- <-]; exact (tail_of_skipn 4 (c :: r))|].
    destruct (startswith (py "true") (c :: r));
      [intros [= <- <-]; exact (tail_of_skipn 4 (c :: r))|].
    destruct (startswith (py "false") (c :: r));
      [intros [= <- <-]; exact (tail_of_skipn 5 (c :: r))|].
    destruct (startswith (py "NaN") (c :: r));
      [intros [= <- <-]; exact (tail_of_skipn 3 (c :: r))|].
    destruct (startswith (py "Infinity") (c :: r));
      [intros [= <- <-]; exact (tail_of_skipn 8 (c :: r))|].
    destruct (startswith (py "-Infinity") (c :: r));
      [intros [= <- <-]; exact (tail_of_skipn 9 (c :: r))|].
    intros X. exact (proj2 (match_number_sound _ _ _ X)).
  - intros s acc d rest. cbn [scan_members].
    destruct s as [|q r]; [discriminate|].
    destruct (N.eqb q 34); [|discriminate].
    destruct (scanstring r) as [key r1| | |] eqn:X; try discriminate.
    pose proof (scanstring_tail _ _ _ X) as T1.
    pose proof (tail_of_drop_while is_json_space r1) as T2. fold (skip_ws r1) in T2.
    destruct (skip_ws r1) as [|colon r2]; [discriminate|].
    destruct (N.eqb colon 58); [|discriminate].
    pose proof (tail_of_drop_while is_json_space r2) as T3. fold (skip_ws r2) in T3.
    destruct (scan_once n (skip_ws r2)) as [v r3| | |] eqn:Y; try discriminate.
    pose proof (IHo _ _ _ Y) as T4.
    pose proof (tail_of_drop_while is_json_space r3) as T5. fold (skip_ws r3) in T5.
    assert (T6 : tail_of (skip_ws r3) (q :: r)).
    { apply tail_of_cons. eapply tail_of_trans; [exact T5|].
      eapply tail_of_trans; [exact T4|]. eapply tail_of_trans; [exact T3|].
      eapply tail_of_trans; [|exact T1]. eapply tail_of_trans; [|exact T2].
      auto with tails. }
    destruct (skip_ws r3) as [|e r4]; [discriminate|].
    assert (T7 : tail_of r4 (q :: r))
      by (eapply tail_of_trans; [|exact T6]; auto with tails).
    destruct (N.eqb e 125); [intros [= <- <-]; exact T7|].
    destruct (N.eqb e 44); [|discriminate].
    intros Z. apply IHm in Z.
    eapply tail_of_trans; [exact Z|]. eapply tail_of_trans; [|exact T7].
    unfold skip_ws. auto with tails.
  - intros s l rest. cbn [scan_elements].
    destruct (scan_once n s) as [v r1| | |] eqn:Y; try discriminate.
    pose proof (IHo _ _ _ Y) as T1.
    pose proof (tail_of_drop_while is_json_space r1) as T2. fold (skip_ws r1) in T2.
    destruct (skip_ws r1) as [|e r2]; [discriminate|].
    assert (T3 : tail_of r2 s).
    { eapply tail_of_trans; [|exact T1]. eapply tail_of_trans; [|exact T2].
      auto with tails. }
    destruct (N.eqb e 93); [intros [= <- <-]; exact T3|].
    destruct (N.eqb e 44); [|discriminate].
    destruct (scan_elements n (skip_ws r2)) as [l' u| | |] eqn:Z; try discriminate.
    intros [= <- <-]. apply IHe in Z.
    eapply tail_of_trans; [exact Z|]. eapply tail_of_trans; [|exact T3].
    unfold skip_ws. auto with tails.
Qed.

(** With fuel past twice the length of the text, no scan runs out of it. *)
Lemma scan_fuel (fuel : nat) :
  (forall s, 2 * List.length s < fuel -> scan_once fuel s <> Exhausted)
  /\ (forall s acc, 2 * List.length s + 1 < fuel ->
                    scan_members fuel s acc <> Exhausted)
  /\ (forall s, 2 * List.length s + 1 < fuel -> scan_elements fuel s <> Exhausted).
Proof.
  induction fuel as [|n (IHo & IHm & IHe)]; [repeat split; intros; lia|].
  split; [|split].
  - intros s L. cbn [scan_once].
    destruct s as [|c r]; [discriminate|]. cbn [List.length] in L.
    destruct (N.eqb c 34).
    { pose proof (proj1 (scanstring_leaves _ r (le_n _))) as N.
      destruct (scanstring r); cbn; congruence. }
    destruct (N.eqb c 123).
    { pose proof (tail_of_length _ _ (tail_of_drop_while is_json_space r)) as T.
      fold (skip_ws r) in T.
      destruct (skip_ws r) as [|c' r']; [discriminate|].
      destruct (N.eqb c' 125); [discriminate|].
      assert (N : scan_members n (c' :: r') [] <> Exhausted) by (apply IHm; lia).
      destruct (scan_members n (c' :: r') []); cbn; congruence. }
    destruct (N.eqb c 91).
    { pose proof (tail_of_length _ _ (tail_of_drop_while is_json_space r)) as T.
      fold (skip_ws r) in T.
      destruct (skip_ws r) as [|c' r']; [discriminate|].
      destruct (N.eqb c' 93); [discriminate|].
      assert (N : scan_elements n (c' :: r') <> Exhausted) by (apply IHe; lia).
      destruct (scan_elements n (c' :: r')); cbn; congruence. }
    destruct (startswith (py "null") (c :: r)); [discriminate|].
    destruct (startswith (py "true") (c :: r)); [discriminate|].
    destruct (startswith (py "false") (c :: r)); [discriminate|].
    destruct (startswith (py "NaN") (c :: r)); [discriminate|].
    destruct (startswith (py "Infinity") (c :: r)); [discriminate|].
    destruct (startswith (py "-Infinity") (c :: r)); [discriminate|].
    apply match_number_fuel.
  - intros s acc L. cbn [scan_members].
    destruct s as [|q r]; [discriminate|]. cbn [List.length] in L.
    destruct (N.eqb q 34); [|discriminate].
    destruct (scanstring_leaves _ r (le_n _)) as [N1 T1].
    destruct (scanstring r) as [key r1| | |]; try discriminate; [|congruence].
    specialize (T1 _ _ eq_refl). apply tail_of_length in T1.
    pose proof (tail_of_length _ _ (tail_of_drop_while is_json_space r1)) as T2.
    fold (skip_ws r1) in T2.
    destruct (skip_ws r1) as [|colon r2]; [discriminate|]. cbn [List.length] in T2.
    destruct (N.eqb colon 58); [|discriminate].
    pose proof (tail_of_length _ _ (tail_of_drop_while is_json_space r2)) as T3.
    fold (skip_ws r2) in T3.
    assert (N2 : scan_once n (skip_ws r2) <> Exhausted) by (apply IHo; lia).
    destruct (scan_once n (skip_ws r2)) as [v r3| | |] eqn:Y;
      try discriminate; [|congruence].
    pose proof (tail_of_length _ _ (proj1 (scan_tail n) _ _ _ Y)) as T4.
    pose proof (tail_of_length _ _ (tail_of_drop_while is_json_space r3)) as T5.
    fold (skip_ws r3) in T5.
    destruct (skip_ws r3) as [|e r4]; [discriminate|]. cbn [List.length] in T5.
    destruct (N.eqb e 125); [discriminate|].
    destruct (N.eqb e 44); [|discriminate].
    pose proof (tail_of_length _ _ (tail_of_drop_while is_json_space r4)) as T6.
    fold (skip_ws r4) in T6.
    apply IHm. lia.
  - intros s L. cbn [scan_elements].
    assert (N1 : scan_once n s <> Exhausted) by (apply IHo; lia).
    destruct (scan_once n s) as [v r1| | |] eqn:Y; try discriminate; [|congruence].
    pose proof (tail_of_length _ _ (proj1 (scan_tail n) _ _ _ Y)) as T1.
    pose proof (tail_of_length _ _ (tail_of_drop_while is_json_space r1)) as T2.
    fold (skip_ws r1) in T2.
    destruct (skip_ws r1) as [|e r2]; [discriminate|]. cbn [List.length] in T2.
    destruct (N.eqb e 93); [discriminate|].
    destruct (N.eqb e 44); [|discriminate].
    pose proof (tail_of_length _ _ (tail_of_drop_while is_json_space r2)) as T3.
    fold (skip_ws r2) in T3.
    assert (N2 : scan_elements n (skip_ws r2) <> Exhausted) by (apply IHe; lia).
    destruct (scan_elements n (skip_ws r2)); cbn; congruence.
Qed.

(** The scan of [json_loads] ends before its fuel does, on every text. *)
Lemma json_loads_fuel (s : pystr) :
  scan_once (2 * List.length s + 1) (skip_ws s) <> Exhausted.
Proof.
  apply (proj1 (scan_fuel _)).
  pose proof (tail_of_length _ _ (tail_of_drop_while is_json_space s)) as T.
  fold (skip_ws s) in T. lia.
Qed.

(* ================================================================== *)
(** * The cleaned text is a part of the raw text *)


Lemma part_of_refl (s : pystr) : part_of s s.
Proof. exists [], []. now rewrite List.app_nil_r. Qed.

Lemma part_of_trans (a b c : pystr) : part_of a b -> part_of b c -> part_of a c.
Proof.
  intros (p & q & ->) (p' & q' & ->). exists (p' ++ p), (q ++ q').
  now rewrite <- !List.app_assoc.
Qed.

Lemma tail_part (m s : pystr) : tail_of m s -> part_of m s.
Proof. intros [p ->]. exists p, []. now rewrite List.app_nil_r. Qed.

Lemma head_part (m q : pystr) : part_of m (m ++ q).
Proof. now exists [], q. Qed.

Lemma unicode_part (m s : pystr) :
  part_of m s -> is_unicode_text s = true -> is_unicode_text m = true.
Proof.
  intros (a & b & ->). unfold is_unicode_text. rewrite !forallb_app.
  intros U. apply andb_true_iff in U. destruct U as [_ U].
  apply andb_true_iff in U. exact (proj1 U).
Qed.

Lemma rstrip_cons (c : char) (s : pystr) :
  rstrip (c :: s)
  = match rstrip s with
    | [] => if is_space c then [] else [c]
    | _ :: _ => c :: rstrip s
    end.
Proof. reflexivity. Qed.

Lemma rstrip_head (s : pystr) : exists q, s = rstrip s ++ q.
Proof.
  induction s as [|c s [q E]]; [now exists []|]. rewrite rstrip_cons.
  destruct (rstrip s) as [|x t].
  - destruct (is_space c); [now exists (c :: s)|]. exists s. reflexivity.
  - exists q. cbn [app] in *. now rewrite <- E.
Qed.

Lemma strip_part (s : pystr) : part_of (strip s) s.
Proof.
  unfold strip. eapply part_of_trans; [|apply tail_part, tail_of_drop_while].
  destruct (rstrip_head (drop_while is_space s)) as [q E].
  rewrite E at 2. apply head_part.
Qed.

Lemma firstn_part (n : nat) (s : pystr) : part_of (firstn n s) s.
Proof. rewrite <- (firstn_skipn n s) at 2. apply head_part. Qed.

Lemma unfence_part (s : pystr) : part_of (unfence s) s.
Proof.
  unfold unfence.
  assert (P : part_of (if startswith (py "```json") s then skipn 7 s
                       else if startswith (py "```") s then skipn 3 s else s) s).
  { destruct (startswith (py "```json") s); [apply tail_part, tail_of_skipn|].
    destruct (startswith (py "```") s); [apply tail_part, tail_of_skipn|].
    apply part_of_refl. }
  destruct (endswith _ _); [|exact P].
  eapply part_of_trans; [|exact P]. apply firstn_part.
Qed.

Lemma extract_part (s : pystr) : part_of (extract_object s) s.
Proof.
  unfold extract_object, search_braces.
  pose proof (take_drop_while (fun c => negb (N.eqb c 123)) s) as E.
  destruct (drop_while _ s) as [|c r]; [apply part_of_refl|].
  destruct (upto_last_brace r) as [m|] eqn:U; cbn [option_map]; [|apply part_of_refl].
  apply upto_last_brace_some in U. destruct U as (body & post & -> & -> & _).
  exists (take_while (fun c => negb (N.eqb c 123)) s), post.
  etransitivity; [symmetry; exact E|]. cbn [app]. now rewrite <- List.app_assoc.
Qed.

Lemma clean_part (raw : pystr) : part_of (clean_response raw) raw.
Proof.
  unfold clean_response.
  eapply part_of_trans; [apply extract_part|].
  eapply part_of_trans; [apply strip_part|].
  eapply part_of_trans; [apply unfence_part|apply strip_part].
Qed.

(** [json.loads] of a Unicode text returns a sound value. *)
Lemma json_loads_sound (s : pystr) (v : pyval) :
  is_unicode_text s = true -> json_loads s = Returns v -> sound v = true.
Proof.
  intros U. unfold json_loads. destruct (startswith _ s); [discriminate|].
  destruct (scan_once _ _) as [x rest| | |] eqn:X; try discriminate.
  destruct (skip_ws rest); [|discriminate]. intros [= <-].
  exact (proj1 (proj1 (scan_sound _) _ _ _ (unicode_skip_ws s U) X)).
Qed.

(* ================================================================== *)
(** * The Normalizer on its own output *)

Lemma rstrip_last (x : pystr) (c : char) :
  is_space c = false -> rstrip (x ++ [c]) = x ++ [c].
Proof.
  intros C. induction x as [|a x IH]; cbn [app].
  - rewrite rstrip_cons. cbn. now rewrite C.
  - rewrite rstrip_cons, IH. now destruct (x ++ [c]) eqn:E; [destruct x|].
Qed.

Lemma endswith_tail (p s : pystr) : endswith p s = true -> tail_of p s.
Proof.
  unfold endswith. intros E. apply andb_true_iff in E. destruct E as [_ E].
  apply pystr_eqb_eq in E. rewrite <- E. apply tail_of_skipn.
Qed.

Lemma strip_braced (body : pystr) :
  strip (123%N :: body ++ [125%N]) = 123%N :: body ++ [125%N].
Proof.
  unfold strip. cbn [drop_while]. change (is_space 123%N) with false. cbn iota.
  now apply (rstrip_last (123%N :: body)).
Qed.

Lemma unfence_braced (body : pystr) :
  unfence (123%N :: body ++ [125%N]) = 123%N :: body ++ [125%N].
Proof.
  unfold unfence.
  change (startswith (py "```json") (123%N :: body ++ [125%N])) with false.
  change (startswith (py "```") (123%N :: body ++ [125%N])) with false.
  cbn iota. destruct (endswith _ _) eqn:E; [|reflexivity].
  apply endswith_tail in E. destruct E as [q E].
  change (py "```") with ([96; 96] ++ [96])%N in E.
  rewrite List.app_assoc in E.
  apply (app_inj_tail (123%N :: body) (q ++ [96; 96]%N)) in E.
  destruct E as [_ E]. discriminate.
Qed.

Lemma extract_braced (body : pystr) :
  extract_object (123%N :: body ++ [125%N]) = 123%N :: body ++ [125%N].
Proof.
  unfold extract_object, search_braces. cbn [drop_while].
  change (negb (N.eqb 123%N 123%N)) with false. cbn iota.
  assert (U : upto_last_brace (body ++ [125%N]) = Some (body ++ [125%N])).
  { apply upto_last_brace_some. exists body, []. repeat split. intros []. }
  now rewrite U.
Qed.

Lemma clean_braced (body : pystr) :
  clean_response (123%N :: body ++ [125%N]) = 123%N :: body ++ [125%N].
Proof.
  unfold clean_response.
  now rewrite strip_braced, unfence_braced, strip_braced, extract_braced.
Qed.

Lemma dict_get_in (l : dict) (k : pystr) (v : pyval) :
  In (k, v) l -> exists w, dict_get k l = Some w.
Proof.
  induction l as [|[k' v'] l IH]; [intros []|]. cbn [In dict_get].
  destruct (pystr_eqb k' k) eqn:Q; [now exists v'|].
  intros [E|I]; [|exact (IH I)].
  injection E as -> ->. rewrite pystr_eqb_refl in Q. discriminate.
Qed.

Lemma fill_defaults_full (d : dict) (k : pystr) (v : pyval) :
  In (k, v) defaults -> dict_has k (fill_defaults d) = true.
Proof.
  intros I. unfold dict_has. rewrite fill_defaults_get.
  destruct (dict_get k d); [reflexivity|].
  destruct (dict_get_in _ _ _ I) as [w ->]. reflexivity.
Qed.

Lemma clamp_clamp (z : Z) : clamp (clamp z) = clamp z.
Proof. unfold clamp. lia. Qed.

(** Parsing a text that reads as a complete result, with its score an
    integer of the range, gives that result. *)
Lemma parse_cleaned_complete (r : dict) (z : Z) (t : pystr) :
  json_loads t = Returns (PDict r) ->
  dict_get k_score r = Some (PInt z) ->
  (0 <= z <= 100)%Z ->
  (forall k v, In (k, v) defaults -> dict_has k r = true) ->
  parse_cleaned t = Returns r.
Proof.
  intros L G B A. unfold parse_cleaned. rewrite L.
  cbn [bind contains_score getitem_score].
  unfold dict_has. rewrite G. cbn [negb bind py_int].
  assert (C : clamp z = z) by (unfold clamp; lia).
  rewrite C, (dict_set_same _ _ _ G).
  f_equal. now apply fill_from_full.
Qed.

Lemma clamp_sound (z : Z) : sound (PInt (clamp z)) = true.
Proof.
  cbn [sound].
  assert (A : forallb (fun k => Nat.leb (List.length (digits_of_N (N.of_nat k)))
                                        int_max_str_digits) (seq 0 101) = true)
    by (vm_compute; reflexivity).
  rewrite forallb_forall in A.
  assert (E : Z.abs_N (clamp z) = N.of_nat (Z.to_nat (clamp z)))
    by (unfold clamp; lia).
  rewrite E. apply A. apply in_seq. unfold clamp. lia.
Qed.

Lemma fill_from_sound (l d : dict) :
  forallb (fun kv => encodable (fst kv) && sound (snd kv)) l = true ->
  sound (PDict d) = true -> sound (PDict (fill_from l d)) = true.
Proof.
  revert d; induction l as [|[k v] l IH]; intros d A S; [exact S|].
  cbn [forallb fst snd] in A. apply andb_true_iff in A. destruct A as [A0 A].
  apply andb_true_iff in A0. destruct A0 as [Ek Sv].
  unfold fill_from. cbn [fold_left fst snd]. apply (IH _ A).
  destruct (dict_has k d); [exact S|now apply dict_set_sound].
Qed.

Lemma success_sound (d : dict) (z : Z) :
  sound (PDict d) = true ->
  sound (PDict (fill_defaults (dict_set d k_score (PInt (clamp z))))) = true.
Proof.
  intros S. apply fill_from_sound; [vm_compute; reflexivity|].
  apply dict_set_sound; [exact S|vm_compute; reflexivity|apply clamp_sound].
Qed.

Section Stability.
Context {interp : Interpreter}.

Lemma dict_text_last (d : dict) : exists body, dict_text d = body ++ [125%N].
Proof.
  induction d as [|[k v] d [body E]]; [now exists []|].
  destruct d as [|kv d].
  - exists (json_string k ++ 58%N :: 32%N :: json_dumps v). cbn [dict_text].
    repeat first [rewrite <- List.app_assoc | progress cbn [app]]. reflexivity.
  - exists (json_string k ++ 58%N :: 32%N :: json_dumps v ++ 44%N :: 32%N :: body).
    change (dict_text ((k, v) :: kv :: d))
      with (json_string k ++ 58%N :: 32%N :: json_dumps v
            ++ 44%N :: 32%N :: dict_text (kv :: d)).
    rewrite E. repeat first [rewrite <- List.app_assoc | progress cbn [app]].
    reflexivity.
Qed.

(** [json.loads] reads back the text of a sound object. *)
Lemma json_loads_dumps (d : dict) :
  sound (PDict d) = true -> floats_read_back (PDict d) = true ->
  json_loads (json_dumps (PDict d)) = Returns (PDict d).
Proof.
  intros S F.
  pose proof (scan_once_dumps (PDict d) S F
                (2 * List.length (json_dumps (PDict d)) + 1) [] eq_refl) as R.
  rewrite List.app_nil_r in R. specialize (R ltac:(lia)).
  unfold json_loads. rewrite json_dumps_dict in *.
  change (startswith [65279%N] (123%N :: dict_text d)) with false. cbn iota.
  change (skip_ws (123%N :: dict_text d)) with (123%N :: dict_text d).
  now rewrite R.
Qed.

Lemma clean_dumps (d : dict) :
  clean_response (json_dumps (PDict d)) = json_dumps (PDict d).
Proof.
  rewrite json_dumps_dict. destruct (dict_text_last d) as [body ->].
  apply clean_braced.
Qed.

End Stability.

Lemma encodable_after_low (a b : pystr) :
  forallb (fun c => N.ltb c 55296) a = true ->
  encodable b = true -> encodable (a ++ b) = true.
Proof.
  intros A B. induction a as [|c a IH]; [exact B|].
  cbn [forallb] in A. apply andb_true_iff in A. destruct A as [C A].
  cbn [app encodable]. rewrite (IH A), andb_true_r.
  apply N.ltb_lt in C. apply andb_true_iff. split; [apply N.ltb_lt; lia|].
  apply negb_true_iff.
  destruct (is_high_surrogate c) eqn:H; [|reflexivity].
  exfalso. surrogate_bounds. lia.
Qed.

(** A Unicode text is encodable. *)
Lemma unicode_encodable (s : pystr) :
  is_unicode_text s = true -> encodable s = true.
Proof.
  induction s as [|c s IH]; [reflexivity|]. intros U.
  destruct (unicode_cons c s U) as (B & S & Us).
  cbn [encodable]. rewrite (IH Us), andb_true_r.
  apply andb_true_iff. split; [now apply N.ltb_lt|].
  apply negb_true_iff. destruct (is_high_surrogate c) eqn:H; [|reflexivity].
  exfalso. surrogate_bounds. lia.
Qed.

Lemma py_int_raises (x : pyval) (e : exn) :
  py_int x = Raises e -> e = BuiltinError op_int x.
Proof.
  destruct x as [| b | z | f | s | l | d]; cbn [py_int]; try (now intros [= <-]);
    try discriminate.
  - destruct (float_trunc f); [discriminate|now intros [= <-]].
  - destruct (int_of_str s); [discriminate|now intros [= <-]].
Qed.

Section StableOutput.
Context {interp : Interpreter}.

(** A complete sound result, its score an integer of the range, is a fixed
    point of the Normalizer after re-encoding. *)
Lemma complete_result_is_stable (r : dict) (z : Z) :
  sound (PDict r) = true -> floats_read_back (PDict r) = true ->
  dict_get k_score r = Some (PInt z) -> (0 <= z <= 100)%Z ->
  (forall k v, In (k, v) defaults -> dict_has k r = true) ->
  _parse_score_response (PStr (json_dumps (PDict r))) = Returns r.
Proof.
  intros S F G B A. rewrite parse_text, clean_dumps.
  rewrite (parse_cleaned_complete r z); auto.
  now apply json_loads_dumps.
Qed.

Lemma success_result_is_stable (d : dict) (z : Z) :
  sound (PDict d) = true ->
  floats_read_back (PDict (fill_defaults (dict_set d k_score (PInt (clamp z))))) = true ->
  _parse_score_response
    (PStr (json_dumps (PDict (fill_defaults (dict_set d k_score (PInt (clamp z)))))))
  = Returns (fill_defaults (dict_set d k_score (PInt (clamp z)))).
Proof.
  intros S F. apply complete_result_is_stable with (z := clamp z).
  - now apply success_sound.
  - exact F.
  - rewrite fill_defaults_get, dict_get_set. now rewrite pystr_eqb_refl.
  - unfold clamp. lia.
  - intros k v I. now apply fill_defaults_full with (v := v).
Qed.

Lemma error_result_sound (e : exn) :
  encodable (str_exn e) = true -> sound (PDict (error_result e)) = true.
Proof.
  intros E.
  assert (W : encodable (py "Warning: Error: " ++ str_exn e) = true)
    by (apply encodable_after_low; [vm_compute; reflexivity|exact E]).
  unfold error_result, error_occurred. cbn [sound forallb fst snd].
  rewrite E, W. vm_compute. reflexivity.
Qed.

Lemma error_result_is_stable (e : exn) :
  encodable (str_exn e) = true ->
  _parse_score_response (PStr (json_dumps (PDict (error_result e))))
  = Returns (error_result e).
Proof.
  intros E. apply complete_result_is_stable with (z := 50%Z).
  - now apply error_result_sound.
  - reflexivity.
  - reflexivity.
  - lia.
  - intros k v I. unfold defaults in I. cbn [In] in I.
    repeat (destruct I as [I|I]; [injection I as <- <-; reflexivity|]).
    contradiction.
Qed.

(** C8. When the cleaned text of a raw Unicode text parses, with or without
    a usable score, the result the Normalizer returns is a fixed point:
    written as JSON text by [json.dumps] and normalized again, it comes
    back equal. The interpreter is only asked that the [repr] of each float
    of the result reads back as that float, and that the message of the
    exception raised after the parse, if there is one, is [encodable] (as
    every Unicode text is). *)
Theorem normalizer_output_is_stable (raw : pystr) (v : pyval) (result : dict) :
  is_unicode_text raw = true ->
  json_loads (clean_response raw) = Returns v ->
  _parse_score_response (PStr raw) = Returns result ->
  floats_read_back (PDict result) = true ->
  (forall e, parse_cleaned (clean_response raw) = Raises e ->
             encodable (str_exn e) = true) ->
  _parse_score_response (PStr (json_dumps (PDict result))) = Returns result.
Proof.
  intros U L R F T. rewrite parse_text in R.
  destruct (parse_cleaned_cases (clean_response raw))
    as [(d & x & z & L' & G & I & P)|[(L' & _)|(e & P & N)]].
  - rewrite P in R. injection R as <-.
    apply success_result_is_stable; [|exact F].
    apply (json_loads_sound (clean_response raw)); [|exact L'].
    exact (unicode_part _ _ (clean_part raw) U).
  - congruence.
  - rewrite P in R. specialize (T e P).
    destruct e as [doc|m|op x|m]; [now destruct (N doc)| | |];
      injection R as <-; now apply error_result_is_stable.
Qed.

End StableOutput.

(* ================================================================== *)
(** * Closed instances: witnesses and counterexamples *)

(** C2, as stated, fails: the model's [risk_level] and a null summary are
    passed through as they came. *)
Lemma untyped_fields_counterexample :
  _parse_score_response (interp := sample_interpreter) (PStr raw_untyped)
  = Returns
      [ (k_score, PInt 1);
        (k_risk_level, PStr (py "extreme"));
        (k_executive_summary, PNone);
        (k_market_analysis, PStr (py "Market data being analyzed..."));
        (k_origin_analysis, PStr (py "Origin analysis pending..."));
        (k_buyer_profile, PStr (py "Buyer analysis pending..."));
        (k_price_analysis, PStr (py "Price analysis pending..."));
        (k_payment_logistics, PStr (py "Payment analysis pending..."));
        (k_red_flags, PList []);
        (k_unusual_patterns, PList []);
        (k_strengths, PList []);
        (k_next_steps, PList []);
        (k_reasoning, PList []);
        (k_recommendation, PStr (py "Review detailed analysis")) ]
  /\ well_typed k_risk_level (PStr (py "extreme")) = false
  /\ well_typed k_executive_summary PNone = false.
Proof. repeat split; vm_compute; reflexivity. Qed.

(** C3 at the text whose only score is nested: the hypotheses hold. *)
Lemma missing_score_witness :
  _parse_score_response (interp := sample_interpreter) (PStr raw_nested_score)
  = Returns
      [ (k_score, PInt 50);
        (k_executive_summary, PStr (py "Warning: Error: Response missing 'score' field"));
        (k_market_analysis, PStr (py "Error occurred"));
        (k_origin_analysis, PStr (py "Error occurred"));
        (k_buyer_profile, PStr (py "Error occurred"));
        (k_price_analysis, PStr (py "Error occurred"));
        (k_payment_logistics, PStr (py "Error occurred"));
        (k_red_flags, PList [PStr (py "Response missing 'score' field")]);
        (k_unusual_patterns, PList []);
        (k_strengths, PList []);
        (k_next_steps, PList [PStr (py "Check error message"); PStr (py "Try again")]);
        (k_reasoning, PList [PStr (py "Warning: Unexpected error occurred")]);
        (k_recommendation, PStr (py "Try running analysis again"));
        (k_risk_level, PStr (py "medium")) ].
Proof.
  apply (missing_score_takes_generic_tier (interp := sample_interpreter)
           raw_nested_score [(py "x", PDict [(k_score, PInt 77)])]).
  - vm_compute. reflexivity.
  - vm_compute. reflexivity.
Defined.

(** C3, as stated, fails: the object parses and has no score, the pattern
    finds 77 in the raw text, and yet the score is 50 and the summary does
    not hold the raw text. *)
Lemma missing_score_counterexample :
  json_loads (clean_response raw_nested_score)
  = Returns (PDict [(py "x", PDict [(k_score, PInt 77)])])
  /\ search_score raw_nested_score = Some (py "77")
  /\ _parse_score_response (interp := sample_interpreter) (PStr raw_nested_score)
     = Returns (error_result (interp := sample_interpreter) (ValueError missing_score))
  /\ dict_get k_score (error_result (interp := sample_interpreter) (ValueError missing_score))
     = Some (PInt 50)
  /\ dict_get k_executive_summary
       (error_result (interp := sample_interpreter) (ValueError missing_score))
     = Some (PStr (py "Warning: Error: Response missing 'score' field"))
  /\ contains raw_nested_score (py "Warning: Error: Response missing 'score' field") = false.
Proof. repeat split; vm_compute; reflexivity. Qed.

(** C4, as stated, fails: with a second pair of braces after the object the
    source takes the whole text, a depth scan the first object; the one
    does not parse, the other does. *)
Lemma greedy_span_counterexample :
  search_braces raw_two_objects = Some raw_two_objects
  /\ depth_scan raw_two_objects = Some (js "{'score': 10}")
  /\ json_loads raw_two_objects = Raises (JSONDecodeError raw_two_objects)
  /\ json_loads (js "{'score': 10}") = Returns (PDict [(k_score, PInt 10)]).
Proof. repeat split; vm_compute; reflexivity. Qed.

(** C5 at the example of the spec: prose, then a score of 105. *)
Lemma prose_105_witness :
  exists result,
    _parse_score_response (interp := sample_interpreter) (PStr raw_prose_105)
    = Returns result
    /\ dict_get k_score result = Some (PInt 100).
Proof.
  destruct (score_is_truncated_then_clamped (interp := sample_interpreter)
              raw_prose_105 [(k_score, PInt 105)] (PInt 105) 105)
    as (result & P & G & _).
  - vm_compute. reflexivity.
  - vm_compute. reflexivity.
  - reflexivity.
  - exists result. split; [exact P|exact G].
Defined.

(** C5, as stated, fails: the score 1e999 is a number, the parse succeeds,
    and the value is rejected (generic tier, score 50), not saturated. *)
Lemma infinite_score_counterexample :
  json_loads (clean_response raw_infinite_score)
  = Returns (PDict [(k_score, PFloat (S754_infinity false))])
  /\ _parse_score_response (interp := sample_interpreter) (PStr raw_infinite_score)
     = Returns (error_result (interp := sample_interpreter)
                  (BuiltinError op_int (PFloat (S754_infinity false))))
  /\ dict_get k_score
       (error_result (interp := sample_interpreter)
          (BuiltinError op_int (PFloat (S754_infinity false))))
     = Some (PInt 50).
Proof. repeat split; vm_compute; reflexivity. Qed.

(** C6 at the example of the spec: the red flags are kept, the twelve
    other fields get their defaults. *)
Lemma red_flags_witness :
  exists result,
    _parse_score_response (interp := sample_interpreter) (PStr raw_red_flags)
    = Returns result
    /\ dict_get k_score result = Some (PInt 40)
    /\ dict_get k_red_flags result = Some (PList [PStr (py "pricing 22% below LME")])
    /\ forall k, In k fourteen -> k <> k_score -> k <> k_red_flags ->
                 dict_get k result = dict_get k defaults.
Proof.
  destruct (supplied_fields_pass_through (interp := sample_interpreter)
              raw_red_flags
              [(k_score, PInt 40);
               (k_red_flags, PList [PStr (py "pricing 22% below LME")])]
              (PInt 40) 40)
    as (result & P & G & K & D).
  - vm_compute. reflexivity.
  - vm_compute. reflexivity.
  - reflexivity.
  - exists result. split; [exact P|]. split; [exact G|]. split.
    + apply K; [discriminate|reflexivity].
    + intros k Ik N1 N2. apply D.
      unfold fourteen in Ik; cbn [In] in Ik.
      repeat (destruct Ik as [<-|Ik]; [try reflexivity; congruence|]).
      contradiction.
Defined.

(** C6, as stated, fails: the supplied score 105 is not passed through
    unchanged. *)
Lemma score_not_passed_through :
  json_loads (clean_response raw_prose_105) = Returns (PDict [(k_score, PInt 105)])
  /\ _parse_score_response (interp := sample_interpreter) (PStr raw_prose_105)
     = Returns (fill_defaults [(k_score, PInt 100)])
  /\ dict_get k_score (fill_defaults [(k_score, PInt 100)]) = Some (PInt 100).
Proof. repeat split; vm_compute; reflexivity. Qed.

(** C9 at the example of the spec. *)
Lemma lme_prompt_witness :
  price_info (interp := sample_interpreter) lme_deal
  = Returns (py "LME Discount Pricing - Gross: -9%, Commission: 2%, Net: -11%")
  /\ exists prompt,
       _build_scoring_prompt (interp := sample_interpreter) lme_deal = Returns prompt
       /\ contains (py "Gross: -9%, Commission: 2%, Net: -11%") prompt = true.
Proof.
  split.
  - apply (proj1 (price_line_rendering (interp := sample_interpreter) lme_deal)
             (py "-9") (py "2") (py "-11")); vm_compute; reflexivity.
  - eexists. split; vm_compute; reflexivity.
Defined.

(** C9, as stated, fails: a price of 0 is present and the line is "Not
    specified"; and the [lme_discount] line has a hyphen, not a dash. *)
Lemma price_line_counterexample :
  dict_get (py "price") zero_price_deal = Some (PInt 0)
  /\ price_info (interp := sample_interpreter) zero_price_deal
     = Returns (py "Not specified")
  /\ price_info (interp := sample_interpreter) lme_deal
     = Returns (py "LME Discount Pricing - Gross: -9%, Commission: 2%, Net: -11%")
  /\ contains [em_dash] (py "LME Discount Pricing - Gross: -9%, Commission: 2%, Net: -11%")
     = false.
Proof. repeat split; vm_compute; reflexivity. Qed.

(** C8 at a reply with prose, a fractional score and a float field. *)
Lemma stable_output_witness :
  exists result,
    _parse_score_response (interp := sample_interpreter) (PStr raw_with_float)
    = Returns result
    /\ dict_get k_score result = Some (PInt 72)
    /\ _parse_score_response (interp := sample_interpreter)
         (PStr (json_dumps (interp := sample_interpreter) (PDict result)))
       = Returns result.
Proof.
  exists (fill_defaults
            [(k_score, PInt 72);
             (py "confidence", PFloat (float_of_decimal false 1 (-1)))]).
  split; [vm_compute; reflexivity|]. split; [reflexivity|].
  apply (normalizer_output_is_stable (interp := sample_interpreter) raw_with_float
           (PDict [(k_score, PFloat (float_of_decimal false 725 (-1)));
                   (py "confidence", PFloat (float_of_decimal false 1 (-1)))])).
  - vm_compute. reflexivity.
  - vm_compute. reflexivity.
  - vm_compute. reflexivity.
  - vm_compute. reflexivity.
  - intros e P. vm_compute in P. discriminate.
Defined.

(** Outside Unicode texts: a surrogate pair held as two code points is
    written as two escapes, which are read back as one character. *)
Lemma surrogate_pair_is_joined :
  try_parse (PStr raw_surrogates)
  = Returns (fill_defaults [(k_score, PInt 1); (py "x", PStr [55357; 56832]%N)])
  /\ try_parse (PStr (json_dumps (interp := sample_interpreter)
                        (PDict (fill_defaults
                                  [(k_score, PInt 1);
                                   (py "x", PStr [55357; 56832]%N)]))))
     = Returns (fill_defaults [(k_score, PInt 1); (py "x", PStr [128512%N])]).
Proof. split; vm_compute; reflexivity. Qed.

(** X1 at the fenced reply, for the empty deal. *)
Lemma five_keys_witness :
  exists score reasoning recommendation risk_level,
    score_deal (interp := sample_interpreter) (fun _ => Returns (PStr raw_fenced)) []
    = Returns
        [ (k_success, PBool true);
          (k_score, score);
          (k_reasoning, reasoning);
          (k_recommendation, recommendation);
          (k_risk_level, risk_level) ]
    /\ dict_get k_score
         (fill_defaults [(k_score, PInt 82); (k_risk_level, PStr (py "low"))])
       = Some score
    /\ dict_get k_reasoning
         (fill_defaults [(k_score, PInt 82); (k_risk_level, PStr (py "low"))])
       = Some reasoning
    /\ dict_get k_recommendation
         (fill_defaults [(k_score, PInt 82); (k_risk_level, PStr (py "low"))])
       = Some recommendation
    /\ dict_get k_risk_level
         (fill_defaults [(k_score, PInt 82); (k_risk_level, PStr (py "low"))])
       = Some risk_level.
Proof.
  assert (B : exists prompt,
             _build_scoring_prompt (interp := sample_interpreter) [] = Returns prompt)
    by (eexists; reflexivity).
  destruct B as [prompt B].
  apply (score_deal_on_result (interp := sample_interpreter)
           (fun _ => Returns (PStr raw_fenced)) [] prompt (PStr raw_fenced)).
  - exact B.
  - reflexivity.
  - vm_compute. reflexivity.
Defined.

(* ================================================================== *)
(** * The Normalizer: when it raises, and what it makes of broken replies *)

Lemma int_space_cases (c : char) :
  is_int_space c = true ->
  In c [9; 10; 11; 12; 13; 32; 133; 160; 5760; 8192; 8193; 8194; 8195; 8196;
        8197; 8198; 8199; 8200; 8201; 8202; 8232; 8233; 8239; 8287; 12288]%N.
Proof.
  unfold is_int_space, is_space, in_range.
  rewrite !orb_true_iff, !andb_true_iff, !orb_true_iff, !andb_true_iff,
    !N.leb_le, !N.eqb_eq, N.ltb_lt.
  intros H. cbn [In]. lia.
Qed.

(** A decimal digit is no blank of [int], no sign and no underscore. *)
Lemma decimal_is_plain (c : char) :
  is_decimal c = true ->
  is_int_space c = false /\ is_space c = false
  /\ c <> 45%N /\ c <> 43%N /\ c <> 95%N.
Proof.
  intros D.
  assert (S : forall l, forallb (fun x => negb (is_decimal x)) l = true ->
                        In c l -> False).
  { intros l A I. rewrite forallb_forall in A. specialize (A c I).
    now rewrite D in A. }
  repeat split.
  - destruct (is_int_space c) eqn:E; [|reflexivity].
    exfalso. apply int_space_cases in E. revert E. apply S. vm_compute. reflexivity.
  - destruct (is_space c) eqn:E; [|reflexivity]. exfalso.
    assert (I : In c [9; 10; 11; 12; 13; 28; 29; 30; 31; 32; 133; 160; 5760; 8192;
                      8193; 8194; 8195; 8196; 8197; 8198; 8199; 8200; 8201; 8202;
                      8232; 8233; 8239; 8287; 12288]%N).
    { revert E. unfold is_space, in_range.
      rewrite !orb_true_iff, !andb_true_iff, !N.leb_le, !N.eqb_eq.
      intros H. cbn [In]. lia. }
    revert I. apply S. vm_compute. reflexivity.
  - intros ->. discriminate.
  - intros ->. discriminate.
  - intros ->. discriminate.
Qed.

Lemma int_digits_run (ds : pystr) :
  forallb is_decimal ds = true -> int_digits ds = (ds, []).
Proof.
  induction ds as [|c ds IH]; [reflexivity|]. cbn [forallb int_digits].
  intros A. apply andb_true_iff in A. destruct A as [C A].
  now rewrite C, (IH A).
Qed.

(** [int] of a run of decimal digits: its value, unless the run has more
    than 4300 digits. *)
Lemma int_of_decimal_run (ds : pystr) :
  ds <> [] -> forallb is_decimal ds = true ->
  int_of_str ds
  = if Nat.leb (List.length ds) int_max_str_digits
    then Some (digits_value 0 ds) else None.
Proof.
  destruct ds as [|c r]; [congruence|]. intros _ A.
  pose proof A as A'. cbn [forallb] in A'. apply andb_true_iff in A'.
  destruct A' as [C _].
  destruct (decimal_is_plain c C) as (S & _ & M & P & _).
  unfold int_of_str. cbn [drop_while]. rewrite S.
  destruct c as [|p]; [vm_compute in C; discriminate|].
  do 6 (try destruct p as [p|p|]); try congruence; cbv beta iota;
    rewrite C, (int_digits_run _ A); reflexivity.
Qed.

Lemma startswith_length (p s : pystr) :
  startswith p s = true -> List.length p <= List.length s.
Proof.
  revert s; induction p as [|x p IH]; intros s; [cbn; lia|].
  destruct s as [|y s]; [discriminate|]. cbn [startswith List.length].
  intros H. apply andb_true_iff in H. apply proj2, IH in H. lia.
Qed.

Lemma take_while_length (f : char -> bool) (s : pystr) :
  List.length (take_while f s) <= List.length s.
Proof. rewrite <- (take_drop_while f s) at 2. rewrite List.length_app. lia. Qed.

(** What the pattern of the handler captures: a run of decimal digits, with
    at least the eight characters of ["score":] before it. *)
Lemma search_score_digits (s ds : pystr) :
  search_score s = Some ds ->
  ds <> [] /\ forallb is_decimal ds = true
  /\ List.length ds + 8 <= List.length s.
Proof.
  induction s as [|c s IH].
  - cbn. discriminate.
  - cbn [search_score].
    destruct (match_score_at (c :: s)) as [m|] eqn:M.
    + intros [= <-]. unfold match_score_at in M.
      destruct (startswith score_quoted (c :: s)) eqn:W; [|discriminate].
      apply startswith_length in W.
      change (List.length score_quoted) with 7 in W.
      pose proof (tail_of_length _ _ (tail_of_drop_while is_space (skipn 7 (c :: s)))) as T.
      rewrite length_skipn in T.
      destruct (drop_while is_space (skipn 7 (c :: s))) as [|x r]; [discriminate|].
      destruct (N.eqb x 58); [|discriminate].
      pose proof (take_while_length is_decimal (drop_while is_space r)) as L1.
      pose proof (tail_of_length _ _ (tail_of_drop_while is_space r)) as L2.
      pose proof (take_while_forallb is_decimal (drop_while is_space r)) as F.
      destruct (take_while is_decimal (drop_while is_space r)) as [|d ds'];
        [discriminate|].
      injection M as <-. cbn [List.length] in *.
      repeat split; [discriminate|exact F|lia].
    + intros H. destruct (IH H) as (N & F & L). cbn [List.length].
      repeat split; [exact N|exact F|lia].
Qed.

(** ** The cleaned text and the braces of the raw text *)

Lemma upto_last_brace_free (s : pystr) :
  brace_free s = true -> upto_last_brace s = None.
Proof.
  intros F. apply upto_last_brace_none. intros I.
  unfold brace_free in F. rewrite forallb_forall in F. specialize (F _ I).
  discriminate.
Qed.

Lemma brace_free_tail (rest s : pystr) :
  tail_of rest s -> brace_free s = true -> brace_free rest = true.
Proof.
  intros [p ->]. unfold brace_free. rewrite forallb_app.
  intros F. apply andb_true_iff in F. exact (proj2 F).
Qed.

Lemma search_braces_free (s : pystr) : brace_free s = true -> search_braces s = None.
Proof.
  intros F. unfold search_braces.
  pose proof (tail_of_drop_while (fun c => negb (N.eqb c 123)) s) as T.
  destruct (drop_while _ s) as [|c r]; [reflexivity|].
  rewrite upto_last_brace_free; [reflexivity|].
  apply (brace_free_tail _ (c :: r)); [auto with tails|].
  exact (brace_free_tail _ _ T F).
Qed.

Lemma search_braces_cons (c : char) (s : pystr) :
  search_braces (c :: s)
  = if N.eqb c 123 then option_map (cons c) (upto_last_brace s) else search_braces s.
Proof. unfold search_braces. cbn [drop_while]. now destruct (N.eqb c 123). Qed.

Lemma search_braces_after (a s : pystr) :
  brace_free a = true -> search_braces (a ++ s) = search_braces s.
Proof.
  induction a as [|c a IH]; [reflexivity|]. cbn [brace_free forallb app].
  intros F. apply andb_true_iff in F. destruct F as [C F].
  apply andb_true_iff in C. destruct C as [C _]. apply negb_true_iff in C.
  rewrite search_braces_cons, C. exact (IH F).
Qed.

Lemma upto_last_brace_before (s b : pystr) :
  brace_free b = true -> upto_last_brace (s ++ b) = upto_last_brace s.
Proof.
  intros F. induction s as [|c s IH]; cbn [app upto_last_brace].
  - now apply upto_last_brace_free.
  - now rewrite IH.
Qed.

Lemma search_braces_before (s b : pystr) :
  brace_free b = true -> search_braces (s ++ b) = search_braces s.
Proof.
  intros F. induction s as [|c s IH]; cbn [app].
  - now apply search_braces_free.
  - rewrite !search_braces_cons, IH. now rewrite upto_last_brace_before.
Qed.

Lemma blanks_brace_free (s : pystr) : forallb is_space s = true -> brace_free s = true.
Proof.
  unfold brace_free. induction s as [|c s IH]; [reflexivity|]. cbn [forallb].
  intros A. apply andb_true_iff in A. destruct A as [C A]. rewrite (IH A), andb_true_r.
  destruct (N.eqb c 123) eqn:E1; [apply N.eqb_eq in E1; subst; discriminate|].
  destruct (N.eqb c 125) eqn:E2; [apply N.eqb_eq in E2; subst; discriminate|].
  reflexivity.
Qed.

Lemma rstrip_blanks (s : pystr) :
  exists q, s = rstrip s ++ q /\ forallb is_space q = true.
Proof.
  induction s as [|c s (q & E & B)]; [now exists []|]. rewrite rstrip_cons.
  destruct (rstrip s) as [|x t].
  - cbn [app] in E. subst q. destruct (is_space c) eqn:C.
    + exists (c :: s). split; [reflexivity|]. cbn [forallb]. now rewrite C.
    + exists s. split; [reflexivity|exact B].
  - exists q. split; [|exact B]. cbn [app] in *. now rewrite <- E.
Qed.

Lemma search_braces_strip (s : pystr) : search_braces (strip s) = search_braces s.
Proof.
  unfold strip.
  destruct (rstrip_blanks (drop_while is_space s)) as (q & E & B).
  rewrite <- (search_braces_before (rstrip _) q) by now apply blanks_brace_free.
  rewrite <- E.
  rewrite <- (take_drop_while is_space s) at 2.
  symmetry. apply search_braces_after, blanks_brace_free, take_while_forallb.
Qed.

Lemma startswith_split (p s : pystr) :
  startswith p s = true -> s = p ++ skipn (List.length p) s.
Proof.
  revert s; induction p as [|x p IH]; intros s; [reflexivity|].
  destruct s as [|y s]; [discriminate|]. cbn [startswith List.length skipn app].
  intros H. apply andb_true_iff in H. destruct H as [E H].
  apply N.eqb_eq in E. subst y. f_equal. exact (IH _ H).
Qed.

Lemma endswith_split (p s : pystr) :
  endswith p s = true -> s = drop_last (List.length p) s ++ p.
Proof.
  unfold endswith, drop_last. intros E. apply andb_true_iff in E.
  destruct E as [_ E]. apply pystr_eqb_eq in E.
  transitivity (firstn (List.length s - List.length p) s
                ++ skipn (List.length s - List.length p) s);
    [symmetry; apply firstn_skipn|now rewrite E].
Qed.

Lemma search_braces_unfence (s : pystr) : search_braces (unfence s) = search_braces s.
Proof.
  unfold unfence.
  assert (P : search_braces (if startswith (py "```json") s then skipn 7 s
                             else if startswith (py "```") s then skipn 3 s else s)
              = search_braces s).
  { destruct (startswith (py "```json") s) eqn:A.
    - apply startswith_split in A. change (List.length (py "```json")) with 7 in A.
      rewrite <- (search_braces_after (py "```json") (skipn 7 s)) by reflexivity.
      now rewrite <- A.
    - destruct (startswith (py "```") s) eqn:B; [|reflexivity].
      apply startswith_split in B. change (List.length (py "```")) with 3 in B.
      rewrite <- (search_braces_after (py "```") (skipn 3 s)) by reflexivity.
      now rewrite <- B. }
  destruct (endswith _ _) eqn:E; [|exact P].
  rewrite <- P. apply endswith_split in E. change (List.length (py "```")) with 3 in E.
  rewrite <- (search_braces_before (drop_last 3 _) (py "```")) by reflexivity.
  now rewrite <- E.
Qed.

Section Cleaning.
Context {interp : Interpreter}.

(** X2. The text parsed is the span from the first opening brace of the
    raw text to its last closing brace, whenever there is one: blanks and
    fences around it are of no account. Only a raw text without such a span
    is parsed whole, stripped and unfenced. *)
Theorem cleaned_text_is_the_brace_span (raw : pystr) :
  clean_response raw
  = match search_braces raw with
    | Some m => m
    | None => strip (unfence (strip raw))
    end
  /\ (forall m, search_braces raw = Some m ->
        _parse_score_response (PStr raw)
        = match parse_cleaned m with
          | Returns result => Returns result
          | Raises (JSONDecodeError doc) =>
              degraded_result (PStr raw) (JSONDecodeError doc)
          | Raises e => Returns (error_result e)
          end).
Proof.
  assert (C : clean_response raw
              = match search_braces raw with
                | Some m => m
                | None => strip (unfence (strip raw))
                end).
  { unfold clean_response, extract_object.
    now rewrite search_braces_strip, search_braces_unfence, search_braces_strip. }
  split; [exact C|]. intros m S. rewrite parse_text, C, S. reflexivity.
Qed.

End Cleaning.

(** ** The tiers of the Normalizer *)

Section TierFacts.
Context {interp : Interpreter}.

Lemma parse_cleaned_decode_error (cleaned doc : pystr) :
  json_loads cleaned = Raises (JSONDecodeError doc) ->
  parse_cleaned cleaned = Raises (JSONDecodeError doc).
Proof. intros L. unfold parse_cleaned. now rewrite L. Qed.

Lemma returned_score_is_int (x : pyval) (result : dict) :
  _parse_score_response x = Returns result ->
  exists z, dict_get k_score result = Some (PInt z).
Proof.
  intros R.
  destruct x as [| b | n | f | raw | l | d];
    try (cbn in R; injection R as <-; now exists 50%Z).
  rewrite parse_text in R.
  destruct (parse_cleaned_cases (clean_response raw))
    as [(d & x & z & L & G & I & P)|[(L & P)|(e & P & N)]]; rewrite P in R.
  - injection R as <-. exists (clamp z).
    rewrite fill_defaults_get, dict_get_set. now rewrite pystr_eqb_refl.
  - destruct (degraded_result_fields _ _ _ k_score R) as (v & G & [W|[_ [z ->]]]).
    + now left.
    + destruct v; try discriminate. eexists. exact G.
    + exists z. exact G.
  - destruct e as [doc| | |]; try (injection R as <-; now exists 50%Z).
    now destruct (N doc).
Qed.

Lemma degraded_tier (raw doc : pystr) :
  json_loads (clean_response raw) = Raises (JSONDecodeError doc) ->
  _parse_score_response (PStr raw) = degraded_result (PStr raw) (JSONDecodeError doc).
Proof.
  intros L. rewrite parse_text. now rewrite (parse_cleaned_decode_error _ _ L).
Qed.

(** X3. The Normalizer raises on a raw text exactly when [json.loads]
    rejects the cleaned text and the first ["score": <digits>] of the raw
    text has more than 4300 digits; the exception is then the [ValueError]
    of [int]. *)
Theorem normalizer_raises_exactly_on_overlong_digits (raw : pystr) (e : exn) :
  _parse_score_response (PStr raw) = Raises e
  <-> (json_loads (clean_response raw) = Raises (JSONDecodeError (clean_response raw))
       /\ exists digits,
            search_score raw = Some digits
            /\ int_max_str_digits < List.length digits
            /\ e = BuiltinError op_int (PStr digits)).
Proof.
  split.
  - rewrite parse_text.
    destruct (parse_cleaned_cases (clean_response raw))
      as [(d & x & z & L & G & I & P)|[(L & P)|(e' & P & N)]]; rewrite P.
    + discriminate.
    + intros D. split; [exact L|].
      destruct (degraded_result_raises _ _ _ D) as (ds & S & I & ->).
      exists ds. split; [exact S|]. split; [|reflexivity].
      destruct (search_score_digits _ _ S) as (NE & F & _).
      rewrite (int_of_decimal_run ds NE F) in I.
      destruct (Nat.leb (List.length ds) int_max_str_digits) eqn:B; [discriminate|].
      apply Nat.leb_gt in B. exact B.
    + destruct e' as [doc| | |]; try discriminate. now destruct (N doc).
  - intros (L & ds & S & B & ->). rewrite (degraded_tier _ _ L).
    unfold degraded_result. rewrite S. cbn [py_int].
    destruct (search_score_digits _ _ S) as (NE & F & _).
    rewrite (int_of_decimal_run ds NE F).
    apply Nat.leb_gt in B. rewrite B. reflexivity.
Qed.

(** A raw text of at most 4308 characters is too short for an over-long
    run of digits after ["score":]. *)
Lemma short_text_returns (raw : pystr) :
  List.length raw <= 4308 ->
  exists result, _parse_score_response (PStr raw) = Returns result.
Proof.
  intros B.
  destruct (_parse_score_response (PStr raw)) as [result|e] eqn:P;
    [now exists result|].
  exfalso. rewrite parse_text in P.
  destruct (parse_cleaned_cases (clean_response raw))
    as [(d & x & z & L & G & I & Q)|[(L & Q)|(e' & Q & N)]]; rewrite Q in P.
  - discriminate.
  - destruct (degraded_result_raises _ _ _ P) as (ds & S & I & _).
    destruct (search_score_digits _ _ S) as (NE & F & Len).
    rewrite (int_of_decimal_run ds NE F) in I.
    destruct (Nat.leb (List.length ds) int_max_str_digits) eqn:A; [discriminate|].
    apply Nat.leb_gt in A. unfold int_max_str_digits in A. lia.
  - destruct e' as [doc| | |]; try discriminate. now destruct (N doc).
Qed.

(** X4. A raw text of at most 4308 characters is always normalized: the
    call returns a result that has the fourteen fields, and its score is an
    integer. *)
Theorem short_reply_is_normalized (raw : pystr) :
  List.length raw <= 4308 ->
  exists result z,
    _parse_score_response (PStr raw) = Returns result
    /\ dict_get k_score result = Some (PInt z)
    /\ forall k, In k fourteen -> dict_has k result = true.
Proof.
  intros B. destruct (short_text_returns raw B) as [result P].
  destruct (returned_score_is_int _ _ P) as [z G].
  exists result, z. split; [exact P|]. split; [exact G|].
  intros k Ik. exact (returned_fields _ _ k P Ik).
Qed.

(** X5. An input that is no text (None, a bool, a number, a list, a dict)
    gives the result of the generic handler, whose score is 50: the slice
    or the [strip] of the first lines raises, and the exception is
    absorbed. *)
Theorem non_text_input_gives_error_result (x : pyval) :
  is_str x = false ->
  exists e,
    _parse_score_response x = Returns (error_result e)
    /\ (e = BuiltinError op_slice x \/ e = BuiltinError op_strip x)
    /\ dict_get k_score (error_result e) = Some (PInt 50).
Proof.
  intros T. destruct x as [| b | z | f | s | l | d]; try discriminate;
    eexists; (split; [reflexivity|split; [|reflexivity]]); auto.
Qed.

Lemma strip_blank (s : pystr) : forallb is_space s = true -> strip s = [].
Proof. intros B. unfold strip. now rewrite drop_while_all. Qed.

Lemma search_score_blank (s : pystr) :
  forallb is_space s = true -> search_score s = None.
Proof.
  induction s as [|c s IH]; [reflexivity|]. cbn [forallb].
  intros B. apply andb_true_iff in B. destruct B as [C B].
  cbn [search_score]. rewrite (IH B).
  assert (M : match_score_at (c :: s) = None).
  { unfold match_score_at.
    assert (W : startswith score_quoted (c :: s) = false).
    { change score_quoted with (34%N :: py "score" ++ [34%N]).
      cbn [startswith app].
      destruct (N.eqb 34 c) eqn:E; [|reflexivity].
      apply N.eqb_eq in E. subst c. discriminate. }
    now rewrite W. }
  now rewrite M.
Qed.

(** X6. A raw text that is empty or made of blanks only is reported as a
    JSON failure: score 50, the summary holding the raw text, risk level
    medium. *)
Theorem blank_reply_scores_50 (raw : pystr) :
  forallb is_space raw = true ->
  exists result,
    _parse_score_response (PStr raw) = Returns result
    /\ dict_get k_score result = Some (PInt 50)
    /\ dict_get k_executive_summary result = Some (raw_summary raw)
    /\ dict_get k_red_flags result
       = Some (PList [PStr (py "JSON parsing failed: " ++ str_exn (JSONDecodeError []))])
    /\ dict_get k_risk_level result = Some (PStr (py "medium")).
Proof.
  intros B.
  assert (C : clean_response raw = []).
  { unfold clean_response. rewrite (strip_blank raw B). reflexivity. }
  assert (L : json_loads (clean_response raw) = Raises (JSONDecodeError [])).
  { rewrite C. reflexivity. }
  rewrite (degraded_tier _ _ L). unfold degraded_result.
  rewrite (search_score_blank raw B). cbn [bind].
  eexists. split; [reflexivity|]. repeat split; reflexivity.
Qed.


(** X8. When the cleaned text is an object with a score, [int] decides:
    a value it converts (an integer, a bool, a finite float, a text such
    as "85") gives the success result with the converted value brought
    into the range 0..100; a value it refuses (null, a list, a text that
    is no integer, an infinite float) gives the result of the generic
    handler, in which nothing of the object is kept. *)
Theorem score_conversion_decides_the_tier (raw : pystr) (d : dict) (x : pyval) :
  json_loads (clean_response raw) = Returns (PDict d) ->
  dict_get k_score d = Some x ->
  _parse_score_response (PStr raw)
  = match py_int x with
    | Returns z => Returns (fill_defaults (dict_set d k_score (PInt (clamp z))))
    | Raises e => Returns (error_result e)
    end
  /\ (forall e, py_int x = Raises e -> e = BuiltinError op_int x).
Proof.
  intros L G. split; [|apply py_int_raises].
  rewrite parse_text. unfold parse_cleaned. rewrite L.
  cbn [bind contains_score getitem_score]. unfold dict_has. rewrite G.
  cbn [negb bind]. destruct (py_int x) as [z|e] eqn:I; cbn [bind]; [reflexivity|].
  rewrite (py_int_raises _ _ I). reflexivity.
Qed.

End TierFacts.

(* ================================================================== *)
(** * [score_deal] and the Prompt Builder: what they never do *)

Section Answers.
Context {interp : Interpreter}.

(** X9. Once the prompt is built, [score_deal] always returns a dict and
    never raises. Either the collaborator answered and the Normalizer
    returned: the dict has the five entries of success, and its score is an
    integer. Or one of the two raised: the dict is the failure dict, whose
    error is the text of that exception, with score None and no
    reasoning. *)
Theorem score_deal_always_answers (invoke : pystr -> outcome pyval)
        (deal_data : dict) (prompt : pystr) :
  _build_scoring_prompt deal_data = Returns prompt ->
  (exists text result z reasoning recommendation risk_level,
      invoke prompt = Returns text
      /\ _parse_score_response text = Returns result
      /\ score_deal invoke deal_data
         = Returns
             [ (k_success, PBool true);
               (k_score, PInt z);
               (k_reasoning, reasoning);
               (k_recommendation, recommendation);
               (k_risk_level, risk_level) ])
  \/ (exists e,
         (invoke prompt = Raises e
          \/ exists text, invoke prompt = Returns text
                          /\ _parse_score_response text = Raises e)
         /\ score_deal invoke deal_data
            = Returns
                [ (k_success, PBool false);
                  (k_error, PStr (str_exn e));
                  (k_score, PNone);
                  (k_reasoning, PList []) ]).
Proof.
  intros B. unfold score_deal. rewrite B. cbn [bind]. unfold scored.
  destruct (invoke prompt) as [text|e] eqn:V; cbn [bind].
  - destruct (_parse_score_response text) as [result|e] eqn:P; cbn [bind].
    + left. destruct (returned_score_is_int _ _ P) as [z Gs].
      assert (F : forall k, In k fourteen -> exists v, dict_get k result = Some v).
      { intros k Ik. pose proof (returned_fields _ _ k P Ik) as Hk.
        unfold dict_has in Hk.
        destruct (dict_get k result) as [v|]; [now exists v|discriminate]. }
      destruct (F k_reasoning) as [r Gr]; [unfold fourteen; cbn [In]; tauto|].
      exists text, result, z, r,
        (get_or result k_recommendation []), (get_or result k_risk_level (py "medium")).
      split; [reflexivity|]. split; [exact P|].
      unfold getitem. rewrite Gs, Gr. reflexivity.
    + right. exists e.
      split; [right; exists text; split; [reflexivity|exact P]|reflexivity].
  - right. exists e. split; [left; reflexivity|reflexivity].
Qed.

End Answers.

(** ** What the Builder prints *)

Section Printing.
Context {interp : Interpreter}.

Lemma int_text_cases (z : Z) :
  (printable (PInt z) = true /\ int_text z = Returns (digits_of_Z z))
  \/ (printable (PInt z) = false /\ int_text z = Raises (BuiltinError op_str (PInt z))
      /\ overlong_int (BuiltinError op_str (PInt z))).
Proof.
  unfold int_text. cbn [printable].
  destruct (Nat.leb _ _) eqn:B; [now left|right].
  repeat split. exists z. split; [reflexivity|]. now apply Nat.leb_gt.
Qed.

(** [repr] returns on a printable value, and raises on any other. *)
Lemma py_repr_cases (x : pyval) :
  (printable x = true /\ exists t, py_repr x = Returns t)
  \/ (printable x = false /\ exists e, py_repr x = Raises e /\ overlong_int e).
Proof.
  induction x as [| b | z | f | s | l IH | d IH] using pyval_induction;
    try (left; split; [reflexivity|eexists; reflexivity]).
  - left. split; [reflexivity|]. destruct b; eexists; reflexivity.
  - destruct (int_text_cases z) as [[P E]|(P & E & O)].
    + left. split; [exact P|]. eexists. exact E.
    + right. split; [exact P|]. eexists. split; [exact E|exact O].
  - cbn [printable py_repr].
    match goal with
    | |- context [bind (?items l) _] => set (items_of := items)
    end.
    assert (A : (forallb printable l = true /\ exists t, items_of l = Returns t)
                \/ (forallb printable l = false
                    /\ exists e, items_of l = Raises e /\ overlong_int e)).
    { induction l as [|v l IHl]; [left; split; [reflexivity|eexists; reflexivity]|].
      inversion IH as [|? ? Hv Hl]; subst. specialize (IHl Hl).
      cbn [forallb].
      destruct Hv as [[Pv [a Ea]]|[Pv (e & Ee & Oe)]]; rewrite Pv; cbn [andb].
      - destruct l as [|w l].
        + left. split; [reflexivity|]. exists a. exact Ea.
        + change (items_of (v :: w :: l))
            with (a0 <- py_repr v ;; b0 <- items_of (w :: l) ;;
                  Returns (a0 ++ py ", " ++ b0)).
          rewrite Ea. cbn [bind].
          destruct IHl as [[Pl [b Eb]]|[Pl (e & Ee & Oe)]].
          * left. split; [exact Pl|]. rewrite Eb. eexists. reflexivity.
          * right. split; [exact Pl|]. rewrite Ee. exists e. split; [reflexivity|exact Oe].
      - right. split; [reflexivity|]. exists e. split; [|exact Oe].
        destruct l as [|w l]; [exact Ee|].
        change (items_of (v :: w :: l))
          with (a0 <- py_repr v ;; b0 <- items_of (w :: l) ;;
                Returns (a0 ++ py ", " ++ b0)).
        now rewrite Ee. }
    destruct A as [[P [t E]]|[P (e & E & O)]]; rewrite E; cbn [bind].
    + left. split; [exact P|]. eexists. reflexivity.
    + right. split; [exact P|]. exists e. split; [reflexivity|exact O].
  - cbn [printable py_repr].
    match goal with
    | |- context [bind (?items d) _] => set (items_of := items)
    end.
    assert (A : (forallb (fun kv => printable (snd kv)) d = true
                 /\ exists t, items_of d = Returns t)
                \/ (forallb (fun kv => printable (snd kv)) d = false
                    /\ exists e, items_of d = Raises e /\ overlong_int e)).
    { induction d as [|[k v] d IHd]; [left; split; [reflexivity|eexists; reflexivity]|].
      inversion IH as [|? ? Hv Hd]; subst. specialize (IHd Hd).
      cbn [forallb snd]. cbn [snd] in Hv.
      destruct Hv as [[Pv [a Ea]]|[Pv (e & Ee & Oe)]]; rewrite Pv; cbn [andb].
      - destruct d as [|w d].
        + left. split; [reflexivity|].
          change (items_of [(k, v)])
            with (a0 <- py_repr v ;; Returns (str_repr k ++ py ": " ++ a0)).
          rewrite Ea. eexists. reflexivity.
        + change (items_of ((k, v) :: w :: d))
            with (a0 <- py_repr v ;; b0 <- items_of (w :: d) ;;
                  Returns (str_repr k ++ py ": " ++ a0 ++ py ", " ++ b0)).
          rewrite Ea. cbn [bind].
          destruct IHd as [[Pl [b Eb]]|[Pl (e & Ee & Oe)]].
          * left. split; [exact Pl|]. rewrite Eb. eexists. reflexivity.
          * right. split; [exact Pl|]. rewrite Ee. exists e. split; [reflexivity|exact Oe].
      - right. split; [reflexivity|]. exists e. split; [|exact Oe].
        destruct d as [|w d].
        + change (items_of [(k, v)])
            with (a0 <- py_repr v ;; Returns (str_repr k ++ py ": " ++ a0)).
          now rewrite Ee.
        + change (items_of ((k, v) :: w :: d))
            with (a0 <- py_repr v ;; b0 <- items_of (w :: d) ;;
                  Returns (str_repr k ++ py ": " ++ a0 ++ py ", " ++ b0)).
          now rewrite Ee. }
    destruct A as [[P [t E]]|[P (e & E & O)]]; rewrite E; cbn [bind].
    + left. split; [exact P|]. eexists. reflexivity.
    + right. split; [exact P|]. exists e. split; [reflexivity|exact O].
Qed.

Lemma py_str_cases (x : pyval) :
  (printable x = true /\ exists t, py_str x = Returns t)
  \/ (printable x = false /\ exists e, py_str x = Raises e /\ overlong_int e).
Proof.
  destruct x; try apply py_repr_cases.
  left. split; [reflexivity|eexists; reflexivity].
Qed.

End Printing.

Section BuilderFrame.
Context {interp : Interpreter}.

Lemma get_set_other (d : dict) (k k0 : pystr) (v : pyval) :
  pystr_eqb k k0 = false -> get (dict_set d k v) k0 = get d k0.
Proof. intros E. unfold get. now rewrite dict_get_set, E. Qed.

Lemma get_or_set_other (d : dict) (k k0 default : pystr) (v : pyval) :
  pystr_eqb k k0 = false -> get_or (dict_set d k v) k0 default = get_or d k0 default.
Proof. intros E. unfold get_or. now rewrite dict_get_set, E. Qed.

Lemma printable_get_or (d : dict) (k default : pystr) :
  printable (get_or d k default) = printable (get d k).
Proof. unfold get_or, get. now destruct (dict_get k d). Qed.

Lemma falsy_printable (x : pyval) : truthy x = false -> printable x = true.
Proof.
  destruct x as [| b | z | f | s | l | d]; cbn [truthy printable]; try reflexivity.
  - intros E. apply negb_false_iff, Z.eqb_eq in E. now subst.
  - now destruct l.
  - now destruct d.
Qed.

(** X10. A key that the Builder does not read has no effect on the
    prompt. It reads ten keys and price_type in every case; the three
    discount keys only in lme_discount mode; price only in the other modes,
    and price_currency only when that price is truthy. *)
Theorem unread_key_has_no_effect (deal_data : dict) (k : pystr) (v : pyval) :
  ~ In k (keys_read deal_data) ->
  _build_scoring_prompt (dict_set deal_data k v) = _build_scoring_prompt deal_data.
Proof.
  intros N.
  assert (H : forall k0, In k0 (keys_read deal_data) -> pystr_eqb k k0 = false).
  { intros k0 I. apply pystr_eqb_neq. intros ->. contradiction. }
  unfold keys_read, keys_printed in H.
  assert (Ht : pystr_eqb k (py "price_type") = false) by (apply H; now left).
  assert (Ha : forall k0,
             In k0 [ py "commodity_type"; py "source_name";
                     py "source_reliability"; py "quantity"; py "quantity_unit";
                     py "origin_country"; py "payment_method"; py "shipping_terms";
                     py "deal_text"; py "additional_notes" ] ->
             pystr_eqb k k0 = false)
    by (intros k0 I; apply H; right; apply in_or_app; now left).
  assert (Hp : forall k0,
             In k0 (if is_text (py "lme_discount") (get deal_data (py "price_type"))
                    then [py "gross_discount"; py "commission"; py "net_discount"]
                    else py "price"
                         :: (if truthy (get deal_data (py "price"))
                             then [py "price_currency"] else [])) ->
             pystr_eqb k k0 = false)
    by (intros k0 I; apply H; right; apply in_or_app; now right).
  clear H N.
  assert (P : price_info (dict_set deal_data k v) = price_info deal_data).
  { unfold price_info.
    rewrite (get_set_other _ _ (py "price_type")) by exact Ht.
    destruct (is_text (py "lme_discount") (get deal_data (py "price_type"))).
    - rewrite !get_set_other by (apply Hp; cbn [In]; tauto). reflexivity.
    - rewrite (get_set_other _ _ (py "price")) by (apply Hp; cbn [In]; tauto).
      destruct (truthy (get deal_data (py "price"))); [|reflexivity].
      rewrite get_or_set_other by (apply Hp; cbn [In]; tauto). reflexivity. }
  unfold _build_scoring_prompt. rewrite P.
  rewrite !get_or_set_other by (apply Ha; cbn [In]; tauto).
  reflexivity.
Qed.

(** The price line is printed, or [str] refuses an over-long integer of
    one of the values read for it. *)
Lemma price_info_cases (deal_data : dict) :
  ((forall k0,
       In k0 (if is_text (py "lme_discount") (get deal_data (py "price_type"))
              then [py "gross_discount"; py "commission"; py "net_discount"]
              else py "price"
                   :: (if truthy (get deal_data (py "price"))
                       then [py "price_currency"] else [])) ->
       printable (get deal_data k0) = true)
   /\ exists t, price_info deal_data = Returns t)
  \/ ((exists k0,
         In k0 (if is_text (py "lme_discount") (get deal_data (py "price_type"))
                then [py "gross_discount"; py "commission"; py "net_discount"]
                else py "price"
                     :: (if truthy (get deal_data (py "price"))
                         then [py "price_currency"] else []))
         /\ printable (get deal_data k0) = false)
      /\ exists e, price_info deal_data = Raises e /\ overlong_int e).
Proof.
  unfold price_info.
  destruct (is_text (py "lme_discount") (get deal_data (py "price_type"))).
  - destruct (py_str_cases (get deal_data (py "gross_discount")))
      as [[P1 [t1 E1]]|[P1 (e & E & O)]]; rewrite ?E1, ?E; cbn [bind];
      [|right; split; [exists (py "gross_discount"); split; [cbn [In]; tauto|exact P1]
                      |exists e; now split]].
    destruct (py_str_cases (get deal_data (py "commission")))
      as [[P2 [t2 E2]]|[P2 (e & E & O)]]; rewrite ?E2, ?E; cbn [bind];
      [|right; split; [exists (py "commission"); split; [cbn [In]; tauto|exact P2]
                      |exists e; now split]].
    destruct (py_str_cases (get deal_data (py "net_discount")))
      as [[P3 [t3 E3]]|[P3 (e & E & O)]]; rewrite ?E3, ?E; cbn [bind];
      [|right; split; [exists (py "net_discount"); split; [cbn [In]; tauto|exact P3]
                      |exists e; now split]].
    left. split; [|eexists; reflexivity].
    intros k0 I. cbn [In] in I.
    destruct I as [<-|[<-|[<-|[]]]]; assumption.
  - destruct (truthy (get deal_data (py "price"))) eqn:T.
    + destruct (py_str_cases (get deal_data (py "price")))
        as [[P1 [t1 E1]]|[P1 (e & E & O)]]; rewrite ?E1, ?E; cbn [bind];
        [|right; split; [exists (py "price"); split; [cbn [In]; tauto|exact P1]
                        |exists e; now split]].
      destruct (py_str_cases (get_or deal_data (py "price_currency") (py "USD")))
        as [[P2 [t2 E2]]|[P2 (e & E & O)]]; rewrite ?E2, ?E; cbn [bind];
        rewrite printable_get_or in P2;
        [|right; split; [exists (py "price_currency"); split; [cbn [In]; tauto|exact P2]
                        |exists e; now split]].
      left. split; [|eexists; reflexivity].
      intros k0 I. cbn [In] in I. destruct I as [<-|[<-|[]]]; assumption.
    + left. split; [|eexists; reflexivity].
      intros k0 I. cbn [In] in I. destruct I as [<-|[]].
      now apply falsy_printable.
Qed.

End BuilderFrame.

Section BuilderTotal.
Context {interp : Interpreter}.

Lemma always_printed (deal_data : dict) (k : pystr) :
  In k [ py "commodity_type"; py "source_name";
         py "source_reliability"; py "quantity"; py "quantity_unit";
         py "origin_country"; py "payment_method"; py "shipping_terms";
         py "deal_text"; py "additional_notes" ] ->
  In k (keys_printed deal_data).
Proof. intros I. unfold keys_printed. apply in_or_app. now left. Qed.

(** One more field of the f-string: it is printed, or the whole call
    raises the refusal of [str]. *)
Ltac next_field key :=
  match goal with
  | |- context [bind (py_str (get_or ?d key ?def)) _] =>
      let P := fresh "P" in
      let t := fresh "t" in
      let E := fresh "E" in
      let e := fresh "e" in
      let O := fresh "O" in
      destruct (py_str_cases (get_or d key def)) as [[P [t E]]|[P (e & E & O)]];
      rewrite printable_get_or in P; rewrite E; cbn [bind];
      [|split;
        [split;
         [intros A; specialize (A key (always_printed d key ltac:(cbn [In]; tauto)));
          congruence
         |intros [? X]; discriminate X]
        |intros ? X; injection X as <-; exact O]]
  end.

(** X11. The Builder returns a prompt exactly when every value it prints is
    printable, that is, holds no integer of more than 4300 digits; the only
    exception it raises is the [ValueError] of [str] on such an integer. *)
Theorem prompt_is_built_unless_an_integer_is_overlong (deal_data : dict) :
  ((forall k, In k (keys_printed deal_data) -> printable (get deal_data k) = true)
   <-> exists prompt, _build_scoring_prompt deal_data = Returns prompt)
  /\ (forall e, _build_scoring_prompt deal_data = Raises e -> overlong_int e).
Proof.
  unfold _build_scoring_prompt.
  destruct (price_info_cases deal_data)
    as [[Pp [tp Ep]]|[(k0 & Ik & Pk) (e & Ee & O)]].
  - rewrite Ep. cbn [bind].
    next_field (py "commodity_type"). next_field (py "source_name").
    next_field (py "source_reliability"). next_field (py "quantity").
    next_field (py "quantity_unit"). next_field (py "origin_country").
    next_field (py "payment_method"). next_field (py "shipping_terms").
    next_field (py "deal_text"). next_field (py "additional_notes").
    split; [|intros ? X; discriminate X].
    split; [intros _; eexists; reflexivity|].
    intros _ k I. unfold keys_printed in I. apply in_app_or in I.
    destruct I as [I|I]; [|now apply Pp].
    cbn [In] in I.
    repeat (destruct I as [<-|I]; [assumption|]). contradiction.
  - rewrite Ee. cbn [bind]. split.
    + split; [|intros [? X]; discriminate X].
      intros A. assert (In k0 (keys_printed deal_data))
        by (unfold keys_printed; apply in_or_app; now right).
      specialize (A k0 H). congruence.
    + intros ? X. injection X as <-. exact O.
Qed.

End BuilderTotal.

Section Escapes.
Context {interp : Interpreter}.

(** X12. The only exceptions that leave [score_deal] are those of the
    Builder, which runs before the [try]: [score_deal] raises exactly when
    [_build_scoring_prompt] does, and then the same exception; whatever the
    collaborator or the Normalizer raise is turned into the failure
    dict. *)
Theorem score_deal_raises_only_from_the_builder
        (invoke : pystr -> outcome pyval) (deal_data : dict) (e : exn) :
  score_deal invoke deal_data = Raises e
  <-> _build_scoring_prompt deal_data = Raises e.
Proof.
  unfold score_deal.
  destruct (_build_scoring_prompt deal_data) as [prompt|e'] eqn:B; cbn [bind].
  - destruct (scored invoke prompt); split; discriminate.
  - split; intros [= <-]; reflexivity.
Qed.

End Escapes.

(** X21. The constructor raises its [ValueError] exactly when neither the
    argument nor the environment gives a key: a falsy argument (None, an
    empty text, 0) falls back to the environment, and a variable that is
    unset or empty counts as no key. A truthy argument is kept as it is,
    whatever the environment holds. *)
Theorem constructor_needs_a_key (api_key : pyval) (env : option pystr) :
  (forall e,
      init_api_key api_key env = Raises e
      <-> (truthy api_key = false /\ (env = None \/ env = Some [])
           /\ e = ValueError key_not_found))
  /\ (truthy api_key = true -> init_api_key api_key env = Returns api_key)
  /\ (forall c s,
        truthy api_key = false -> env = Some (c :: s) ->
        init_api_key api_key env = Returns (PStr (c :: s))).
Proof.
  unfold init_api_key. split; [|split].
  - intros e. destruct (truthy api_key) eqn:T.
    + rewrite T. cbn [negb]. split; [discriminate|]. intros (F & _). discriminate.
    + destruct env as [[|c s]|]; cbn [truthy negb]; split;
        try discriminate;
        try (intros [= <-]; repeat split; auto);
        try (intros (_ & [E|E] & ->); try discriminate E; reflexivity).
  - intros T. now rewrite T, T.
  - intros c s T ->. now rewrite T.
Qed.

Section Unparsed.
Context {interp : Interpreter}.

(** X19. A cleaned text that is valid JSON but no object (a list, a text,
    a number, null) never succeeds: the membership test or the subscript
    raises, or the score is found missing, and the Normalizer returns the
    result of the generic handler. *)
Theorem non_object_reply_gives_error_result (raw : pystr) (v : pyval) :
  json_loads (clean_response raw) = Returns v ->
  (forall d, v <> PDict d) ->
  exists e,
    _parse_score_response (PStr raw) = Returns (error_result e)
    /\ (e = ValueError missing_score
        \/ e = BuiltinError op_contains v
        \/ e = BuiltinError op_getitem v).
Proof.
  intros L N. rewrite parse_text. unfold parse_cleaned. rewrite L.
  destruct v as [| b | z | f | s | l | d];
    try (eexists; split; [reflexivity|]; auto);
    cbn [bind contains_score].
  - destruct (contains k_score s); cbn [negb bind getitem_score];
      eexists; (split; [reflexivity|]); auto.
  - destruct (existsb (is_text k_score) l); cbn [negb bind getitem_score];
      eexists; (split; [reflexivity|]); auto.
  - now destruct (N d).
Qed.

Lemma scored_on_result (invoke : pystr -> outcome pyval) (prompt : pystr)
      (text : pyval) (result : dict) :
  invoke prompt = Returns text ->
  _parse_score_response text = Returns result ->
  exists z reasoning,
    dict_get k_score result = Some (PInt z)
    /\ dict_get k_reasoning result = Some reasoning
    /\ scored invoke prompt
       = Returns
           [ (k_success, PBool true);
             (k_score, PInt z);
             (k_reasoning, reasoning);
             (k_recommendation, get_or result k_recommendation []);
             (k_risk_level, get_or result k_risk_level (py "medium")) ].
Proof.
  intros V P. destruct (returned_score_is_int _ _ P) as [z Gs].
  pose proof (returned_fields _ _ k_reasoning P) as Hr.
  unfold dict_has in Hr.
  destruct (dict_get k_reasoning result) as [r|] eqn:Gr;
    [|discriminate Hr; unfold fourteen; cbn [In]; tauto].
  exists z, r. split; [exact Gs|]. split; [reflexivity|].
  unfold scored. rewrite V. cbn [bind]. rewrite P. cbn [bind].
  unfold getitem. rewrite Gs, Gr. reflexivity.
Qed.

(** X20. Success does not mean that the reply was parsed. Whenever the
    collaborator returns a text of at most 4308 characters, [score_deal]
    reports success: True with an integer score; for a reply that is empty
    or blank that score is 50, with the reasoning and the recommendation of
    the handler of JSON errors. *)
Theorem unparsed_reply_is_reported_as_success
        (invoke : pystr -> outcome pyval) (deal_data : dict)
        (prompt raw : pystr) :
  _build_scoring_prompt deal_data = Returns prompt ->
  invoke prompt = Returns (PStr raw) ->
  List.length raw <= 4308 ->
  (exists z reasoning recommendation risk_level,
      score_deal invoke deal_data
      = Returns
          [ (k_success, PBool true);
            (k_score, PInt z);
            (k_reasoning, reasoning);
            (k_recommendation, recommendation);
            (k_risk_level, risk_level) ])
  /\ (forallb is_space raw = true ->
      score_deal invoke deal_data
      = Returns
          [ (k_success, PBool true);
            (k_score, PInt 50);
            (k_reasoning, PList [PStr (py "Warning: AI returned invalid JSON format")]);
            (k_recommendation, PStr (py "Check console output or try again"));
            (k_risk_level, PStr (py "medium")) ]).
Proof.
  intros B V Len. destruct (short_text_returns raw Len) as [result P].
  destruct (scored_on_result invoke prompt _ _ V P) as (z & r & Gs & Gr & S).
  unfold score_deal. rewrite B. cbn [bind]. rewrite S. split.
  - now exists z, r, (get_or result k_recommendation []),
      (get_or result k_risk_level (py "medium")).
  - intros Blank.
    assert (C : clean_response raw = []).
    { unfold clean_response. rewrite (strip_blank raw Blank). reflexivity. }
    assert (L : json_loads (clean_response raw) = Raises (JSONDecodeError []))
      by (rewrite C; reflexivity).
    rewrite (degraded_tier _ _ L) in P. unfold degraded_result in P.
    rewrite (search_score_blank raw Blank) in P. cbn [bind] in P.
    injection P as <-. cbn in Gs, Gr. injection Gs as <-. injection Gr as <-.
    reflexivity.
Qed.

End Unparsed.

(* ================================================================== *)
(** * [fix_ai_reasoning]: what the clean-up leaves *)

Section FixFacts.
Context {interp : Interpreter}.

(** X13. After the clean-up, the [ai_reasoning] of a row is falsy, or no
    text (and then untouched), or a text that [json.loads] accepts; and a
    second run issues no statement for the row. *)
Theorem cleanup_leaves_json_and_is_idempotent
        (deal_id ai_reasoning ai_analysis : pyval) :
  let after := reasoning_after (deal_id, ai_reasoning, ai_analysis) in
  (truthy after = false
   \/ (is_str after = false /\ after = ai_reasoning)
   \/ exists s v, after = PStr s /\ json_loads s = Returns v)
  /\ fix_row (deal_id, after, ai_analysis) = [].
Proof.
  cbv zeta. unfold reasoning_after. cbn [fix_row fst snd].
  destruct (truthy ai_reasoning) eqn:T.
  2:{ split; [now left|]. cbn [fix_row]. now rewrite T. }
  destruct ai_reasoning as [| b | z | f | s | l | d];
    try (split; [right; left; now split|cbn [fix_row]; now rewrite T]).
  assert (C : fix_row (deal_id, PStr (json_dumps (PList [])), ai_analysis) = [])
    by reflexivity.
  destruct (startswith (py "['") s || startswith (js "['") s) eqn:W.
  - cbn [cleared]. split; [|exact C].
    right; right. exists (json_dumps (PList [])), (PList []). split; reflexivity.
  - destruct (json_loads s) as [v|e] eqn:L.
    + split; [right; right; now exists s, v|].
      cbn [fix_row]. now rewrite T, W, L.
    + cbn [cleared]. split; [|exact C].
      right; right. exists (json_dumps (PList [])), (PList []). split; reflexivity.
Qed.

(** X14. A reasoning list written by [json.dumps] is cleared whenever its
    first item is a text: the text then begins with a bracket and a quote,
    which the clean-up takes for a corrupted value although it is valid
    JSON. *)
Theorem dumped_reasoning_list_is_cleared
        (deal_id ai_analysis : pyval) (first : pystr) (others : list pyval) :
  fix_row (deal_id, PStr (json_dumps (PList (PStr first :: others))), ai_analysis)
  = [cleared deal_id].
Proof.
  rewrite json_dumps_list.
  assert (H : exists t, list_text (PStr first :: others) = 34%N :: t).
  { destruct others as [|w others]; cbn [list_text json_dumps]; unfold json_string;
      cbn [app]; eexists; reflexivity. }
  destruct H as [t ->]. reflexivity.
Qed.

End FixFacts.

(* ================================================================== *)
(** * The statements of [Deal] *)

Lemma placeholders_app (a b : pystr) :
  placeholders (a ++ b) = placeholders a + placeholders b.
Proof. unfold placeholders. now rewrite filter_app, List.length_app. Qed.

(** X15. The query of [get_all] has as many placeholders as parameters,
    whatever the filters: the parameters are the truthy filters, the status
    before the commodity, and then the limit; a falsy filter (None, an
    empty text, 0) adds neither a condition nor a parameter. *)
Theorem get_all_binds_every_placeholder (status commodity_type limit : pyval) :
  placeholders (fst (get_all_statement status commodity_type limit))
  = List.length (snd (get_all_statement status commodity_type limit))
  /\ snd (get_all_statement status commodity_type limit)
     = (if truthy status then [status] else [])
       ++ (if truthy commodity_type then [commodity_type] else [])
       ++ [limit]
  /\ (truthy status = false ->
      get_all_statement status commodity_type limit
      = get_all_statement PNone commodity_type limit)
  /\ (truthy commodity_type = false ->
      get_all_statement status commodity_type limit
      = get_all_statement status PNone limit).
Proof.
  unfold get_all_statement.
  destruct (truthy status) eqn:S, (truthy commodity_type) eqn:C; cbn [fst snd truthy];
    repeat split; try reflexivity; try discriminate.
Qed.

Lemma update_fields_from (deal_data : dict) (fs : list pystr) (vs : list pyval) :
  fold_left
    (fun acc kv =>
       if negb (pystr_eqb (fst kv) (py "id"))
       then (fst acc ++ [fst kv ++ py " = ?"], snd acc ++ [snd kv])
       else acc)
    deal_data (fs, vs)
  = (fs ++ map (fun kv => fst kv ++ py " = ?")
             (filter (fun kv => negb (pystr_eqb (fst kv) (py "id"))) deal_data),
     vs ++ map snd (filter (fun kv => negb (pystr_eqb (fst kv) (py "id"))) deal_data)).
Proof.
  revert fs vs; induction deal_data as [|[k v] d IH]; intros fs vs;
    cbn [fold_left filter fst snd map].
  - now rewrite !List.app_nil_r.
  - destruct (negb (pystr_eqb k (py "id"))); cbn [fst snd map]; rewrite IH.
    + now rewrite <- !List.app_assoc.
    + reflexivity.
Qed.

Lemma update_fields_filter (deal_data : dict) :
  update_fields deal_data
  = (map (fun kv => fst kv ++ py " = ?")
         (filter (fun kv => negb (pystr_eqb (fst kv) (py "id"))) deal_data),
     map snd (filter (fun kv => negb (pystr_eqb (fst kv) (py "id"))) deal_data)).
Proof. unfold update_fields. now rewrite update_fields_from. Qed.

Lemma placeholders_free (s : pystr) :
  existsb (N.eqb 63) s = false -> placeholders s = 0.
Proof.
  unfold placeholders. induction s as [|c s IH]; [reflexivity|].
  cbn [existsb filter]. intros E. apply orb_false_iff in E. destruct E as [C E].
  rewrite C. exact (IH E).
Qed.

Lemma placeholders_join (items : dict) :
  forallb (fun kv => negb (existsb (N.eqb 63) (fst kv))) items = true ->
  placeholders (join (py ", ") (map (fun kv => fst kv ++ py " = ?") items))
  = List.length items.
Proof.
  induction items as [|[k v] items IH]; [reflexivity|].
  cbn [forallb fst map List.length]. intros A.
  apply andb_true_iff in A. destruct A as [K A]. apply negb_true_iff in K.
  specialize (IH A).
  assert (One : placeholders (k ++ py " = ?") = 1)
    by (rewrite placeholders_app, (placeholders_free k K); reflexivity).
  destruct items as [|kv items].
  - exact One.
  - change (join (py ", ") ((k ++ py " = ?") :: map _ (kv :: items)))
      with ((k ++ py " = ?") ++ py ", "
            ++ join (py ", ") (map (fun kv => fst kv ++ py " = ?") (kv :: items))).
    rewrite placeholders_app, One, placeholders_app, IH. reflexivity.
Qed.

Lemma forallb_filter {A : Type} (f g : A -> bool) (l : list A) :
  forallb f l = true -> forallb f (filter g l) = true.
Proof.
  induction l as [|a l IH]; [reflexivity|]. cbn [forallb filter].
  intros H. apply andb_true_iff in H. destruct H as [Ha H].
  destruct (g a); cbn [forallb]; [now rewrite Ha, IH|now apply IH].
Qed.

(** X16. When no key of [deal_data] holds a question mark, the UPDATE that
    [update] executes has as many placeholders as parameters: one for each
    item other than id, in the order of the items, and the last for the
    deal id. *)
Theorem update_binds_every_placeholder
        (deal_id : pyval) (deal_data : dict) (query : pystr) (values : list pyval) :
  forallb (fun kv => negb (existsb (N.eqb 63) (fst kv))) deal_data = true ->
  update_statement deal_id deal_data = Some (query, values) ->
  placeholders query = List.length values
  /\ values
     = map snd (filter (fun kv => negb (pystr_eqb (fst kv) (py "id"))) deal_data)
       ++ [deal_id].
Proof.
  intros K. unfold update_statement. rewrite update_fields_filter.
  assert (Ki : forallb (fun kv => negb (existsb (N.eqb 63) (fst kv)))
                       (filter (fun kv => negb (pystr_eqb (fst kv) (py "id")))
                               deal_data) = true)
    by (now apply forallb_filter).
  destruct (filter (fun kv => negb (pystr_eqb (fst kv) (py "id"))) deal_data)
    as [|kv items]; [discriminate|].
  intros E.
  assert (Q : query
              = py "UPDATE deals SET "
                ++ join (py ", ") (map (fun kv => fst kv ++ py " = ?") (kv :: items))
                ++ py " WHERE id = ?"
              /\ values = map snd (kv :: items) ++ [deal_id]).
  { cbn [map] in *. injection E as <- <-. now split. }
  destruct Q as [-> ->]. split; [|reflexivity].
  rewrite !placeholders_app, (placeholders_join _ Ki).
  rewrite List.length_app, length_map. cbn. lia.
Qed.

(** X17. [update] never assigns the id: the item of key id has no part in
    the statement, and when [deal_data] has no other item no statement is
    executed at all (the method returns False). *)
Theorem update_never_assigns_the_id (deal_id : pyval) (deal_data : dict) (v : pyval) :
  update_statement deal_id (dict_set deal_data (py "id") v)
  = update_statement deal_id deal_data
  /\ (update_statement deal_id deal_data = None
      <-> forall k x, In (k, x) deal_data -> k = py "id").
Proof.
  assert (F : forall d,
             filter (fun kv => negb (pystr_eqb (fst kv) (py "id")))
                    (dict_set d (py "id") v)
             = filter (fun kv => negb (pystr_eqb (fst kv) (py "id"))) d).
  { induction d as [|[k x] d IH]; cbn [dict_set filter fst].
    - now rewrite pystr_eqb_refl.
    - destruct (pystr_eqb k (py "id")) eqn:E; cbn [filter fst]; rewrite E; cbn [negb].
      + reflexivity.
      + now rewrite IH. }
  split.
  - unfold update_statement. now rewrite !update_fields_filter, F.
  - unfold update_statement. rewrite update_fields_filter.
    set (keep := fun kv : pystr * pyval => negb (pystr_eqb (fst kv) (py "id"))).
    split.
    + intros N k x I.
      destruct (keep (k, x)) eqn:Kp.
      * exfalso. assert (I' : In (k, x) (filter keep deal_data))
          by (apply filter_In; now split).
        destruct (filter keep deal_data) as [|kv r]; [contradiction|].
        cbn [map] in N. discriminate.
      * unfold keep in Kp. cbn [fst] in Kp. apply negb_false_iff in Kp.
        now apply pystr_eqb_eq.
    + intros A.
      assert (E : filter keep deal_data = []).
      { destruct (filter keep deal_data) as [|[k x] r] eqn:Fl; [reflexivity|].
        assert (I : In (k, x) (filter keep deal_data)) by (rewrite Fl; now left).
        apply filter_In in I. destruct I as [I Kp].
        rewrite (A k x I) in Kp. discriminate. }
      now rewrite E.
Qed.

(** X18. [create] binds each column of its INSERT to the value of
    [deal_data] under the name of the column, in the order of the columns:
    the statement names eighteen columns and has eighteen placeholders, and
    the parameter at each place is the deal's value for that column, or,
    when the key is absent, USD for price_currency, unassigned for status,
    fixed_price for price_type and None for every other column. *)
Theorem create_binds_each_column_by_name (deal_data : dict) :
  List.length (column_names create_sql) = 18
  /\ placeholders create_sql = 18
  /\ create_params deal_data
     = map (fun column =>
              match dict_get column deal_data with
              | Some v => v
              | None => create_default column
              end)
           (column_names create_sql).
Proof.
  assert (C : column_names create_sql
              = [ py "commodity_type"; py "source_name"; py "source_reliability";
                  py "deal_text"; py "price"; py "price_currency"; py "quantity";
                  py "quantity_unit"; py "origin_country"; py "payment_method";
                  py "shipping_terms"; py "additional_notes"; py "date_received";
                  py "status"; py "price_type"; py "gross_discount";
                  py "commission"; py "net_discount" ])
    by (vm_compute; reflexivity).
  split; [rewrite C; reflexivity|]. split; [vm_compute; reflexivity|].
  rewrite C. unfold create_params, get, get_or. cbn [map].
  repeat (f_equal; [match goal with
                    | |- context [dict_get ?k deal_data] =>
                        destruct (dict_get k deal_data); reflexivity
                    end|]).
  reflexivity.
Qed.

(* ================================================================== *)
(** * Closed instances of the further properties *)

(** X4 at an unclosed object. *)
Lemma short_reply_witness :
  exists result z,
    _parse_score_response (interp := sample_interpreter) (PStr raw_unclosed_500)
    = Returns result
    /\ dict_get k_score result = Some (PInt z)
    /\ forall k, In k fourteen -> dict_has k result = true.
Proof.
  apply (short_reply_is_normalized (interp := sample_interpreter) raw_unclosed_500).
  vm_compute. lia.
Defined.

(** X5 at None. *)
Lemma non_text_witness :
  exists e,
    _parse_score_response (interp := sample_interpreter) PNone
    = Returns (error_result (interp := sample_interpreter) e)
    /\ (e = BuiltinError op_slice PNone \/ e = BuiltinError op_strip PNone)
    /\ dict_get k_score (error_result (interp := sample_interpreter) e)
       = Some (PInt 50).
Proof.
  apply (non_text_input_gives_error_result (interp := sample_interpreter) PNone).
  reflexivity.
Defined.

(** X6 at the empty reply. *)
Lemma empty_reply_witness :
  exists result,
    _parse_score_response (interp := sample_interpreter) (PStr []) = Returns result
    /\ dict_get k_score result = Some (PInt 50)
    /\ dict_get k_executive_summary result = Some (raw_summary [])
    /\ dict_get k_red_flags result
       = Some (PList [PStr (py "JSON parsing failed: "
                            ++ str_exn (interp := sample_interpreter)
                                 (JSONDecodeError []))])
    /\ dict_get k_risk_level result = Some (PStr (py "medium")).
Proof.
  apply (blank_reply_scores_50 (interp := sample_interpreter) []). reflexivity.
Defined.


(** X8 at a score written as a text. *)
Lemma text_score_witness :
  _parse_score_response (interp := sample_interpreter) (PStr raw_text_score)
  = Returns (fill_defaults [(k_score, PInt 85)])
  /\ (forall e, py_int (PStr (py "85")) = Raises e
                -> e = BuiltinError op_int (PStr (py "85"))).
Proof.
  apply (score_conversion_decides_the_tier (interp := sample_interpreter)
           raw_text_score [(k_score, PStr (py "85"))] (PStr (py "85"))).
  - reflexivity.
  - reflexivity.
Defined.

(** X9 for the empty deal and a collaborator that fails. *)
Lemma failing_collaborator_witness :
  score_deal (interp := sample_interpreter)
    (fun _ => Raises (Collaborator (py "overloaded"))) []
  = Returns
      [ (k_success, PBool false);
        (k_error, PStr (py "overloaded"));
        (k_score, PNone);
        (k_reasoning, PList []) ].
Proof.
  assert (B : exists prompt,
             _build_scoring_prompt (interp := sample_interpreter) [] = Returns prompt)
    by (eexists; reflexivity).
  destruct B as [prompt B].
  destruct (score_deal_always_answers (interp := sample_interpreter)
              (fun _ => Raises (Collaborator (py "overloaded"))) [] prompt B)
    as [(text & result & z & r & c & l & V & _)|(e & [V|(text & V & _)] & E)].
  - discriminate V.
  - injection V as <-. exact E.
  - discriminate V.
Defined.

(** X10: in lme_discount mode the price is not read. *)
Lemma unread_price_witness :
  _build_scoring_prompt (interp := sample_interpreter)
    (dict_set lme_deal (py "price") (PInt 5))
  = _build_scoring_prompt (interp := sample_interpreter) lme_deal.
Proof.
  apply (unread_key_has_no_effect (interp := sample_interpreter)).
  intros I. vm_compute in I.
  repeat (destruct I as [I|I]; [discriminate I|]). exact I.
Defined.

(** X16 for an update of two fields. *)
Lemma update_witness :
  placeholders (py "UPDATE deals SET status = ?, price = ? WHERE id = ?")
  = List.length [PStr (py "closed"); PInt 12; PInt 99]
  /\ [PStr (py "closed"); PInt 12; PInt 99]
     = map snd (filter (fun kv => negb (pystr_eqb (fst kv) (py "id"))) deal_update)
       ++ [PInt 99].
Proof.
  apply (update_binds_every_placeholder (PInt 99) deal_update).
  - reflexivity.
  - reflexivity.
Defined.

(** X19 at a reply that is a JSON list. *)
Lemma list_reply_witness :
  exists e,
    _parse_score_response (interp := sample_interpreter) (PStr (py "[1, 2]"))
    = Returns (error_result (interp := sample_interpreter) e)
    /\ (e = ValueError missing_score
        \/ e = BuiltinError op_contains (PList [PInt 1; PInt 2])
        \/ e = BuiltinError op_getitem (PList [PInt 1; PInt 2])).
Proof.
  apply (non_object_reply_gives_error_result (interp := sample_interpreter)
           (py "[1, 2]") (PList [PInt 1; PInt 2])).
  - reflexivity.
  - intros d E. discriminate E.
Defined.

(** X20 for the empty deal and a collaborator that returns an empty
    text. *)
Lemma empty_reply_success_witness :
  score_deal (interp := sample_interpreter) (fun _ => Returns (PStr [])) []
  = Returns
      [ (k_success, PBool true);
        (k_score, PInt 50);
        (k_reasoning, PList [PStr (py "Warning: AI returned invalid JSON format")]);
        (k_recommendation, PStr (py "Check console output or try again"));
        (k_risk_level, PStr (py "medium")) ].
Proof.
  assert (B : exists prompt,
             _build_scoring_prompt (interp := sample_interpreter) [] = Returns prompt)
    by (eexists; reflexivity).
  destruct B as [prompt B].
  apply (proj2 (unparsed_reply_is_reported_as_success (interp := sample_interpreter)
                  (fun _ => Returns (PStr [])) [] prompt [] B eq_refl
                  ltac:(vm_compute; lia))).
  reflexivity.
Defined.
